(** * tagfs: the metadata store (tagfs/db.py)

    A shallow embedding of the SQLite-backed store of tagfs and of its
    entity handles ([_SelectionsCursor], [_OptionsCursor], [_TagsCursor],
    [_FilesCursor]), followed by the properties of the store that the
    specification states.

    Modelling conventions.
    - A table is the list of its rows in rowid order: an [INSERT] appends
      (a fresh rowid is larger than every rowid in the table), a [DELETE]
      filters, an [UPDATE] maps in place.
    - Python and SQLite values share one type [value] ([None]/NULL, [int],
      [str]); a [name_id] argument is a [ref].
    - Python integers are unbounded ([Z]).  [sqlite3] binds an [int] as a
      64-bit integer and raises [OverflowError] for any other; the
      embedding describes the calls whose integer arguments fit ([int64],
      [call_fits]), and a property that quantifies over integers given by
      the caller states so.  An id read from a table is a rowid.
    - A handle is bound to one connection; [self.tags] inside the Files
      handle wraps the same connection and cursor, so all handles thread
      the same [conn].
    - The cursor's pending result set is the value returned by [execute];
      every query of the program selects exactly one column, so a result
      row is represented by that column.
    - [_SelectionsCursor.select] and [matches] splice the stored predicate
      text into a query.  What a text means is SQLite's affair, not the
      program's: the two methods take SQLite's answer to the spliced
      statement as a parameter ([engine]). *)

From Stdlib Require Import List Ascii String ZArith Bool Lia DecimalString Sorted Permutation.
Import ListNotations.

Open Scope string_scope.
Open Scope Z_scope.
Open Scope list_scope.

(** ** Values *)

Inductive value : Type :=
| VNull
| VInt (i : Z)
| VText (s : string).

(** [name_id = typing.Union[str, int]] *)
Inductive ref : Type :=
| RId (i : Z)
| RName (s : string).

Definition ref_value (r : ref) : value :=
  match r with
  | RId i => VInt i
  | RName s => VText s
  end.

(** Python [r == s] for a reference [r] and a string literal [s]: an [int]
    never equals a [str]. *)
Definition ref_eq_str (r : ref) (s : string) : bool :=
  match r with
  | RId _ => false
  | RName n => (n =? s)%string
  end.

(** Python [r == i] for a reference [r] and an integer literal [i]. *)
Definition ref_eq_int (r : ref) (i : Z) : bool :=
  match r with
  | RId j => (j =? i)%Z
  | RName _ => false
  end.

Definition is_null (v : value) : bool :=
  match v with
  | VNull => true
  | _ => false
  end.

(** SQL [a = b] used as a [WHERE] condition: NULL equals nothing, not even
    NULL.  The handles only compare an integer column with an integer or
    NULL and a text column with text or NULL, so no affinity conversion
    between integers and text arises. *)
Definition sql_eq (a b : value) : bool :=
  match a, b with
  | VInt x, VInt y => (x =? y)%Z
  | VText s, VText t => (s =? t)%string
  | _, _ => false
  end.

(** The integers [sqlite3] can bind: [sqlite3_bind_int64] takes a 64-bit
    signed integer, and the module raises [OverflowError] ("Python int too
    large to convert to SQLite INTEGER") for any other [int]. *)
Definition int64 (i : Z) : bool := (- 2 ^ 63 <=? i) && (i <? 2 ^ 63).

(** A value that can be bound as a parameter. *)
Definition bindable (v : value) : bool :=
  match v with
  | VInt i => int64 i
  | _ => true
  end.

(** A reference that can be bound: a name, or an integer that fits. *)
Definition ref_fits (r : ref) : bool := bindable (ref_value r).

(** ** Tables (schema [Database.INIT]) *)

(** [tags(id INTEGER PRIMARY KEY, name TEXT UNIQUE)] *)
Record tag_row : Type := mk_tag { tag_id : Z; tag_name : string }.

(** [tag_files(tag_id INTEGER, file_id INTEGER)]: both columns nullable. *)
Record tag_file_row : Type := mk_tag_file { tf_tag_id : value; tf_file_id : value }.

(** [files(id INTEGER PRIMARY KEY, name TEXT, path TEXT)] *)
Record file_row : Type := mk_file { file_id : Z; file_name : string; file_path : string }.

(** [options(name TEXT UNIQUE, value)] *)
Record option_row : Type := mk_option { opt_name : string; opt_value : value }.

(** [selections(name TEXT UNIQUE, value TEXT)] *)
Record selection_row : Type := mk_selection { sel_name : string; sel_value : string }.

Record database : Type := mk_db {
  tags : list tag_row;
  tag_files : list tag_file_row;
  files : list file_row;
  options : list option_row;
  selections : list selection_row
}.

Definition empty_db : database := mk_db [] [] [] [] [].

Definition with_tags (d : database) (t : list tag_row) : database :=
  mk_db t (tag_files d) (files d) (options d) (selections d).
Definition with_tag_files (d : database) (t : list tag_file_row) : database :=
  mk_db (tags d) t (files d) (options d) (selections d).
Definition with_files (d : database) (t : list file_row) : database :=
  mk_db (tags d) (tag_files d) t (options d) (selections d).
Definition with_options (d : database) (t : list option_row) : database :=
  mk_db (tags d) (tag_files d) (files d) t (selections d).
Definition with_selections (d : database) (t : list selection_row) : database :=
  mk_db (tags d) (tag_files d) (files d) (options d) t.

(** The rowid given to a row inserted without an explicit id: 1 in an empty
    table, otherwise one more than the largest rowid present. *)
Definition next_rowid (ids : list Z) : Z :=
  match ids with
  | [] => 1
  | i :: r => fold_left Z.max r i + 1
  end.

(** ** Statements *)

(** The statements the handles issue, one constructor per SQL text. *)
Inductive stmt : Type :=
| InsertSelection | DeleteSelection | SelectSelectionNames
| UpdateSelectionName | SelectSelectionValue
| ReplaceOption | SelectOptionValue
| InsertTag | DeleteTagFilesByTag | DeleteTag | SelectTagId | SelectTagName
| SelectTagNames | SelectTagIds | UpdateTagNameById | UpdateTagNameByName
| InsertFile | DeleteTagFilesByFile | DeleteFile | SelectFileId
| SelectFileName | SelectFileNames | SelectFileIds | UpdateFileNameById
| UpdateFileNameByName | SelectFilesByTag | InsertTagFile | DeleteTagFile
| SelectTagFile | SelectFilePathById | SelectFilePathByName
| SelectTagsOfFile.

Definition statements : list (string * stmt) :=
  [ ("INSERT INTO selections(name, value) VALUES(?, ?)", InsertSelection);
    ("DELETE FROM selections WHERE name = ?", DeleteSelection);
    ("SELECT name FROM selections;", SelectSelectionNames);
    ("UPDATE selections SET name = ? WHERE name = ?", UpdateSelectionName);
    ("SELECT value FROM selections WHERE name = ?", SelectSelectionValue);
    ("INSERT OR REPLACE INTO options(name, value) VALUES(?, ?)", ReplaceOption);
    ("SELECT value FROM options WHERE name = ?", SelectOptionValue);
    ("INSERT INTO tags(name) VALUES (?)", InsertTag);
    ("DELETE FROM tag_files WHERE tag_id = ?", DeleteTagFilesByTag);
    ("DELETE FROM tags WHERE id = ?", DeleteTag);
    ("SELECT id FROM tags WHERE name = ?", SelectTagId);
    ("SELECT name FROM tags WHERE id = ?", SelectTagName);
    ("SELECT name FROM tags;", SelectTagNames);
    ("SELECT id FROM tags;", SelectTagIds);
    ("UPDATE tags SET name = ? WHERE id = ?", UpdateTagNameById);
    ("UPDATE tags SET name = ? WHERE name = ?", UpdateTagNameByName);
    ("INSERT INTO files(name, path) VALUES (?, ?)", InsertFile);
    ("DELETE FROM tag_files WHERE file_id = ?", DeleteTagFilesByFile);
    ("DELETE FROM files WHERE id = ?", DeleteFile);
    ("SELECT id FROM files WHERE name = ?", SelectFileId);
    ("SELECT name FROM files WHERE id = ?", SelectFileName);
    ("SELECT name FROM files;", SelectFileNames);
    ("SELECT id FROM files;", SelectFileIds);
    ("UPDATE files SET name = ? WHERE id = ?", UpdateFileNameById);
    ("UPDATE files SET name = ? WHERE name = ?", UpdateFileNameByName);
    ("SELECT files.name FROM files INNER JOIN tag_files ON tag_files.file_id = files.id WHERE tag_files.tag_id = ?",
     SelectFilesByTag);
    ("INSERT INTO tag_files(tag_id, file_id) VALUES(?, ?)", InsertTagFile);
    ("DELETE FROM tag_files WHERE tag_id = ? AND file_id = ?", DeleteTagFile);
    ("SELECT tag_id FROM tag_files WHERE tag_id = ? AND file_id = ?", SelectTagFile);
    ("SELECT path FROM files WHERE id = ?", SelectFilePathById);
    ("SELECT path FROM files WHERE name = ?", SelectFilePathByName);
    ("SELECT tags.name FROM tag_files INNER JOIN tags ON tags.id = tag_files.tag_id WHERE tag_files.file_id = ?",
     SelectTagsOfFile) ].

(** The first word of a statement text. *)
Fixpoint first_word (s : string) : string :=
  match s with
  | EmptyString => EmptyString
  | String c r => if Ascii.eqb c (Ascii.ascii_of_nat 32) then EmptyString else String c (first_word r)
  end.

(** The keywords with which an SQLite data statement of this program can
    begin. *)
Definition statement_verbs : list string :=
  ["SELECT"; "INSERT"; "UPDATE"; "DELETE"; "REPLACE"].

Fixpoint lookup_stmt (sql : string) (l : list (string * stmt)) : option stmt :=
  match l with
  | [] => None
  | (t, st) :: r => if (sql =? t)%string then Some st else lookup_stmt sql r
  end.

(** Compiling a statement text: a text that does not begin with a statement
    keyword is a syntax error ([None]). *)
Definition prepare (sql : string) : option stmt :=
  if existsb (String.eqb (first_word sql)) statement_verbs
  then lookup_stmt sql statements
  else None.

(** ** Running a statement on a database *)

Inductive exn : Type :=
| OperationalError   (* sqlite3.OperationalError: SQL syntax error *)
| IntegrityError     (* sqlite3.IntegrityError: UNIQUE constraint failed *)
| ProgrammingError.  (* sqlite3.ProgrammingError: bindings do not fit *)

Inductive outcome : Type :=
| Rows (rs : list value) (d : database)
| Fail (e : exn).

Definition tag_has_name (p : value) (t : tag_row) : bool := sql_eq (VText (tag_name t)) p.
Definition tag_has_id (p : value) (t : tag_row) : bool := sql_eq (VInt (tag_id t)) p.
Definition file_has_name (p : value) (f : file_row) : bool := sql_eq (VText (file_name f)) p.
Definition file_has_id (p : value) (f : file_row) : bool := sql_eq (VInt (file_id f)) p.
Definition sel_has_name (p : value) (s : selection_row) : bool := sql_eq (VText (sel_name s)) p.
Definition opt_has_name (p : value) (o : option_row) : bool := sql_eq (VText (opt_name o)) p.

Definition rename_tag (sel : tag_row -> bool) (dst : string) (t : tag_row) : tag_row :=
  if sel t then mk_tag (tag_id t) dst else t.
Definition rename_file (sel : file_row -> bool) (dst : string) (f : file_row) : file_row :=
  if sel f then mk_file (file_id f) dst (file_path f) else f.
Definition rename_selection (sel : selection_row -> bool) (dst : string) (s : selection_row)
  : selection_row :=
  if sel s then mk_selection dst (sel_value s) else s.

(** [UPDATE tags SET name = dst WHERE id = p] breaks [UNIQUE(name)] when a
    row is updated while another row already bears [dst]. *)
Definition tag_update_by_id_conflict (dst : string) (p : value) (l : list tag_row) : bool :=
  existsb (tag_has_id p) l
  && existsb (fun t => tag_has_name (VText dst) t && negb (tag_has_id p t)) l.

(** [UPDATE ... SET name = dst WHERE name = p]: a row is updated, and a row
    with another name than [p] already bears [dst]. *)
Definition tag_update_by_name_conflict (dst : string) (p : value) (l : list tag_row) : bool :=
  existsb (tag_has_name p) l
  && existsb (fun t => tag_has_name (VText dst) t && negb (tag_has_name p t)) l.

Definition sel_update_conflict (dst : string) (p : value) (l : list selection_row) : bool :=
  existsb (sel_has_name p) l
  && existsb (fun s => sel_has_name (VText dst) s && negb (sel_has_name p s)) l.

(** The rows of the join of [tag_files] with another table: [tag_files] is
    the outer loop, the joined table is probed by rowid.  (The order of the
    result rows is the query planner's choice; no property below depends
    on it beyond what is stated.) *)
Definition join_files (p : value) (d : database) : list value :=
  flat_map (fun tf =>
              if sql_eq (tf_tag_id tf) p
              then map (fun f => VText (file_name f)) (filter (file_has_id (tf_file_id tf)) (files d))
              else [])
           (tag_files d).

Definition join_tags (p : value) (d : database) : list value :=
  flat_map (fun tf =>
              if sql_eq (tf_file_id tf) p
              then map (fun t => VText (tag_name t)) (filter (tag_has_id (tf_tag_id tf)) (tags d))
              else [])
           (tag_files d).

(** [SELECT name FROM selections] reads the names off the index that
    [UNIQUE(name)] creates for a table with a further column: they come in
    the order of the index, sorted by their code units (the BINARY
    collation), not in the order of insertion.  ([SELECT name FROM tags],
    on a table whose other column is the rowid, scans the table.) *)
Fixpoint insert_name (n : string) (l : list string) : list string :=
  match l with
  | [] => [n]
  | m :: r => if String.leb n m then n :: l else m :: insert_name n r
  end.

Definition index_order (l : list string) : list string :=
  fold_right insert_name [] l.

(** The order of the index: [a] comes before [b], or is [b]. *)
Definition name_le (a b : string) : Prop := String.leb a b = true.

(** [run st ps d]: the result rows and the database after statement [st]
    with the bindings [ps].  The handles bind a [str] wherever a text
    column is written and the right number of values; any other binding is
    reported as [ProgrammingError] and is never produced by a handle. *)
Definition run (st : stmt) (ps : list value) (d : database) : outcome :=
  match st with
  | InsertSelection =>
      match ps with
      | [VText n; VText v] =>
          if existsb (sel_has_name (VText n)) (selections d) then Fail IntegrityError
          else Rows [] (with_selections d (selections d ++ [mk_selection n v]))
      | _ => Fail ProgrammingError
      end
  | DeleteSelection =>
      match ps with
      | [p] => Rows [] (with_selections d (filter (fun s => negb (sel_has_name p s)) (selections d)))
      | _ => Fail ProgrammingError
      end
  | SelectSelectionNames =>
      match ps with
      | [] => Rows (map VText (index_order (map sel_name (selections d)))) d
      | _ => Fail ProgrammingError
      end
  | UpdateSelectionName =>
      match ps with
      | [VText dst; p] =>
          if sel_update_conflict dst p (selections d) then Fail IntegrityError
          else Rows [] (with_selections d (map (rename_selection (sel_has_name p) dst) (selections d)))
      | _ => Fail ProgrammingError
      end
  | SelectSelectionValue =>
      match ps with
      | [p] => Rows (map (fun s => VText (sel_value s)) (filter (sel_has_name p) (selections d))) d
      | _ => Fail ProgrammingError
      end
  | ReplaceOption =>
      match ps with
      | [VText n; v] =>
          Rows [] (with_options d (filter (fun o => negb (opt_has_name (VText n) o)) (options d)
                                     ++ [mk_option n v]))
      | _ => Fail ProgrammingError
      end
  | SelectOptionValue =>
      match ps with
      | [p] => Rows (map opt_value (filter (opt_has_name p) (options d))) d
      | _ => Fail ProgrammingError
      end
  | InsertTag =>
      match ps with
      | [VText n] =>
          if existsb (tag_has_name (VText n)) (tags d) then Fail IntegrityError
          else Rows [] (with_tags d (tags d ++ [mk_tag (next_rowid (map tag_id (tags d))) n]))
      | _ => Fail ProgrammingError
      end
  | DeleteTagFilesByTag =>
      match ps with
      | [p] => Rows [] (with_tag_files d (filter (fun tf => negb (sql_eq (tf_tag_id tf) p)) (tag_files d)))
      | _ => Fail ProgrammingError
      end
  | DeleteTag =>
      match ps with
      | [p] => Rows [] (with_tags d (filter (fun t => negb (tag_has_id p t)) (tags d)))
      | _ => Fail ProgrammingError
      end
  | SelectTagId =>
      match ps with
      | [p] => Rows (map (fun t => VInt (tag_id t)) (filter (tag_has_name p) (tags d))) d
      | _ => Fail ProgrammingError
      end
  | SelectTagName =>
      match ps with
      | [p] => Rows (map (fun t => VText (tag_name t)) (filter (tag_has_id p) (tags d))) d
      | _ => Fail ProgrammingError
      end
  | SelectTagNames =>
      match ps with
      | [] => Rows (map (fun t => VText (tag_name t)) (tags d)) d
      | _ => Fail ProgrammingError
      end
  | SelectTagIds =>
      match ps with
      | [] => Rows (map (fun t => VInt (tag_id t)) (tags d)) d
      | _ => Fail ProgrammingError
      end
  | UpdateTagNameById =>
      match ps with
      | [VText dst; p] =>
          if tag_update_by_id_conflict dst p (tags d) then Fail IntegrityError
          else Rows [] (with_tags d (map (rename_tag (tag_has_id p) dst) (tags d)))
      | _ => Fail ProgrammingError
      end
  | UpdateTagNameByName =>
      match ps with
      | [VText dst; p] =>
          if tag_update_by_name_conflict dst p (tags d) then Fail IntegrityError
          else Rows [] (with_tags d (map (rename_tag (tag_has_name p) dst) (tags d)))
      | _ => Fail ProgrammingError
      end
  | InsertFile =>
      match ps with
      | [VText n; VText path] =>
          Rows [] (with_files d (files d ++ [mk_file (next_rowid (map file_id (files d))) n path]))
      | _ => Fail ProgrammingError
      end
  | DeleteTagFilesByFile =>
      match ps with
      | [p] => Rows [] (with_tag_files d (filter (fun tf => negb (sql_eq (tf_file_id tf) p)) (tag_files d)))
      | _ => Fail ProgrammingError
      end
  | DeleteFile =>
      match ps with
      | [p] => Rows [] (with_files d (filter (fun f => negb (file_has_id p f)) (files d)))
      | _ => Fail ProgrammingError
      end
  | SelectFileId =>
      match ps with
      | [p] => Rows (map (fun f => VInt (file_id f)) (filter (file_has_name p) (files d))) d
      | _ => Fail ProgrammingError
      end
  | SelectFileName =>
      match ps with
      | [p] => Rows (map (fun f => VText (file_name f)) (filter (file_has_id p) (files d))) d
      | _ => Fail ProgrammingError
      end
  | SelectFileNames =>
      match ps with
      | [] => Rows (map (fun f => VText (file_name f)) (files d)) d
      | _ => Fail ProgrammingError
      end
  | SelectFileIds =>
      match ps with
      | [] => Rows (map (fun f => VInt (file_id f)) (files d)) d
      | _ => Fail ProgrammingError
      end
  | UpdateFileNameById =>
      match ps with
      | [VText dst; p] => Rows [] (with_files d (map (rename_file (file_has_id p) dst) (files d)))
      | _ => Fail ProgrammingError
      end
  | UpdateFileNameByName =>
      match ps with
      | [VText dst; p] => Rows [] (with_files d (map (rename_file (file_has_name p) dst) (files d)))
      | _ => Fail ProgrammingError
      end
  | SelectFilesByTag =>
      match ps with
      | [p] => Rows (join_files p d) d
      | _ => Fail ProgrammingError
      end
  | InsertTagFile =>
      match ps with
      | [t; f] => Rows [] (with_tag_files d (tag_files d ++ [mk_tag_file t f]))
      | _ => Fail ProgrammingError
      end
  | DeleteTagFile =>
      match ps with
      | [t; f] =>
          Rows [] (with_tag_files d
                     (filter (fun tf => negb (sql_eq (tf_tag_id tf) t && sql_eq (tf_file_id tf) f))
                             (tag_files d)))
      | _ => Fail ProgrammingError
      end
  | SelectTagFile =>
      match ps with
      | [t; f] =>
          Rows (map tf_tag_id
                    (filter (fun tf => sql_eq (tf_tag_id tf) t && sql_eq (tf_file_id tf) f) (tag_files d)))
               d
      | _ => Fail ProgrammingError
      end
  | SelectFilePathById =>
      match ps with
      | [p] => Rows (map (fun f => VText (file_path f)) (filter (file_has_id p) (files d))) d
      | _ => Fail ProgrammingError
      end
  | SelectFilePathByName =>
      match ps with
      | [p] => Rows (map (fun f => VText (file_path f)) (filter (file_has_name p) (files d))) d
      | _ => Fail ProgrammingError
      end
  | SelectTagsOfFile =>
      match ps with
      | [p] => Rows (join_tags p d) d
      | _ => Fail ProgrammingError
      end
  end.

(** ** The connection *)

(** What the handles did on the connection, oldest first. *)
Inductive event : Type :=
| Exec (sql : string) (params : list value)
| Commit (snapshot : database).

(** [work] is the database as the connection sees it (with the changes of
    the open transaction), [committed] the database as last committed, the
    one other connections see. *)
Record conn : Type := mk_conn {
  work : database;
  committed : database;
  trace : list event
}.

(** [Database.__init__] on a fresh file: the schema is created and
    committed. *)
Definition fresh_conn : conn := mk_conn empty_db empty_db [].

Inductive result (A : Type) : Type :=
| Ok (a : A)
| Raise (e : exn).
Arguments Ok {A} a.
Arguments Raise {A} e.

(** A handle method: it runs on the connection and returns or raises. *)
Definition M (A : Type) : Type := conn -> result A * conn.

Definition ret {A : Type} (a : A) : M A := fun c => (Ok a, c).

Definition bind {A B : Type} (m : M A) (k : A -> M B) : M B :=
  fun c =>
    match m c with
    | (Ok a, c') => k a c'
    | (Raise e, c') => (Raise e, c')
    end.

Declare Scope db_scope.
Delimit Scope db_scope with db.
Notation "x <- m ;; k" := (bind m (fun x => k))
  (at level 61, m at next level, right associativity) : db_scope.
Notation "m ;; k" := (bind m (fun _ => k))
  (at level 61, right associativity) : db_scope.
Open Scope db_scope.

(** [cursor.execute(sql, params)] for one of the fixed statements of the
    handles, with parameters that can be bound ([bindable]).  The statement
    is compiled first, so that a text that is not SQL raises
    [OperationalError] whatever the parameters are. *)
Definition execute (sql : string) (params : list value) : M (list value) :=
  fun c =>
    let t := trace c ++ [Exec sql params] in
    match prepare sql with
    | None => (Raise OperationalError, mk_conn (work c) (committed c) t)
    | Some st =>
        match run st params (work c) with
        | Fail e => (Raise e, mk_conn (work c) (committed c) t)
        | Rows rs d => (Ok rs, mk_conn d (committed c) t)
        end
    end.

(** [connection.commit()] *)
Definition commit : M unit :=
  fun c => (Ok tt, mk_conn (work c) (work c) (trace c ++ [Commit (work c)])).

(** [c = self.fetchone(); None if c is None else c[0]] *)
Definition fetchone_first (rows : list value) : value :=
  match rows with
  | [] => VNull
  | v :: _ => v
  end.

(** [_BaseCursor._fetch_first]: [[i[0] for i in self.fetchall()]] *)
Definition fetch_first (rows : list value) : list value := rows.

(** ** Spliced predicate text *)

(** The statement into which [select] and [matches] splice a condition. *)
Definition selection_query (cond : string) : string :=
  "SELECT files.name FROM tag_files INNER JOIN files ON files.id = tag_files.file_id INNER JOIN tags ON tags.id = tag_files.tag_id WHERE "
  ++ cond.

(** SQLite on the statement [selection_query cond] with the bindings [ps]
    in the database [d]: the first column of the rows it finds, or the
    exception it raises (a condition that is not an SQL expression or names
    no column, bindings that do not fit the condition).  A [SELECT] changes
    no data.  The grammar and the functions of SQL are not the program's:
    the answer is a parameter of [select] and [matches]. *)
Definition engine : Type := string -> list value -> database -> result (list value).

(** [cursor.execute(selection_query cond, params)] *)
Definition execute_selection (E : engine) (cond : string) (params : list value)
  : M (list value) :=
  fun c =>
    (E cond params (work c),
     mk_conn (work c) (committed c) (trace c ++ [Exec (selection_query cond) params])).

(** ["%s" % v] *)
Definition render (v : value) : string :=
  match v with
  | VNull => "None"
  | VInt i => NilZero.string_of_int (Z.to_int i)
  | VText s => s
  end.

(** [self.fetchone() is not None] *)
Definition fetched (rows : list value) : bool :=
  match rows with
  | [] => false
  | _ :: _ => true
  end.

(** ** [_SelectionsCursor] *)
Module Selections.

Definition new (name value : string) : M bool :=
  execute "INSERT INTO selections(name, value) VALUES(?, ?)" [VText name; VText value] ;;
  commit ;;
  ret true.

Definition remove (name : string) : M bool :=
  execute "DELETE FROM selections WHERE name = ?" [VText name] ;;
  commit ;;
  ret true.

Definition all_names : M (list value) :=
  rows <- execute "SELECT name FROM selections;" [] ;;
  ret (fetch_first rows).

Definition rename (src dst : string) : M bool :=
  if (src =? "__ALL__")%string || (dst =? "__ALL__")%string then ret false
  else
    execute "UPDATE selections SET name = ? WHERE name = ?" [VText dst; VText src] ;;
    commit ;;
    ret true.

Definition resolve (name : string) : M value :=
  rows <- execute "SELECT value FROM selections WHERE name = ?" [VText name] ;;
  ret (fetchone_first rows).

(** The text is formatted, [resolve] being called on the way, before
    [execute] runs. *)
Definition select (E : engine) (name : string) : M (list value) :=
  v <- resolve name ;;
  rows <- execute_selection E (render v) [] ;;
  ret (fetch_first rows).

Definition exists_ (name : string) : M bool :=
  v <- resolve name ;;
  ret (negb (is_null v)).

Definition matches (E : engine) (name : string) (file : ref) : M bool :=
  rows <- match file with
          | RId i =>
              v <- resolve name ;;
              execute_selection E ("files.id = ? AND " ++ render v) [VInt i]
          | RName s =>
              v <- resolve name ;;
              execute_selection E ("files.name = ? AND " ++ render v) [VText s]
          end ;;
  ret (fetched rows).

End Selections.

(** ** [_OptionsCursor] *)
Module Options.

Definition set (name : string) (v : value) : M unit :=
  execute "INSERT OR REPLACE INTO options(name, value) VALUES(?, ?)" [VText name; v] ;;
  commit.

Definition get (name : string) : M value :=
  rows <- execute "SELECT value FROM options WHERE name = ?" [VText name] ;;
  ret (fetchone_first rows).

Definition unset (name : string) : M unit :=
  execute "REMOVE FROM options WHERE name = ?" [VText name] ;;
  commit.

End Options.

(** ** [_TagsCursor] *)
Module Tags.

Definition new (name : string) : M bool :=
  if (name =? "__ALL__")%string then ret false
  else
    execute "INSERT INTO tags(name) VALUES (?)" [VText name] ;;
    commit ;;
    ret true.

Definition get_id (name : ref) : M value :=
  match name with
  | RId i => ret (VInt i)
  | RName s =>
      if (s =? "__ALL__")%string then ret (VInt (-1))
      else
        rows <- execute "SELECT id FROM tags WHERE name = ?" [VText s] ;;
        ret (fetchone_first rows)
  end.

Definition remove (name : ref) : M bool :=
  if ref_eq_str name "__ALL__" then ret false
  else
    i <- get_id name ;;
    execute "DELETE FROM tag_files WHERE tag_id = ?" [i] ;;
    execute "DELETE FROM tags WHERE id = ?" [i] ;;
    commit ;;
    ret true.

Definition get_name (name : ref) : M value :=
  match name with
  | RName s => ret (VText s)
  | RId i =>
      rows <- execute "SELECT name FROM tags WHERE id = ?" [VInt i] ;;
      ret (fetchone_first rows)
  end.

Definition all_names : M (list value) :=
  rows <- execute "SELECT name FROM tags;" [] ;;
  ret (fetch_first rows).

Definition all_ids : M (list value) :=
  rows <- execute "SELECT id FROM tags;" [] ;;
  ret (fetch_first rows).

Definition rename (src : ref) (dst : string) : M bool :=
  if ref_eq_str src "__ALL__" || (dst =? "__ALL__")%string then ret false
  else
    match src with
    | RId i => execute "UPDATE tags SET name = ? WHERE id = ?" [VText dst; VInt i]
    | RName s => execute "UPDATE tags SET name = ? WHERE name = ?" [VText dst; VText s]
    end ;;
    commit ;;
    ret true.

Definition exists_ (name : ref) : M bool :=
  i <- get_id name ;;
  ret (negb (is_null i)).

End Tags.

(** ** [_FilesCursor] *)
Module Files.

Definition new (name path : string) : M bool :=
  execute "INSERT INTO files(name, path) VALUES (?, ?)" [VText name; VText path] ;;
  commit ;;
  ret true.

Definition get_id (name : ref) : M value :=
  match name with
  | RId i => ret (VInt i)
  | RName s =>
      rows <- execute "SELECT id FROM files WHERE name = ?" [VText s] ;;
      ret (fetchone_first rows)
  end.

Definition remove (name : ref) : M bool :=
  i <- get_id name ;;
  execute "DELETE FROM tag_files WHERE file_id = ?" [i] ;;
  execute "DELETE FROM files WHERE id = ?" [i] ;;
  commit ;;
  ret true.

Definition get_name (name : ref) : M value :=
  match name with
  | RName s => ret (VText s)
  | RId i =>
      rows <- execute "SELECT name FROM files WHERE id = ?" [VInt i] ;;
      ret (fetchone_first rows)
  end.

Definition all_names : M (list value) :=
  rows <- execute "SELECT name FROM files;" [] ;;
  ret (fetch_first rows).

Definition all_ids : M (list value) :=
  rows <- execute "SELECT id FROM files;" [] ;;
  ret (fetch_first rows).

Definition rename (src : ref) (dst : string) : M bool :=
  match src with
  | RId i => execute "UPDATE files SET name = ? WHERE id = ?" [VText dst; VInt i]
  | RName s => execute "UPDATE files SET name = ? WHERE name = ?" [VText dst; VText s]
  end ;;
  commit ;;
  ret true.

Definition exists_ (name : ref) : M bool :=
  i <- get_id name ;;
  ret (negb (is_null i)).

Definition get_by_tag (tag : ref) : M (list value) :=
  if ref_eq_str tag "__ALL__" then all_names
  else
    t <- Tags.get_id tag ;;
    rows <- execute "SELECT files.name FROM files INNER JOIN tag_files ON tag_files.file_id = files.id WHERE tag_files.tag_id = ?" [t] ;;
    ret (fetch_first rows).

(** The argument tuple [(self.tags.get_id(tag), self.get_id(name))] is
    evaluated left to right. *)
Definition add_tag (name tag : ref) : M bool :=
  if ref_eq_str tag "__ALL__" then ret false
  else
    t <- Tags.get_id tag ;;
    f <- get_id name ;;
    execute "INSERT INTO tag_files(tag_id, file_id) VALUES(?, ?)" [t; f] ;;
    commit ;;
    ret true.

Definition remove_tag (name tag : ref) : M bool :=
  if ref_eq_str tag "__ALL__" then ret false
  else
    t <- Tags.get_id tag ;;
    f <- get_id name ;;
    execute "DELETE FROM tag_files WHERE tag_id = ? AND file_id = ?" [t; f] ;;
    commit ;;
    ret true.

(** [len(self.fetch_first()) > 0] *)
Definition has_tag (name tag : ref) : M bool :=
  if ref_eq_str tag "__ALL__" || ref_eq_int tag (-1) then ret true
  else
    t <- Tags.get_id tag ;;
    f <- get_id name ;;
    rows <- execute "SELECT tag_id FROM tag_files WHERE tag_id = ? AND file_id = ?" [t; f] ;;
    ret (0 <? List.length (fetch_first rows))%nat.

Definition resolve (name : ref) : M value :=
  rows <- match name with
          | RId i => execute "SELECT path FROM files WHERE id = ?" [VInt i]
          | RName s => execute "SELECT path FROM files WHERE name = ?" [VText s]
          end ;;
  ret (fetchone_first rows).

Definition get_tags (name : ref) : M (list value) :=
  name <- get_id name ;;
  rows <- execute "SELECT tags.name FROM tag_files INNER JOIN tags ON tags.id = tag_files.tag_id WHERE tag_files.file_id = ?" [name] ;;
  ret (fetch_first rows).

(** One iteration of the loop of [set_tags].  [t.get_id(tag)] is [None]
    only for a textual [tag] (an integer is returned as it is), so
    [t.new(tag)] is only ever called with a [str]. *)
Definition set_tags_step (name : value) (tag : ref) : M unit :=
  i <- Tags.get_id tag ;;
  i <- (if is_null i
        then
          match tag with
          | RName s => Tags.new s
          | RId _ => ret false
          end ;;
          Tags.get_id tag
        else ret i) ;;
  execute "INSERT INTO tag_files(tag_id, file_id) VALUES(?, ?)" [i; name] ;;
  ret tt.

Fixpoint set_tags_loop (name : value) (tags : list ref) : M unit :=
  match tags with
  | [] => ret tt
  | tag :: rest => set_tags_step name tag ;; set_tags_loop name rest
  end.

Definition set_tags (name : ref) (tags : list ref) : M bool :=
  name <- get_id name ;;
  execute "DELETE FROM tag_files WHERE file_id = ?" [name] ;;
  set_tags_loop name tags ;;
  commit ;;
  ret true.

End Files.

(** ** Handle calls *)

(** What a handle method returns: a [bool], a value ([None], an [int] or a
    [str]), a list, or nothing. *)
Inductive answer : Type :=
| ABool (b : bool)
| AValue (v : value)
| AList (l : list value)
| ANone.

(** A call of a handle method with its arguments: the methods whose
    statements are fixed texts.  ([select] and [matches], which take the
    engine, are added in [method] below.) *)
Inductive call : Type :=
| Selections_new (name value : string)
| Selections_remove (name : string)
| Selections_all_names
| Selections_rename (src dst : string)
| Selections_resolve (name : string)
| Selections_exists (name : string)
| Options_set (name : string) (v : value)
| Options_get (name : string)
| Options_unset (name : string)
| Tags_new (name : string)
| Tags_remove (name : ref)
| Tags_get_id (name : ref)
| Tags_get_name (name : ref)
| Tags_all_names
| Tags_all_ids
| Tags_rename (src : ref) (dst : string)
| Tags_exists (name : ref)
| Files_new (name path : string)
| Files_remove (name : ref)
| Files_get_id (name : ref)
| Files_get_name (name : ref)
| Files_all_names
| Files_all_ids
| Files_rename (src : ref) (dst : string)
| Files_exists (name : ref)
| Files_get_by_tag (tag : ref)
| Files_add_tag (name tag : ref)
| Files_remove_tag (name tag : ref)
| Files_has_tag (name tag : ref)
| Files_resolve (name : ref)
| Files_get_tags (name : ref)
| Files_set_tags (name : ref) (tags : list ref).

Definition answering {A : Type} (f : A -> answer) (m : M A) : M answer :=
  a <- m ;; ret (f a).

Definition run_call (k : call) : M answer :=
  match k with
  | Selections_new n v => answering ABool (Selections.new n v)
  | Selections_remove n => answering ABool (Selections.remove n)
  | Selections_all_names => answering AList Selections.all_names
  | Selections_rename s d => answering ABool (Selections.rename s d)
  | Selections_resolve n => answering AValue (Selections.resolve n)
  | Selections_exists n => answering ABool (Selections.exists_ n)
  | Options_set n v => answering (fun _ => ANone) (Options.set n v)
  | Options_get n => answering AValue (Options.get n)
  | Options_unset n => answering (fun _ => ANone) (Options.unset n)
  | Tags_new n => answering ABool (Tags.new n)
  | Tags_remove r => answering ABool (Tags.remove r)
  | Tags_get_id r => answering AValue (Tags.get_id r)
  | Tags_get_name r => answering AValue (Tags.get_name r)
  | Tags_all_names => answering AList Tags.all_names
  | Tags_all_ids => answering AList Tags.all_ids
  | Tags_rename s d => answering ABool (Tags.rename s d)
  | Tags_exists r => answering ABool (Tags.exists_ r)
  | Files_new n p => answering ABool (Files.new n p)
  | Files_remove r => answering ABool (Files.remove r)
  | Files_get_id r => answering AValue (Files.get_id r)
  | Files_get_name r => answering AValue (Files.get_name r)
  | Files_all_names => answering AList Files.all_names
  | Files_all_ids => answering AList Files.all_ids
  | Files_rename s d => answering ABool (Files.rename s d)
  | Files_exists r => answering ABool (Files.exists_ r)
  | Files_get_by_tag t => answering AList (Files.get_by_tag t)
  | Files_add_tag f t => answering ABool (Files.add_tag f t)
  | Files_remove_tag f t => answering ABool (Files.remove_tag f t)
  | Files_has_tag f t => answering ABool (Files.has_tag f t)
  | Files_resolve f => answering AValue (Files.resolve f)
  | Files_get_tags f => answering AList (Files.get_tags f)
  | Files_set_tags f ts => answering ABool (Files.set_tags f ts)
  end.

(** The connections a program can reach: a fresh store, then any handle
    calls (a call that raises leaves the connection as the exception found
    it).  [select] and [matches], which only read, add no store to these
    ([served] below). *)
Inductive reachable : conn -> Prop :=
| reachable_fresh : reachable fresh_conn
| reachable_call (k : call) (c : conn) :
    reachable c -> reachable (snd (run_call k c)).

(** Every integer among the arguments of the call fits in 64 bits. *)
Definition call_fits (k : call) : bool :=
  match k with
  | Options_set _ v => bindable v
  | Tags_remove r | Tags_get_id r | Tags_get_name r | Tags_exists r
  | Files_remove r | Files_get_id r | Files_get_name r | Files_exists r
  | Files_get_by_tag r | Files_resolve r | Files_get_tags r => ref_fits r
  | Tags_rename r _ | Files_rename r _ => ref_fits r
  | Files_add_tag f t | Files_remove_tag f t | Files_has_tag f t => ref_fits f && ref_fits t
  | Files_set_tags f ts => ref_fits f && forallb ref_fits ts
  | _ => true
  end.

(** A call of any handle method. *)
Inductive method : Type :=
| Fixed (k : call)
| Selections_select (name : string)
| Selections_matches (name : string) (file : ref).

Definition run_method (E : engine) (m : method) : M answer :=
  match m with
  | Fixed k => run_call k
  | Selections_select n => answering AList (Selections.select E n)
  | Selections_matches n f => answering ABool (Selections.matches E n f)
  end.

Definition method_fits (m : method) : bool :=
  match m with
  | Fixed k => call_fits k
  | Selections_select _ => true
  | Selections_matches _ f => ref_fits f
  end.

(** The connections a program reaches when the integers it passes fit in
    64 bits: a fresh store, then calls of any handle method. *)
Inductive served (E : engine) : conn -> Prop :=
| served_fresh : served E fresh_conn
| served_method (m : method) (c : conn) :
    method_fits m = true -> served E c -> served E (snd (run_method E m c)).

(** ** Invariants of the store *)

Record wf_db (d : database) : Prop := mk_wf {
  wf_tag_ids : NoDup (map tag_id (tags d));
  wf_tag_names : NoDup (map tag_name (tags d));
  wf_tag_ids_pos : Forall (fun i => 0 < i) (map tag_id (tags d));
  wf_no_sentinel : ~ In "__ALL__" (map tag_name (tags d));
  wf_file_ids : NoDup (map file_id (files d));
  wf_file_ids_pos : Forall (fun i => 0 < i) (map file_id (files d));
  wf_option_names : NoDup (map opt_name (options d));
  wf_selection_names : NoDup (map sel_name (selections d))
}.

Definition wf_conn (c : conn) : Prop :=
  wf_db (work c) /\ committed c = work c.

(** The statements by which a tag gets a name are only executed with a
    name other than ["__ALL__"]: [Tags.new] and [Tags.rename] return before. *)
Definition guarded (st : stmt) (ps : list value) : Prop :=
  match st with
  | InsertTag | UpdateTagNameById | UpdateTagNameByName =>
      match ps with
      | VText n :: _ => n <> "__ALL__"
      | _ => True
      end
  | _ => True
  end.

(** A method keeps the working database well formed. *)
Definition preserves {A : Type} (m : M A) : Prop :=
  forall c : conn, wf_db (work c) -> wf_db (work (snd (m c))).

(** ** Observations *)

(** The snapshots committed along a trace, oldest first. *)
Fixpoint commits (t : list event) : list database :=
  match t with
  | [] => []
  | Commit d :: r => d :: commits r
  | Exec _ _ :: r => commits r
  end.

(** The id a tag reference resolves to ([_TagsCursor.get_id] as a function
    of the database). *)
Definition tag_id_of (d : database) (r : ref) : value :=
  match r with
  | RId i => VInt i
  | RName s =>
      if (s =? "__ALL__")%string then VInt (-1)
      else fetchone_first (map (fun t => VInt (tag_id t)) (filter (tag_has_name (VText s)) (tags d)))
  end.

(** The id a file reference resolves to ([_FilesCursor.get_id]). *)
Definition file_id_of (d : database) (r : ref) : value :=
  match r with
  | RId i => VInt i
  | RName s => fetchone_first (map (fun f => VInt (file_id f)) (filter (file_has_name (VText s)) (files d)))
  end.

(** Two connections hold the same store: the same working database and the
    same committed database (their histories may differ). *)
Definition same_store (c1 c2 : conn) : Prop :=
  work c1 = work c2 /\ committed c1 = committed c2.

(** Two runs end alike: same result (or same exception), same store. *)
Definition same_outcome {A : Type} (x y : result A * conn) : Prop :=
  fst x = fst y /\ same_store (snd x) (snd y).

(** A method respects the store: its outcome depends on the store only,
    not on the history of the connection. *)
Definition respects {A : Type} (m : M A) : Prop :=
  forall c1 c2, same_store c1 c2 -> same_outcome (m c1) (m c2).




(** A reference to the sentinel tag: its name or its id. *)
Definition sentinel_ref (r : ref) : Prop :=
  r = RName "__ALL__" \/ r = RId (-1).

(** A file reference that denotes a registered file. *)
Definition file_exists (d : database) (r : ref) : Prop :=
  match r with
  | RId i => In i (map file_id (files d))
  | RName n => In n (map file_name (files d))
  end.

(** ** Selections on the database *)

(** The value of a selection ([_SelectionsCursor.resolve] as a function of
    the database). *)
Definition selection_value (d : database) (name : string) : value :=
  fetchone_first (map (fun s => VText (sel_value s))
                      (filter (sel_has_name (VText name)) (selections d))).

(** The text that [select] and [matches] splice for a selection: its
    value, and the word [None] when there is no such selection. *)
Definition spliced (d : database) (name : string) : string :=
  render (selection_value d name).

(** The condition on the file that [matches] puts before the spliced
    text. *)
Definition file_condition (file : ref) : string :=
  match file with
  | RId _ => "files.id = ? AND "
  | RName _ => "files.name = ? AND "
  end.


(** A row of [tag_files INNER JOIN files ON files.id = tag_files.file_id
    INNER JOIN tags ON tags.id = tag_files.tag_id]. *)
Record joined_row : Type := mk_joined { j_file : file_row; j_tag : tag_row }.

Definition joined (d : database) : list joined_row :=
  flat_map (fun tf =>
              flat_map (fun f => map (mk_joined f) (filter (tag_has_id (tf_tag_id tf)) (tags d)))
                       (filter (file_has_id (tf_file_id tf)) (files d)))
           (tag_files d).

(** A bound parameter compared with the TEXT column [tags.name]: an
    integer is compared as its decimal text. *)
Definition bound_text (p : value) : value :=
  match p with
  | VInt i => VText (render (VInt i))
  | _ => p
  end.

(** SQLite's answers where the examples below need them: the predicate
    texts [tags.name='photo'] and [tags.name = ?1], alone and behind the
    two file conditions, for an [int] bound to [files.id = ?] and a [str]
    bound to [files.name = ?].  [?1] is the first bound parameter.  Every
    other text is answered with [OperationalError], as SQLite answers
    [None], which names no column.  (The rows come in the order of
    [joined]; the examples have one row at most.) *)
Definition sample_engine : engine :=
  fun cond ps d =>
    let found (keep : joined_row -> bool) : result (list value) :=
      Ok (map (fun r => VText (file_name (j_file r))) (filter keep (joined d))) in
    let photo (r : joined_row) : bool := (tag_name (j_tag r) =? "photo")%string in
    let own (p : value) (r : joined_row) : bool := tag_has_name (bound_text p) (j_tag r) in
    if (cond =? "tags.name='photo'")%string then
      match ps with
      | [] => found photo
      | _ => Raise ProgrammingError
      end
    else if (cond =? "files.id = ? AND tags.name='photo'")%string then
      match ps with
      | [p] => found (fun r => file_has_id p (j_file r) && photo r)
      | _ => Raise ProgrammingError
      end
    else if (cond =? "files.name = ? AND tags.name='photo'")%string then
      match ps with
      | [p] => found (fun r => file_has_name p (j_file r) && photo r)
      | _ => Raise ProgrammingError
      end
    else if (cond =? "tags.name = ?1")%string then
      match ps with
      | [p] => found (own p)
      | _ => Raise ProgrammingError
      end
    else if (cond =? "files.id = ? AND tags.name = ?1")%string then
      match ps with
      | [p] => found (fun r => file_has_id p (j_file r) && own p r)
      | _ => Raise ProgrammingError
      end
    else if (cond =? "files.name = ? AND tags.name = ?1")%string then
      match ps with
      | [p] => found (fun r => file_has_name p (j_file r) && own p r)
      | _ => Raise ProgrammingError
      end
    else Raise OperationalError.

(** ** [set_tags] on the database *)

(** The tag of a [set_tags] list has to be created first: [get_id] found
    nothing. *)
Definition auto_created (d : database) (tag : ref) : bool :=
  is_null (tag_id_of d tag).

(** The database once the tag of a [set_tags] list is sure to exist. *)
Definition ensure_tag (d : database) (tag : ref) : database :=
  if auto_created d tag
  then match tag with
       | RName s => with_tags d (tags d ++ [mk_tag (next_rowid (map tag_id (tags d))) s])
       | RId _ => d
       end
  else d.

(** The database after one iteration of the loop of [set_tags]. *)
Definition set_tags_step_db (name : value) (d : database) (tag : ref) : database :=
  let d1 := ensure_tag d tag in
  with_tag_files d1 (tag_files d1 ++ [mk_tag_file (tag_id_of d1 tag) name]).

(** The snapshots committed during the loop of [set_tags]. *)
Fixpoint set_tags_loop_commits (name : value) (d : database) (tags : list ref) : list database :=
  match tags with
  | [] => []
  | tag :: rest =>
      (if auto_created d tag then [ensure_tag d tag] else [])
        ++ set_tags_loop_commits name (set_tags_step_db name d tag) rest
  end.

(** The database from which the loop of [set_tags] starts: the file's
    associations are deleted. *)
Definition set_tags_cleared (name : value) (d : database) : database :=
  with_tag_files d (filter (fun tf => negb (sql_eq (tf_file_id tf) name)) (tag_files d)).

(** ** Sample stores *)

(** One file, one tag, the file carrying the tag. *)
Definition photo_db : database :=
  mk_db [mk_tag 1 "photo"]
        [mk_tag_file (VInt 1) (VInt 1)]
        [mk_file 1 "a.jpg" "/srv/a.jpg"]
        []
        [mk_selection "by_photo" "tags.name='photo'"].

Definition photo_conn : conn := mk_conn photo_db photo_db [].



(** Two files registered under the same name. *)
Definition twins_db : database :=
  mk_db [] [] [mk_file 1 "a" "/x/a"; mk_file 2 "a" "/y/a"] [] [].

Definition twins_conn : conn := mk_conn twins_db twins_db [].

(** The connection after further events that change no data. *)
Definition logged (t : list event) (c : conn) : conn :=
  mk_conn (work c) (committed c) (trace c ++ t).

(** The statements [_TagsCursor.get_id] executes. *)
Definition tag_lookup (r : ref) : list event :=
  match r with
  | RId _ => []
  | RName s =>
      if (s =? "__ALL__")%string then []
      else [Exec "SELECT id FROM tags WHERE name = ?" [VText s]]
  end.

(** The statements of one iteration of the loop of [set_tags] for a tag
    that resolves: the lookup of the tag, then the INSERT. *)
Definition resolved_step (d : database) (name : value) (tag : ref) : list event :=
  tag_lookup tag
    ++ [Exec "INSERT INTO tag_files(tag_id, file_id) VALUES(?, ?)" [tag_id_of d tag; name]].

(** The statements [_FilesCursor.get_id] executes. *)
Definition file_lookup (r : ref) : list event :=
  match r with
  | RId _ => []
  | RName s => [Exec "SELECT id FROM files WHERE name = ?" [VText s]]
  end.

(** ** Kinds of calls *)

(** The methods that only look things up. *)
Definition is_query (k : call) : bool :=
  match k with
  | Selections_all_names | Selections_resolve _ | Selections_exists _
  | Options_get _
  | Tags_get_id _ | Tags_get_name _ | Tags_all_names | Tags_all_ids | Tags_exists _
  | Files_get_id _ | Files_get_name _ | Files_all_names | Files_all_ids | Files_exists _
  | Files_get_by_tag _ | Files_has_tag _ _ | Files_resolve _ | Files_get_tags _ => true
  | _ => false
  end.

(** The exception a call can raise, if any. *)
Definition raises (k : call) : option exn :=
  match k with
  | Selections_new _ _ | Selections_rename _ _ | Tags_new _ | Tags_rename _ _ =>
      Some IntegrityError
  | Options_unset _ => Some OperationalError
  | _ => None
  end.

(** A method that returns, commits nothing and changes no data. *)
Definition reads_only {A : Type} (m : M A) : Prop :=
  forall c : conn, exists (a : A) (t : list event), m c = (Ok a, logged t c) /\ commits t = [].

(** A method that returns whenever its parameters can be bound. *)
Definition never_raises {A : Type} (m : M A) : Prop :=
  forall c : conn, exists (a : A) (c' : conn), m c = (Ok a, c').

(** Nothing is pending on the connection. *)
Definition settled (c : conn) : Prop := committed c = work c.

(** A method that leaves nothing pending when nothing was pending before. *)
Definition settles {A : Type} (m : M A) : Prop :=
  forall c : conn, settled c -> settled (snd (m c)).

(** The association rows that link the tag id [t] with the file id [f]. *)
Definition association_rows (d : database) (t f : value) : list tag_file_row :=
  filter (fun tf => sql_eq (tf_tag_id tf) t && sql_eq (tf_file_id tf) f) (tag_files d).

(** ** The option arguments of [mount] (tagfs/__main__.py)

    The loop at the head of [mount()] takes the [-o] arguments out of
    [sys.argv] and collects them in the keyword dictionary [kw].  A
    Python [str] is modelled as a [string] of code points below 256.  What
    follows the loop ([print], opening the database, starting the
    filesystem) is not part of the embedding. *)
Module Mount.

(** A value of [kw]: [True] or a [str]. *)
Inductive optval : Type :=
| OTrue
| OText (s : string).

(** The dictionary [kw], in insertion order. *)
Definition kwargs : Type := list (string * optval).

(** [kw[k] = v]: a key that is present keeps its place and gets the new
    value, a new key is added at the end. *)
Fixpoint kw_set (k : string) (v : optval) (kw : kwargs) : kwargs :=
  match kw with
  | [] => [(k, v)]
  | (k', v') :: r => if (k' =? k)%string then (k', v) :: r else (k', v') :: kw_set k v r
  end.

(** [kw.get(k)] *)
Fixpoint kw_get (k : string) (kw : kwargs) : option optval :=
  match kw with
  | [] => None
  | (k', v') :: r => if (k' =? k)%string then Some v' else kw_get k r
  end.

(** The characters [str.strip()] removes: the white space among the code
    points below 256 (9 to 13, 28 to 32, 133 and 160). *)
Definition is_space (c : ascii) : bool :=
  let n := nat_of_ascii c in
  ((9 <=? n) && (n <=? 13) || (28 <=? n) && (n <=? 32) || (n =? 133) || (n =? 160))%nat.

Fixpoint lstrip (s : string) : string :=
  match s with
  | EmptyString => EmptyString
  | String c r => if is_space c then lstrip r else s
  end.

Fixpoint rstrip (s : string) : string :=
  match s with
  | EmptyString => EmptyString
  | String c r =>
      match rstrip r with
      | EmptyString => if is_space c then EmptyString else String c EmptyString
      | r' => String c r'
      end
  end.

(** [s.strip()] *)
Definition strip (s : string) : string := rstrip (lstrip s).

(** [s.split(sep)] for a one-character separator: never an empty list. *)
Fixpoint split_on (sep : ascii) (s : string) : list string :=
  match s with
  | EmptyString => [EmptyString]
  | String c r =>
      if Ascii.eqb c sep then EmptyString :: split_on sep r
      else match split_on sep r with
           | [] => [String c EmptyString]
           | h :: t => String c h :: t
           end
  end.

(** [s.find(c)]: the index of the first [c], [None] for Python's [-1]. *)
Fixpoint find_char (c : ascii) (s : string) : option nat :=
  match s with
  | EmptyString => None
  | String a r =>
      if Ascii.eqb a c then Some O
      else match find_char c r with
           | Some n => Some (S n)
           | None => None
           end
  end.

(** [s[:n]] *)
Fixpoint take (n : nat) (s : string) : string :=
  match n, s with
  | S m, String c r => String c (take m r)
  | _, _ => EmptyString
  end.

(** [s[n:]] *)
Fixpoint drop (n : nat) (s : string) : string :=
  match n, s with
  | S m, String _ r => drop m r
  | _, _ => s
  end.

Definition comma : ascii := ascii_of_nat 44.
Definition equals : ascii := ascii_of_nat 61.

(** The body of [for i in options.split(','):]. *)
Definition apply_item (kw : kwargs) (item : string) : kwargs :=
  let i := strip item in
  match find_char equals i with
  | None => kw_set i OTrue kw
  | Some n => kw_set (take n i) (OText (drop (n + 1) i)) kw
  end.

Definition apply_options (options : string) (kw : kwargs) : kwargs :=
  fold_left apply_item (split_on comma options) kw.

(** [v == '-o' or v.startswith('-o')] *)
Definition is_option_arg (v : string) : bool :=
  (v =? "-o")%string || prefix "-o" v.

(** The [for i, v in enumerate(sys.argv)] loop: the index at which it
    breaks, [None] when it runs into its [else]. *)
Fixpoint first_option_index (argv : list string) : option nat :=
  match argv with
  | [] => None
  | v :: r =>
      if is_option_arg v then Some O
      else match first_option_index r with
           | Some i => Some (S i)
           | None => None
           end
  end.

(** [del l[i]] for an index in range. *)
Fixpoint remove_at (i : nat) (l : list string) : list string :=
  match i, l with
  | _, [] => []
  | O, _ :: r => r
  | S j, a :: r => a :: remove_at j r
  end.

Inductive parsed : Type :=
| Parsed (argv : list string) (kw : kwargs)
| PyIndexError
| OutOfFuel.

(** The [while True:] loop, at most [fuel] rounds. *)
Fixpoint parse_options (fuel : nat) (argv : list string) (kw : kwargs) : parsed :=
  match fuel with
  | O => OutOfFuel
  | S fuel' =>
      match first_option_index argv with
      | None => Parsed argv kw
      | Some i =>
          if (nth i argv EmptyString =? "-o")%string
          then match nth_error argv (i + 1) with
               | None => PyIndexError
               | Some options =>
                   parse_options fuel' (remove_at i (remove_at i argv)) (apply_options options kw)
               end
          else parse_options fuel' (remove_at i argv)
                             (apply_options (drop 2 (nth i argv EmptyString)) kw)
      end
  end.

End Mount.

(** A key as one writes it in an option string: no comma, no equals sign,
    no white space in front. *)
Definition clean_key (k : string) : Prop :=
  Mount.find_char Mount.comma k = None
  /\ Mount.find_char Mount.equals k = None
  /\ Mount.lstrip k = k.

(** A value as one writes it in an option string: no comma, no white
    space at the end. *)
Definition clean_value (v : string) : Prop :=
  Mount.find_char Mount.comma v = None /\ Mount.rstrip v = v.

(** * Properties *)

(** ** The monad and the primitives *)

Lemma bind_ok {A B : Type} (m : M A) (k : A -> M B) (c c' : conn) (a : A) :
  m c = (Ok a, c') -> bind m k c = k a c'.
Proof. intros H. unfold bind. rewrite H. reflexivity. Qed.

Lemma bind_raise {A B : Type} (m : M A) (k : A -> M B) (c c' : conn) (e : exn) :
  m c = (Raise e, c') -> bind m k c = (Raise e, c').
Proof. intros H. unfold bind. rewrite H. reflexivity. Qed.

Lemma execute_rows (sql : string) (st : stmt) (ps rs : list value) (d : database) (c : conn) :
  prepare sql = Some st ->
  run st ps (work c) = Rows rs d ->
  execute sql ps c = (Ok rs, mk_conn d (committed c) (trace c ++ [Exec sql ps])).
Proof. intros Hp Hr. unfold execute. rewrite Hp, Hr. reflexivity. Qed.

Lemma execute_fail (sql : string) (st : stmt) (ps : list value) (e : exn) (c : conn) :
  prepare sql = Some st ->
  run st ps (work c) = Fail e ->
  execute sql ps c = (Raise e, logged [Exec sql ps] c).
Proof. intros Hp Hr. unfold execute. rewrite Hp, Hr. reflexivity. Qed.

Lemma execute_syntax_error (sql : string) (ps : list value) (c : conn) :
  prepare sql = None ->
  execute sql ps c = (Raise OperationalError, logged [Exec sql ps] c).
Proof. intros Hp. unfold execute. rewrite Hp. reflexivity. Qed.

Lemma logged_nil (c : conn) : logged [] c = c.
Proof. destruct c. unfold logged. simpl. rewrite app_nil_r. reflexivity. Qed.

Lemma logged_logged (t u : list event) (c : conn) :
  logged u (logged t c) = logged (t ++ u) c.
Proof. unfold logged. simpl. rewrite app_assoc. reflexivity. Qed.

Lemma commits_app (t u : list event) : commits (t ++ u) = commits t ++ commits u.
Proof.
  induction t as [|e t IH]; simpl; [reflexivity|].
  destruct e; simpl; rewrite IH; reflexivity.
Qed.

(** Runs one [execute] of a goal: the statement text is compiled and the
    statement run on the working database. *)
Ltac exec_rows :=
  erewrite execute_rows; [ | reflexivity | reflexivity ].

Ltac step :=
  first
    [ erewrite bind_ok; [ | exec_rows; reflexivity ]
    | erewrite bind_ok; [ | reflexivity ] ].

(** ** The sentinel tag *)

(** C7.  In every store [get_by_tag("__ALL__")] is [all_names()]: it runs
    the single statement [SELECT name FROM files;], no join, and returns
    the name of every registered file; [has_tag(f, t)] runs no statement
    and returns [True] for every file reference [f] when [t] is
    ["__ALL__"] or [-1]. *)
Theorem sentinel_matches_every_file (c : conn) :
  Files.get_by_tag (RName "__ALL__") c
  = (Ok (map (fun f => VText (file_name f)) (files (work c))),
     logged [Exec "SELECT name FROM files;" []] c)
  /\ (forall f : ref, Files.has_tag f (RName "__ALL__") c = (Ok true, c))
  /\ (forall f : ref, Files.has_tag f (RId (-1)) c = (Ok true, c)).
Proof.
  split; [ | split; intros f; reflexivity ].
  unfold Files.get_by_tag, Files.all_names.
  change (ref_eq_str (RName "__ALL__") "__ALL__") with true. cbv iota.
  step. reflexivity.
Qed.

(** C1, as the code has it.  Given by its name ["__ALL__"], the sentinel is
    immutable: [Tags.new], [Tags.remove], [Tags.rename] (either endpoint),
    [Files.add_tag] and [Files.remove_tag] execute nothing, leave the
    connection as it was and return [False]. *)
Theorem sentinel_name_immutable (c : conn) :
  Tags.new "__ALL__" c = (Ok false, c)
  /\ Tags.remove (RName "__ALL__") c = (Ok false, c)
  /\ (forall dst : string, Tags.rename (RName "__ALL__") dst c = (Ok false, c))
  /\ (forall src : ref, Tags.rename src "__ALL__" c = (Ok false, c))
  /\ (forall f : ref, Files.add_tag f (RName "__ALL__") c = (Ok false, c))
  /\ (forall f : ref, Files.remove_tag f (RName "__ALL__") c = (Ok false, c)).
Proof.
  repeat split; try reflexivity.
  intros src. unfold Tags.rename.
  replace (ref_eq_str src "__ALL__" || ("__ALL__" =? "__ALL__")%string) with true
    by (symmetry; apply orb_true_r).
  reflexivity.
Qed.

(** C1 as stated fails for the id [-1]: on the store [photo_conn],
    [add_tag(1, -1)] returns [True] and inserts the association [(-1, 1)],
    and [Tags.remove(-1)], [Tags.rename(-1, "x")] and [remove_tag(1, -1)]
    return [True]. *)
Lemma sentinel_id_not_immutable :
  sentinel_ref (RId (-1))
  /\ fst (Files.add_tag (RId 1) (RId (-1)) photo_conn) = Ok true
  /\ tag_files (work (snd (Files.add_tag (RId 1) (RId (-1)) photo_conn)))
     = [mk_tag_file (VInt 1) (VInt 1); mk_tag_file (VInt (-1)) (VInt 1)]
  /\ tag_files (work photo_conn) = [mk_tag_file (VInt 1) (VInt 1)]
  /\ fst (Tags.remove (RId (-1)) photo_conn) = Ok true
  /\ fst (Tags.rename (RId (-1)) "x" photo_conn) = Ok true
  /\ fst (Files.remove_tag (RId 1) (RId (-1)) photo_conn) = Ok true.
Proof.
  split; [right; reflexivity|].
  repeat split; vm_compute; reflexivity.
Qed.

(** ** Options *)

(** C3 (the code at the failing input).  [unset] issues the text
    [REMOVE FROM options WHERE name = ?], which is no SQL statement: the
    call raises [OperationalError] before anything is deleted or committed,
    in every store and for every name. *)
Theorem options_unset_raises (name : string) (c : conn) :
  Options.unset name c
  = (Raise OperationalError,
     logged [Exec "REMOVE FROM options WHERE name = ?" [VText name]] c).
Proof.
  unfold Options.unset.
  erewrite bind_raise; [reflexivity|].
  apply execute_syntax_error. reflexivity.
Qed.

(** After [set("k", "v")] the call [unset("k")] raises and [get("k")] still
    returns ["v"]. *)
Lemma options_unset_keeps_option :
  let c1 := snd (Options.set "k" (VText "v") fresh_conn) in
  fst (Options.unset "k" c1) = Raise OperationalError
  /\ fst (Options.get "k" (snd (Options.unset "k" c1))) = Ok (VText "v").
Proof. split; vm_compute; reflexivity. Qed.

(** ** Lists and names *)

Lemma filter_none {A : Type} (f : A -> bool) (l : list A) :
  (forall x, In x l -> f x = false) -> filter f l = [].
Proof.
  induction l as [|a l IH]; intros H; simpl; [reflexivity|].
  rewrite (H a (or_introl eq_refl)). apply IH. intros x Hx. apply H. right. exact Hx.
Qed.

Lemma existsb_none {A : Type} (f : A -> bool) (l : list A) :
  (forall x, In x l -> f x = false) -> existsb f l = false.
Proof.
  induction l as [|a l IH]; intros H; simpl; [reflexivity|].
  rewrite (H a (or_introl eq_refl)). apply IH. intros x Hx. apply H. right. exact Hx.
Qed.

Lemma existsb_some {A : Type} (f : A -> bool) (l : list A) (x : A) :
  In x l -> f x = true -> existsb f l = true.
Proof. intros Hx Hf. apply existsb_exists. exists x. split; assumption. Qed.

Lemma absent_name {A : Type} (name : A -> string) (n : string) (l : list A) :
  ~ In n (map name l) -> forall x, In x l -> (name x =? n)%string = false.
Proof.
  intros H x Hx. apply String.eqb_neq. intros E. apply H. rewrite <- E.
  apply in_map. exact Hx.
Qed.

(** ** Selections *)

(** C9.  When no selection is named [sel], [new(sel, v)] succeeds and
    [resolve(sel)] then returns the text [v] itself. *)
Theorem selection_round_trip (sel v : string) (c : conn) :
  ~ In sel (map sel_name (selections (work c))) ->
  exists c1 c2 : conn,
    Selections.new sel v c = (Ok true, c1)
    /\ selections (work c1) = selections (work c) ++ [mk_selection sel v]
    /\ Selections.resolve sel c1 = (Ok (VText v), c2)
    /\ work c2 = work c1.
Proof.
  intros Habs.
  assert (Hno : forall s, In s (selections (work c)) -> sel_has_name (VText sel) s = false)
    by (intros s Hs; apply (absent_name sel_name sel _ Habs s Hs)).
  eexists. eexists. split; [ | split; [ | split ] ].
  - unfold Selections.new.
    erewrite bind_ok.
    2:{ eapply execute_rows; [reflexivity|].
        simpl. rewrite (existsb_none _ _ Hno). reflexivity. }
    step. reflexivity.
  - reflexivity.
  - unfold Selections.resolve.
    erewrite bind_ok.
    2:{ eapply execute_rows; [reflexivity|]. simpl. reflexivity. }
    simpl. rewrite filter_app, (filter_none _ _ Hno). simpl.
    unfold sel_has_name. simpl. rewrite String.eqb_refl. reflexivity.
  - reflexivity.
Qed.

Lemma selection_round_trip_witness :
  exists c1 c2 : conn,
    Selections.new "photos" "tags.name='x'" photo_conn = (Ok true, c1)
    /\ selections (work c1) = selections (work photo_conn) ++ [mk_selection "photos" "tags.name='x'"]
    /\ Selections.resolve "photos" c1 = (Ok (VText "tags.name='x'"), c2)
    /\ work c2 = work c1.
Proof.
  apply (selection_round_trip "photos" "tags.name='x'" photo_conn).
  simpl. intros [H|H]; [discriminate H | exact H].
Defined.

(** ** Resolving references *)

Lemma Tags_get_id_spec (r : ref) (c : conn) :
  Tags.get_id r c = (Ok (tag_id_of (work c) r), logged (tag_lookup r) c).
Proof.
  destruct r as [i|s]; simpl.
  - unfold ret. rewrite logged_nil. reflexivity.
  - destruct (s =? "__ALL__")%string.
    + unfold ret. rewrite logged_nil. reflexivity.
    + step. reflexivity.
Qed.

Lemma Files_get_id_spec (r : ref) (c : conn) :
  Files.get_id r c = (Ok (file_id_of (work c) r), logged (file_lookup r) c).
Proof.
  destruct r as [i|s]; simpl.
  - unfold ret. rewrite logged_nil. reflexivity.
  - step. reflexivity.
Qed.

Lemma tag_id_of_absent (d : database) (t : string) :
  t <> "__ALL__" -> ~ In t (map tag_name (tags d)) -> tag_id_of d (RName t) = VNull.
Proof.
  intros Hs Habs. unfold tag_id_of.
  apply String.eqb_neq in Hs. rewrite Hs.
  rewrite filter_none; [reflexivity|].
  intros x Hx. apply (absent_name tag_name t _ Habs x Hx).
Qed.

Lemma file_id_of_absent (d : database) (f : string) :
  ~ In f (map file_name (files d)) -> file_id_of d (RName f) = VNull.
Proof.
  intros Habs. unfold file_id_of.
  rewrite filter_none; [reflexivity|].
  intros x Hx. apply (absent_name file_name f _ Habs x Hx).
Qed.

Lemma photo_db_wf : wf_db photo_db.
Proof.
  constructor; simpl;
    repeat (first [ apply NoDup_nil | apply NoDup_cons | apply Forall_nil | apply Forall_cons ]);
    simpl; try lia; try tauto.
  intros [H|H]; [discriminate H | exact H].
Qed.

(** ** Name uniqueness *)

(** C8.  In a well-formed store, [Tags.new] with a name that a tag already
    bears, and [Selections.new] with a name that a selection already bears,
    raise [IntegrityError] (the UNIQUE constraint of the schema); the call
    does not return [False], inserts no row and commits nothing. *)
Theorem duplicate_name_rejected (c : conn) :
  wf_db (work c) ->
  (forall name : string,
      In name (map tag_name (tags (work c))) ->
      Tags.new name c
      = (Raise IntegrityError, logged [Exec "INSERT INTO tags(name) VALUES (?)" [VText name]] c))
  /\ (forall name v : string,
         In name (map sel_name (selections (work c))) ->
         Selections.new name v c
         = (Raise IntegrityError,
            logged [Exec "INSERT INTO selections(name, value) VALUES(?, ?)" [VText name; VText v]] c)).
Proof.
  intros Hwf. split.
  - intros name Hin. unfold Tags.new.
    destruct (name =? "__ALL__")%string eqn:E.
    + apply String.eqb_eq in E. subst name. destruct (wf_no_sentinel _ Hwf Hin).
    + apply in_map_iff in Hin. destruct Hin as [t [Ht Hin]].
      erewrite bind_raise; [reflexivity|].
      eapply execute_fail; [reflexivity|].
      simpl. rewrite (existsb_some _ _ t Hin); [reflexivity|].
      unfold tag_has_name. simpl. rewrite Ht. apply String.eqb_refl.
  - intros name v Hin. unfold Selections.new.
    apply in_map_iff in Hin. destruct Hin as [t [Ht Hin]].
    erewrite bind_raise; [reflexivity|].
    eapply execute_fail; [reflexivity|].
    simpl. rewrite (existsb_some _ _ t Hin); [reflexivity|].
    unfold sel_has_name. simpl. rewrite Ht. apply String.eqb_refl.
Qed.

Lemma duplicate_name_rejected_witness :
  Tags.new "photo" photo_conn
  = (Raise IntegrityError, logged [Exec "INSERT INTO tags(name) VALUES (?)" [VText "photo"]] photo_conn)
  /\ Selections.new "by_photo" "tags.name='x'" photo_conn
     = (Raise IntegrityError,
        logged [Exec "INSERT INTO selections(name, value) VALUES(?, ?)"
                     [VText "by_photo"; VText "tags.name='x'"]] photo_conn).
Proof.
  destruct (duplicate_name_rejected photo_conn photo_db_wf) as [Ht Hs].
  split.
  - apply Ht. simpl. left. reflexivity.
  - apply Hs. simpl. left. reflexivity.
Defined.

(** ** Associations *)

Lemma add_tag_spec (f t : ref) (c : conn) :
  ref_eq_str t "__ALL__" = false ->
  Files.add_tag f t c
  = (Ok true,
     let row := mk_tag_file (tag_id_of (work c) t) (file_id_of (work c) f) in
     let d := with_tag_files (work c) (tag_files (work c) ++ [row]) in
     mk_conn d d
             (trace c ++ tag_lookup t ++ file_lookup f
                ++ [Exec "INSERT INTO tag_files(tag_id, file_id) VALUES(?, ?)"
                         [tf_tag_id row; tf_file_id row];
                    Commit d])).
Proof.
  intros Ht. unfold Files.add_tag. rewrite Ht.
  erewrite bind_ok; [ | apply Tags_get_id_spec ].
  erewrite bind_ok; [ | apply Files_get_id_spec ].
  step. step. unfold ret, logged. simpl.
  repeat rewrite <- app_assoc. reflexivity.
Qed.

(** C10.  For textual references [f] and [t] that name no file and no tag
    ([t] not being ["__ALL__"]), [add_tag(f, t)] returns [True] and appends
    and commits the association row [(NULL, NULL)]; no exception is
    raised, and nothing else in the store changes, so every further such
    call adds one more such row. *)
Theorem add_tag_unresolved_names (f t : string) (c : conn) :
  t <> "__ALL__" ->
  ~ In t (map tag_name (tags (work c))) ->
  ~ In f (map file_name (files (work c))) ->
  exists c' : conn,
    Files.add_tag (RName f) (RName t) c = (Ok true, c')
    /\ work c' = with_tag_files (work c) (tag_files (work c) ++ [mk_tag_file VNull VNull])
    /\ committed c' = work c'.
Proof.
  intros Hs Ht Hf. eexists. split; [ | split ].
  - apply add_tag_spec. simpl. apply String.eqb_neq. exact Hs.
  - cbv zeta. cbn [work].
    rewrite (tag_id_of_absent _ t Hs Ht), (file_id_of_absent _ f Hf). reflexivity.
  - reflexivity.
Qed.

Lemma add_tag_unresolved_names_witness :
  exists c' : conn,
    Files.add_tag (RName "b.jpg") (RName "holiday") photo_conn = (Ok true, c')
    /\ work c' = with_tag_files (work photo_conn)
                                (tag_files (work photo_conn) ++ [mk_tag_file VNull VNull])
    /\ committed c' = work c'.
Proof.
  apply (add_tag_unresolved_names "b.jpg" "holiday" photo_conn).
  - discriminate.
  - simpl. intros [H|H]; [discriminate H | exact H].
  - simpl. intros [H|H]; [discriminate H | exact H].
Defined.

(** ** Cascading removal *)

Lemma Tags_remove_spec (r : ref) (c : conn) :
  ref_eq_str r "__ALL__" = false ->
  Tags.remove r c
  = (Ok true,
     let i := tag_id_of (work c) r in
     let d := with_tags
                (with_tag_files (work c)
                   (filter (fun tf => negb (sql_eq (tf_tag_id tf) i)) (tag_files (work c))))
                (filter (fun t => negb (tag_has_id i t)) (tags (work c))) in
     mk_conn d d
             (trace c ++ tag_lookup r
                ++ [Exec "DELETE FROM tag_files WHERE tag_id = ?" [i];
                    Exec "DELETE FROM tags WHERE id = ?" [i];
                    Commit d])).
Proof.
  intros Hr. unfold Tags.remove. rewrite Hr.
  erewrite bind_ok; [ | apply Tags_get_id_spec ].
  step. step. step. unfold ret, logged. simpl.
  repeat rewrite <- app_assoc. reflexivity.
Qed.

Lemma Files_remove_spec (r : ref) (c : conn) :
  Files.remove r c
  = (Ok true,
     let i := file_id_of (work c) r in
     let d := with_files
                (with_tag_files (work c)
                   (filter (fun tf => negb (sql_eq (tf_file_id tf) i)) (tag_files (work c))))
                (filter (fun f => negb (file_has_id i f)) (files (work c))) in
     mk_conn d d
             (trace c ++ file_lookup r
                ++ [Exec "DELETE FROM tag_files WHERE file_id = ?" [i];
                    Exec "DELETE FROM files WHERE id = ?" [i];
                    Commit d])).
Proof.
  unfold Files.remove.
  erewrite bind_ok; [ | apply Files_get_id_spec ].
  step. step. step. unfold ret, logged. simpl.
  repeat rewrite <- app_assoc. reflexivity.
Qed.

Lemma sql_eq_int_refl (i : Z) : sql_eq (VInt i) (VInt i) = true.
Proof. simpl. apply Z.eqb_refl. Qed.

Lemma filter_drops {A : Type} (f : A -> bool) (l : list A) (x : A) :
  In x (filter (fun y => negb (f y)) l) -> f x = false.
Proof.
  intros H. apply filter_In in H. destruct H as [_ H].
  apply negb_true_iff in H. exact H.
Qed.

(** C6.  A [Tags.remove] (a [Files.remove]) that returns [True] and whose
    argument resolves to the id [i] first deletes the association rows
    whose [tag_id] ([file_id]) is [i], then the tag (file) row with id [i],
    then commits once: in the resulting store, working and committed, no
    association row references [i] and no tag (file) has the id [i]. *)
Theorem remove_cascades (r : ref) (i : Z) (c : conn) :
  (fst (Tags.get_id r c) = Ok (VInt i) ->
   fst (Tags.remove r c) = Ok true ->
   let c' := snd (Tags.remove r c) in
   (forall tf, In tf (tag_files (work c')) -> tf_tag_id tf <> VInt i)
   /\ ~ In i (map tag_id (tags (work c')))
   /\ committed c' = work c'
   /\ trace c' = trace c ++ tag_lookup r
                  ++ [Exec "DELETE FROM tag_files WHERE tag_id = ?" [VInt i];
                      Exec "DELETE FROM tags WHERE id = ?" [VInt i];
                      Commit (work c')])
  /\ (fst (Files.get_id r c) = Ok (VInt i) ->
      fst (Files.remove r c) = Ok true ->
      let c' := snd (Files.remove r c) in
      (forall tf, In tf (tag_files (work c')) -> tf_file_id tf <> VInt i)
      /\ ~ In i (map file_id (files (work c')))
      /\ committed c' = work c'
      /\ trace c' = trace c ++ file_lookup r
                     ++ [Exec "DELETE FROM tag_files WHERE file_id = ?" [VInt i];
                         Exec "DELETE FROM files WHERE id = ?" [VInt i];
                         Commit (work c')]).
Proof.
  split.
  - intros Hid Hok.
    destruct (ref_eq_str r "__ALL__") eqn:Hr.
    + unfold Tags.remove in Hok. rewrite Hr in Hok. discriminate Hok.
    + rewrite Tags_get_id_spec in Hid. simpl in Hid. injection Hid as Hid.
      rewrite (Tags_remove_spec r c Hr). cbv zeta. rewrite Hid. cbn [snd work committed trace tag_files tags with_tags with_tag_files].
      split; [ | split; [ | split; reflexivity ] ].
      * intros tf Htf E. apply filter_drops in Htf.
        rewrite E, sql_eq_int_refl in Htf. discriminate Htf.
      * intros Hin. apply in_map_iff in Hin. destruct Hin as [t [E Ht]].
        apply filter_drops in Ht. unfold tag_has_id in Ht.
        rewrite E, sql_eq_int_refl in Ht. discriminate Ht.
  - intros Hid Hok.
    rewrite Files_get_id_spec in Hid. simpl in Hid. injection Hid as Hid.
    rewrite (Files_remove_spec r c). cbv zeta. rewrite Hid. cbn [snd work committed trace tag_files files with_files with_tag_files].
    split; [ | split; [ | split; reflexivity ] ].
    + intros tf Htf E. apply filter_drops in Htf.
      rewrite E, sql_eq_int_refl in Htf. discriminate Htf.
    + intros Hin. apply in_map_iff in Hin. destruct Hin as [t [E Ht]].
      apply filter_drops in Ht. unfold file_has_id in Ht.
      rewrite E, sql_eq_int_refl in Ht. discriminate Ht.
Qed.

Lemma remove_cascades_witness :
  (let c' := snd (Tags.remove (RName "photo") photo_conn) in
   (forall tf, In tf (tag_files (work c')) -> tf_tag_id tf <> VInt 1)
   /\ ~ In 1 (map tag_id (tags (work c')))
   /\ committed c' = work c'
   /\ trace c' = trace photo_conn ++ tag_lookup (RName "photo")
                  ++ [Exec "DELETE FROM tag_files WHERE tag_id = ?" [VInt 1];
                      Exec "DELETE FROM tags WHERE id = ?" [VInt 1];
                      Commit (work c')])
  /\ (let c' := snd (Files.remove (RId 1) photo_conn) in
      (forall tf, In tf (tag_files (work c')) -> tf_file_id tf <> VInt 1)
      /\ ~ In 1 (map file_id (files (work c')))
      /\ committed c' = work c'
      /\ trace c' = trace photo_conn ++ file_lookup (RId 1)
                     ++ [Exec "DELETE FROM tag_files WHERE file_id = ?" [VInt 1];
                         Exec "DELETE FROM files WHERE id = ?" [VInt 1];
                         Commit (work c')]).
Proof.
  split.
  - apply (proj1 (remove_cascades (RName "photo") 1 photo_conn)); reflexivity.
  - apply (proj2 (remove_cascades (RId 1) 1 photo_conn)); reflexivity.
Defined.

(** ** [set_tags]: the loop *)

Lemma fetchone_first_null_filter {A : Type} (p : A -> bool) (g : A -> Z) (l : list A) :
  fetchone_first (map (fun x => VInt (g x)) (filter p l)) = VNull -> filter p l = [].
Proof. destruct (filter p l); simpl; [reflexivity | discriminate]. Qed.

Lemma filter_nil_existsb {A : Type} (p : A -> bool) (l : list A) :
  filter p l = [] -> existsb p l = false.
Proof.
  induction l as [|a l IH]; simpl; [reflexivity|].
  destruct (p a); [discriminate | exact IH].
Qed.

Lemma is_null_true (v : value) : is_null v = true -> v = VNull.
Proof. destruct v; simpl; intros H; [reflexivity | discriminate H | discriminate H]. Qed.

(** One iteration of the loop, its parameters being bound: it commits
    exactly when it has to create the tag. *)
Lemma set_tags_step_spec (name : value) (tag : ref) (c : conn) :
  exists t : list event,
    Files.set_tags_step name tag c
    = (Ok tt,
       mk_conn (set_tags_step_db name (work c) tag)
               (if auto_created (work c) tag then ensure_tag (work c) tag else committed c)
               (trace c ++ t))
    /\ commits t = (if auto_created (work c) tag then [ensure_tag (work c) tag] else []).
Proof.
  unfold Files.set_tags_step, set_tags_step_db, ensure_tag, auto_created.
  erewrite bind_ok; [ | apply Tags_get_id_spec ].
  destruct (is_null (tag_id_of (work c) tag)) eqn:Hnull.
  - destruct tag as [i|s]; [discriminate Hnull|].
    apply is_null_true in Hnull. unfold tag_id_of in Hnull.
    unfold Tags.new.
    destruct (s =? "__ALL__")%string eqn:Hs; [discriminate Hnull|].
    apply fetchone_first_null_filter in Hnull. apply filter_nil_existsb in Hnull.
    eexists. split.
    + erewrite bind_ok.
      2:{ erewrite bind_ok.
          2:{ erewrite bind_ok.
              2:{ eapply execute_rows; [reflexivity|].
                  cbn [work logged run]. rewrite Hnull. reflexivity. }
              step. reflexivity. }
          apply Tags_get_id_spec. }
      step. unfold ret, logged. cbn [work committed trace].
      repeat rewrite <- app_assoc. reflexivity.
    + rewrite !commits_app. simpl. rewrite Hs. reflexivity.
  - eexists. split.
    + erewrite bind_ok; [ | reflexivity ].
      step. unfold ret, logged. cbn [work committed trace].
      repeat rewrite <- app_assoc. reflexivity.
    + rewrite !commits_app. destruct tag as [i|s]; simpl; [reflexivity|].
      destruct (s =? "__ALL__")%string; reflexivity.
Qed.

Lemma last_cons_default {A : Type} (l : list A) (x d : A) : last (x :: l) d = last l x.
Proof.
  revert x d. induction l as [|y l IH]; intros x d; [reflexivity|].
  change (last (x :: y :: l) d) with (last (y :: l) d).
  rewrite (IH y d), (IH y x). reflexivity.
Qed.

Lemma set_tags_loop_spec (name : value) (tags : list ref) (c : conn) :
  exists t : list event,
    Files.set_tags_loop name tags c
    = (Ok tt,
       mk_conn (fold_left (set_tags_step_db name) tags (work c))
               (last (set_tags_loop_commits name (work c) tags) (committed c))
               (trace c ++ t))
    /\ commits t = set_tags_loop_commits name (work c) tags.
Proof.
  revert c. induction tags as [|tag rest IH]; intros c.
  - exists []. simpl. unfold ret. rewrite app_nil_r. destruct c; split; reflexivity.
  - destruct (set_tags_step_spec name tag c) as [t1 [H1 Hc1]].
    simpl Files.set_tags_loop. erewrite bind_ok; [ | exact H1 ].
    match goal with |- context [Files.set_tags_loop name rest ?c1] =>
      destruct (IH c1) as [t2 [H2 Hc2]] end.
    cbn [work committed trace] in H2, Hc2.
    exists (t1 ++ t2). split.
    + rewrite H2. rewrite <- app_assoc. cbn [fold_left set_tags_loop_commits].
      f_equal. f_equal.
      destruct (auto_created (work c) tag).
      * simpl app. rewrite last_cons_default. reflexivity.
      * reflexivity.
    + rewrite commits_app, Hc1, Hc2. reflexivity.
Qed.

(** [set_tags], its parameters being bound: it returns [True], its last
    act is a commit of the final database, and before that it commits once
    for each tag it creates. *)
Lemma set_tags_spec (f : ref) (ts : list ref) (c : conn) :
  let name := file_id_of (work c) f in
  let d := fold_left (set_tags_step_db name) ts (set_tags_cleared name (work c)) in
  exists t : list event,
    Files.set_tags f ts c = (Ok true, mk_conn d d (trace c ++ t ++ [Commit d]))
    /\ commits t = set_tags_loop_commits name (set_tags_cleared name (work c)) ts.
Proof.
  cbv zeta. unfold Files.set_tags.
  erewrite bind_ok; [ | apply Files_get_id_spec ].
  step.
  match goal with |- context [bind (Files.set_tags_loop ?n ts) _ ?c1] =>
    destruct (set_tags_loop_spec n ts c1) as [t [H Hc]] end.
  unfold logged in H, Hc. cbn [work committed trace] in H, Hc.
  exists (file_lookup f ++ [Exec "DELETE FROM tag_files WHERE file_id = ?" [file_id_of (work c) f]] ++ t).
  split.
  - unfold logged. cbn [work committed trace].
    erewrite bind_ok; [ | exact H ].
    step. unfold ret, set_tags_cleared. cbn [work committed trace].
    rewrite <- !app_assoc. reflexivity.
  - rewrite !commits_app. rewrite Hc.
    destruct f as [i|s]; reflexivity.
Qed.

(** ** [set_tags]: commits *)

Lemma tag_id_of_tags (d d' : database) (r : ref) :
  tags d = tags d' -> tag_id_of d r = tag_id_of d' r.
Proof. intros H. unfold tag_id_of. rewrite H. reflexivity. Qed.

Lemma auto_created_tags (d d' : database) (r : ref) :
  tags d = tags d' -> auto_created d r = auto_created d' r.
Proof. intros H. unfold auto_created. rewrite (tag_id_of_tags d d' r H). reflexivity. Qed.

Lemma set_tags_step_db_resolved (name : value) (d : database) (tag : ref) :
  auto_created d tag = false ->
  set_tags_step_db name d tag
  = with_tag_files d (tag_files d ++ [mk_tag_file (tag_id_of d tag) name]).
Proof. intros H. unfold set_tags_step_db, ensure_tag. rewrite H. reflexivity. Qed.

Lemma set_tags_loop_commits_resolved (name : value) (ts : list ref) (d : database) :
  (forall t, In t ts -> auto_created d t = false) ->
  set_tags_loop_commits name d ts = [].
Proof.
  revert d. induction ts as [|tag rest IH]; intros d H; [reflexivity|].
  simpl. rewrite (H tag (or_introl eq_refl)). simpl.
  apply IH. intros t Ht.
  rewrite (set_tags_step_db_resolved name d tag (H tag (or_introl eq_refl))).
  rewrite <- (H t (or_intror Ht)). apply auto_created_tags. reflexivity.
Qed.

(** The loop commits once per tag it adds to the [tags] table. *)
Lemma set_tags_loop_commits_count (name : value) (ts : list ref) (d : database) :
  (List.length (tags (fold_left (set_tags_step_db name) ts d))
   = List.length (tags d) + List.length (set_tags_loop_commits name d ts))%nat.
Proof.
  revert d. induction ts as [|tag rest IH]; intros d; simpl; [lia|].
  rewrite IH, length_app. unfold set_tags_step_db, ensure_tag.
  destruct (auto_created d tag) eqn:E; simpl; [ | lia ].
  destruct tag as [i|s]; [discriminate E|].
  simpl. rewrite length_app. simpl. lia.
Qed.

(** C2.  [set_tags] does not commit once, after the whole sequence, when a
    listed tag has to be created: [Tags.new], which it calls for the
    missing name, commits on the same connection.  On [photo_conn], where
    the file ["a.jpg"] (id 1) carries the tag ["photo"] (id 1),
    [set_tags("a.jpg", ["x"])] returns [True] after two commits.  The first
    is the one of [Tags.new("x")]: it commits the database in which the
    old association [(1, 1)] is deleted and the new one, [(2, 1)], is not
    yet inserted. *)
Lemma set_tags_commits_midway :
  let c' := snd (Files.set_tags (RName "a.jpg") [RName "x"] photo_conn) in
  fst (Files.set_tags (RName "a.jpg") [RName "x"] photo_conn) = Ok true
  /\ tag_files (work photo_conn) = [mk_tag_file (VInt 1) (VInt 1)]
  /\ tag_files (work c') = [mk_tag_file (VInt 2) (VInt 1)]
  /\ exists mid : database,
      commits (trace c') = [mid; work c']
      /\ tag_files mid = []
      /\ tags mid = [mk_tag 1 "photo"; mk_tag 2 "x"].
Proof.
  cbv zeta. split; [vm_compute; reflexivity|].
  split; [reflexivity|]. split; [vm_compute; reflexivity|].
  eexists. split; [vm_compute; reflexivity|]. split; reflexivity.
Qed.

(** ** The store stays well formed *)

Lemma NoDup_map_filter {A B : Type} (g : A -> B) (p : A -> bool) (l : list A) :
  NoDup (map g l) -> NoDup (map g (filter p l)).
Proof.
  induction l as [|a l IH]; simpl; intros H; [exact H|].
  inversion H as [|x xs Hnotin Hnd]; subst.
  destruct (p a); [ | apply IH; exact Hnd ].
  simpl. constructor; [ | apply IH; exact Hnd ].
  intros Hin. apply Hnotin. apply in_map_iff in Hin. destruct Hin as [y [E Hy]].
  apply in_map_iff. exists y. split; [exact E|].
  apply filter_In in Hy. apply Hy.
Qed.

Lemma NoDup_map_snoc {A B : Type} (g : A -> B) (l : list A) (x : A) :
  NoDup (map g l) -> ~ In (g x) (map g l) -> NoDup (map g (l ++ [x])).
Proof.
  induction l as [|a l IH]; simpl; intros H Hx.
  - constructor; [intros F; exact F | constructor].
  - inversion H as [|y ys Hnotin Hnd]; subst. constructor.
    + rewrite map_app. intros Hin. apply in_app_or in Hin. destruct Hin as [Hin|Hin].
      * exact (Hnotin Hin).
      * simpl in Hin. destruct Hin as [E|F]; [ | exact F ].
        apply Hx. left. symmetry. exact E.
    + apply IH; [exact Hnd|]. intros Hin. apply Hx. right. exact Hin.
Qed.

Lemma NoDup_map_inj_in {A B : Type} (g : A -> B) (l : list A) (x y : A) :
  NoDup (map g l) -> In x l -> In y l -> g x = g y -> x = y.
Proof.
  induction l as [|a l IH]; simpl; intros H Hx Hy E; [destruct Hx|].
  inversion H as [|z zs Hnotin Hnd]; subst.
  destruct Hx as [Hx|Hx], Hy as [Hy|Hy].
  - subst. reflexivity.
  - subst. exfalso. apply Hnotin. rewrite E. apply in_map. exact Hy.
  - subst. exfalso. apply Hnotin. rewrite <- E. apply in_map. exact Hx.
  - apply IH; assumption.
Qed.

Lemma NoDup_map_of_inj_in {A B : Type} (f : A -> B) (l : list A) :
  NoDup l ->
  (forall x y, In x l -> In y l -> f x = f y -> x = y) ->
  NoDup (map f l).
Proof.
  induction l as [|a l IH]; simpl; intros H Hinj; [constructor|].
  inversion H as [|z zs Hnotin Hnd]; subst. constructor.
  - intros Hin. apply in_map_iff in Hin. destruct Hin as [y [E Hy]].
    assert (y = a) by (apply Hinj; [right; exact Hy | left; reflexivity | exact E]).
    subst y. exact (Hnotin Hy).
  - apply IH; [exact Hnd|]. intros x y Hx Hy. apply Hinj; right; assumption.
Qed.

Lemma Forall_map_filter {A B : Type} (P : B -> Prop) (g : A -> B) (p : A -> bool) (l : list A) :
  Forall P (map g l) -> Forall P (map g (filter p l)).
Proof.
  intros H. apply Forall_forall. intros y Hy.
  apply in_map_iff in Hy. destruct Hy as [x [E Hx]]. apply filter_In in Hx.
  rewrite Forall_forall in H. apply H. rewrite <- E. apply in_map. apply Hx.
Qed.

Lemma not_in_map_filter {A B : Type} (g : A -> B) (p : A -> bool) (l : list A) (b : B) :
  ~ In b (map g l) -> ~ In b (map g (filter p l)).
Proof.
  intros H Hin. apply H. apply in_map_iff in Hin. destruct Hin as [x [E Hx]].
  apply in_map_iff. exists x. split; [exact E|]. apply filter_In in Hx. apply Hx.
Qed.

Lemma fold_left_max_ge (r : list Z) (i : Z) :
  i <= fold_left Z.max r i /\ forall x, In x r -> x <= fold_left Z.max r i.
Proof.
  revert i. induction r as [|a r IH]; intros i; simpl.
  - split; [lia | intros x F; destruct F].
  - destruct (IH (Z.max i a)) as [H1 H2]. split; [lia|].
    intros x [E|Hx]; [subst; lia | apply H2; exact Hx].
Qed.

Lemma next_rowid_above (ids : list Z) (x : Z) : In x ids -> x < next_rowid ids.
Proof.
  destruct ids as [|i r]; simpl; [intros F; destruct F|].
  destruct (fold_left_max_ge r i) as [H1 H2].
  intros [E|Hx]; [subst; lia | specialize (H2 x Hx); lia].
Qed.

Lemma next_rowid_fresh (ids : list Z) : ~ In (next_rowid ids) ids.
Proof. intros H. apply next_rowid_above in H. lia. Qed.

Lemma next_rowid_pos (ids : list Z) : Forall (fun i => 0 < i) ids -> 0 < next_rowid ids.
Proof.
  destruct ids as [|i r]; simpl; intros H; [lia|].
  inversion H; subst. destruct (fold_left_max_ge r i) as [H1 _]. lia.
Qed.

Lemma existsb_false_absent {A : Type} (name : A -> string) (n : string) (l : list A) :
  existsb (fun x => (name x =? n)%string) l = false -> ~ In n (map name l).
Proof.
  intros H Hin. apply in_map_iff in Hin. destruct Hin as [x [E Hx]].
  rewrite (existsb_some _ l x Hx) in H; [discriminate H|].
  rewrite E. apply String.eqb_refl.
Qed.

Lemma wf_with_tag_files (d : database) (l : list tag_file_row) :
  wf_db d -> wf_db (with_tag_files d l).
Proof. intros [H1 H2 H3 H4 H5 H6 H7 H8]. constructor; assumption. Qed.

Lemma wf_with_tags (d : database) (l : list tag_row) :
  wf_db d ->
  NoDup (map tag_id l) -> NoDup (map tag_name l) ->
  Forall (fun i => 0 < i) (map tag_id l) -> ~ In "__ALL__" (map tag_name l) ->
  wf_db (with_tags d l).
Proof. intros [H1 H2 H3 H4 H5 H6 H7 H8] ? ? ? ?. constructor; assumption. Qed.

Lemma wf_with_files (d : database) (l : list file_row) :
  wf_db d ->
  NoDup (map file_id l) -> Forall (fun i => 0 < i) (map file_id l) ->
  wf_db (with_files d l).
Proof. intros [H1 H2 H3 H4 H5 H6 H7 H8] ? ?. constructor; assumption. Qed.

Lemma wf_with_options (d : database) (l : list option_row) :
  wf_db d -> NoDup (map opt_name l) -> wf_db (with_options d l).
Proof. intros [H1 H2 H3 H4 H5 H6 H7 H8] ?. constructor; assumption. Qed.

Lemma wf_with_selections (d : database) (l : list selection_row) :
  wf_db d -> NoDup (map sel_name l) -> wf_db (with_selections d l).
Proof. intros [H1 H2 H3 H4 H5 H6 H7 H8] ?. constructor; assumption. Qed.

Lemma wf_delete_tags (d : database) (p : tag_row -> bool) :
  wf_db d -> wf_db (with_tags d (filter p (tags d))).
Proof.
  intros H. apply wf_with_tags; [exact H | | | | ].
  - apply NoDup_map_filter, H.
  - apply NoDup_map_filter, H.
  - apply Forall_map_filter, H.
  - apply not_in_map_filter, H.
Qed.

Lemma wf_insert_tag (d : database) (n : string) :
  wf_db d -> n <> "__ALL__" ->
  existsb (tag_has_name (VText n)) (tags d) = false ->
  wf_db (with_tags d (tags d ++ [mk_tag (next_rowid (map tag_id (tags d))) n])).
Proof.
  intros H Hn Hex. apply wf_with_tags; [exact H | | | | ].
  - apply NoDup_map_snoc; [apply H | apply next_rowid_fresh].
  - apply NoDup_map_snoc; [apply H|]. simpl.
    apply (existsb_false_absent tag_name n). exact Hex.
  - rewrite map_app. apply Forall_app. split; [apply H|].
    constructor; [ | constructor ]. simpl. apply next_rowid_pos, H.
  - rewrite map_app. intros Hin. apply in_app_or in Hin. destruct Hin as [Hin|Hin].
    + exact (wf_no_sentinel d H Hin).
    + simpl in Hin. destruct Hin as [E|F]; [ | exact F ]. apply Hn. exact E.
Qed.

Lemma rename_tag_ids (sel : tag_row -> bool) (dst : string) (l : list tag_row) :
  map tag_id (map (rename_tag sel dst) l) = map tag_id l.
Proof.
  rewrite map_map. apply map_ext. intros t. unfold rename_tag.
  destruct (sel t); reflexivity.
Qed.

(** Renaming the selected rows keeps the names unique when the selected
    rows are one row at most and no other row bears the new name. *)
Lemma rename_tag_names (sel : tag_row -> bool) (dst : string) (l : list tag_row) :
  NoDup (map tag_id l) -> NoDup (map tag_name l) ->
  (forall x y, In x l -> In y l -> sel x = true -> sel y = true -> x = y) ->
  (forall x y, In x l -> In y l -> sel x = true -> sel y = false -> tag_name y <> dst) ->
  NoDup (map tag_name (map (rename_tag sel dst) l)).
Proof.
  intros Hid Hnm Hone Hother. rewrite map_map.
  apply NoDup_map_of_inj_in; [eapply NoDup_map_inv; exact Hid|].
  intros x y Hx Hy. unfold rename_tag.
  destruct (sel x) eqn:Sx, (sel y) eqn:Sy; simpl; intros E.
  - apply Hone; assumption.
  - exfalso. apply (Hother x y Hx Hy Sx Sy). symmetry. exact E.
  - exfalso. apply (Hother y x Hy Hx Sy Sx). exact E.
  - apply (NoDup_map_inj_in tag_name l); assumption.
Qed.

Lemma rename_tag_no_sentinel (sel : tag_row -> bool) (dst : string) (l : list tag_row) :
  dst <> "__ALL__" -> ~ In "__ALL__" (map tag_name l) ->
  ~ In "__ALL__" (map tag_name (map (rename_tag sel dst) l)).
Proof.
  intros Hd Hl Hin. apply in_map_iff in Hin. destruct Hin as [x [E Hx]].
  apply in_map_iff in Hx. destruct Hx as [y [Ey Hy]]. subst x.
  unfold rename_tag in E. destruct (sel y); simpl in E.
  - apply Hd. exact E.
  - apply Hl. rewrite <- E. apply in_map. exact Hy.
Qed.

Lemma sql_eq_text (a b : string) : sql_eq (VText a) (VText b) = (a =? b)%string.
Proof. reflexivity. Qed.

Lemma sql_eq_int (a b : Z) : sql_eq (VInt a) (VInt b) = (a =? b)%Z.
Proof. reflexivity. Qed.

Lemma sql_eq_same (a b c : value) : sql_eq a c = true -> sql_eq b c = true -> a = b.
Proof.
  destruct a, b, c; simpl; intros H1 H2; try discriminate.
  - apply Z.eqb_eq in H1, H2. subst. reflexivity.
  - apply String.eqb_eq in H1, H2. subst. reflexivity.
Qed.

Lemma existsb_false_all {A : Type} (f : A -> bool) (l : list A) (x : A) :
  existsb f l = false -> In x l -> f x = false.
Proof.
  intros H Hx. destruct (f x) eqn:E; [ | reflexivity ].
  rewrite (existsb_some f l x Hx E) in H. discriminate H.
Qed.

Lemma wf_rename_tag_by_id (d : database) (dst : string) (p : value) :
  wf_db d -> dst <> "__ALL__" ->
  tag_update_by_id_conflict dst p (tags d) = false ->
  wf_db (with_tags d (map (rename_tag (tag_has_id p) dst) (tags d))).
Proof.
  intros H Hd Hc. apply wf_with_tags; [exact H | | | | ].
  - rewrite rename_tag_ids. apply H.
  - apply rename_tag_names; [apply H | apply H | | ].
    + intros x y Hx Hy Sx Sy. apply (NoDup_map_inj_in tag_id (tags d)); try assumption; [apply H|].
      unfold tag_has_id in Sx, Sy. pose proof (sql_eq_same _ _ _ Sx Sy) as E.
      injection E as E. exact E.
    + intros x y Hx Hy Sx Sy E.
      unfold tag_update_by_id_conflict in Hc. apply andb_false_iff in Hc.
      destruct Hc as [Hc|Hc].
      * rewrite (existsb_some _ _ x Hx Sx) in Hc. discriminate Hc.
      * apply (existsb_false_all _ _ y Hc) in Hy.
        unfold tag_has_name in Hy. rewrite sql_eq_text, E, String.eqb_refl, Sy in Hy.
        discriminate Hy.
  - rewrite rename_tag_ids. apply H.
  - apply rename_tag_no_sentinel; [exact Hd | apply H].
Qed.

Lemma wf_rename_tag_by_name (d : database) (dst : string) (p : value) :
  wf_db d -> dst <> "__ALL__" ->
  tag_update_by_name_conflict dst p (tags d) = false ->
  wf_db (with_tags d (map (rename_tag (tag_has_name p) dst) (tags d))).
Proof.
  intros H Hd Hc. apply wf_with_tags; [exact H | | | | ].
  - rewrite rename_tag_ids. apply H.
  - apply rename_tag_names; [apply H | apply H | | ].
    + intros x y Hx Hy Sx Sy. apply (NoDup_map_inj_in tag_name (tags d)); try assumption; [apply H|].
      unfold tag_has_name in Sx, Sy. pose proof (sql_eq_same _ _ _ Sx Sy) as E.
      injection E as E. exact E.
    + intros x y Hx Hy Sx Sy E.
      unfold tag_update_by_name_conflict in Hc. apply andb_false_iff in Hc.
      destruct Hc as [Hc|Hc].
      * rewrite (existsb_some _ _ x Hx Sx) in Hc. discriminate Hc.
      * apply (existsb_false_all _ _ y Hc) in Hy.
        unfold tag_has_name in Hy at 1. rewrite sql_eq_text, E, String.eqb_refl, Sy in Hy.
        discriminate Hy.
  - rewrite rename_tag_ids. apply H.
  - apply rename_tag_no_sentinel; [exact Hd | apply H].
Qed.

Lemma wf_delete_files (d : database) (p : file_row -> bool) :
  wf_db d -> wf_db (with_files d (filter p (files d))).
Proof.
  intros H. apply wf_with_files; [exact H | | ].
  - apply NoDup_map_filter, H.
  - apply Forall_map_filter, H.
Qed.

Lemma wf_insert_file (d : database) (n path : string) :
  wf_db d ->
  wf_db (with_files d (files d ++ [mk_file (next_rowid (map file_id (files d))) n path])).
Proof.
  intros H. apply wf_with_files; [exact H | | ].
  - apply NoDup_map_snoc; [apply H | apply next_rowid_fresh].
  - rewrite map_app. apply Forall_app. split; [apply H|].
    constructor; [ | constructor ]. simpl. apply next_rowid_pos, H.
Qed.

Lemma rename_file_ids (sel : file_row -> bool) (dst : string) (l : list file_row) :
  map file_id (map (rename_file sel dst) l) = map file_id l.
Proof.
  rewrite map_map. apply map_ext. intros t. unfold rename_file.
  destruct (sel t); reflexivity.
Qed.

Lemma wf_rename_files (d : database) (sel : file_row -> bool) (dst : string) :
  wf_db d -> wf_db (with_files d (map (rename_file sel dst) (files d))).
Proof.
  intros H. apply wf_with_files; [exact H | | ]; rewrite rename_file_ids; apply H.
Qed.

Lemma wf_replace_option (d : database) (n : string) (v : value) :
  wf_db d ->
  wf_db (with_options d (filter (fun o => negb (opt_has_name (VText n) o)) (options d)
                           ++ [mk_option n v])).
Proof.
  intros H. apply wf_with_options; [exact H|].
  apply NoDup_map_snoc; [apply NoDup_map_filter, H|].
  simpl. intros Hin. apply in_map_iff in Hin. destruct Hin as [o [E Ho]].
  apply filter_drops in Ho. unfold opt_has_name in Ho.
  rewrite sql_eq_text, E, String.eqb_refl in Ho. discriminate Ho.
Qed.

Lemma wf_insert_selection (d : database) (n v : string) :
  wf_db d ->
  existsb (sel_has_name (VText n)) (selections d) = false ->
  wf_db (with_selections d (selections d ++ [mk_selection n v])).
Proof.
  intros H Hex. apply wf_with_selections; [exact H|].
  apply NoDup_map_snoc; [apply H|]. simpl.
  apply (existsb_false_absent sel_name n). exact Hex.
Qed.

Lemma wf_delete_selections (d : database) (p : selection_row -> bool) :
  wf_db d -> wf_db (with_selections d (filter p (selections d))).
Proof. intros H. apply wf_with_selections; [exact H|]. apply NoDup_map_filter, H. Qed.

Lemma wf_rename_selection (d : database) (dst : string) (p : value) :
  wf_db d ->
  sel_update_conflict dst p (selections d) = false ->
  wf_db (with_selections d (map (rename_selection (sel_has_name p) dst) (selections d))).
Proof.
  intros H Hc. apply wf_with_selections; [exact H|].
  rewrite map_map.
  apply NoDup_map_of_inj_in; [eapply NoDup_map_inv; apply (wf_selection_names d H)|].
  intros x y Hx Hy. unfold rename_selection.
  assert (Hother : forall a b, In a (selections d) -> In b (selections d) ->
                               sel_has_name p a = true -> sel_has_name p b = false ->
                               sel_name b <> dst).
  { intros a b Ha Hb Sa Sb E.
    unfold sel_update_conflict in Hc. apply andb_false_iff in Hc. destruct Hc as [Hc|Hc].
    - rewrite (existsb_some _ _ a Ha Sa) in Hc. discriminate Hc.
    - apply (existsb_false_all _ _ b Hc) in Hb.
      unfold sel_has_name in Hb at 1. rewrite sql_eq_text, E, String.eqb_refl, Sb in Hb.
      discriminate Hb. }
  destruct (sel_has_name p x) eqn:Sx, (sel_has_name p y) eqn:Sy; simpl; intros E.
  - apply (NoDup_map_inj_in sel_name (selections d)); try assumption; [apply H|].
    unfold sel_has_name in Sx, Sy. pose proof (sql_eq_same _ _ _ Sx Sy) as E'.
    injection E' as E'. exact E'.
  - exfalso. apply (Hother x y Hx Hy Sx Sy). symmetry. exact E.
  - exfalso. apply (Hother y x Hy Hx Sy Sx). exact E.
  - apply (NoDup_map_inj_in sel_name (selections d)); try assumption. apply H.
Qed.

(** Every statement, run with guarded bindings, keeps the database well
    formed. *)
Lemma run_wf (st : stmt) (ps rs : list value) (d d' : database) :
  wf_db d -> guarded st ps -> run st ps d = Rows rs d' -> wf_db d'.
Proof.
  intros Hwf Hg Hrun.
  destruct st; simpl in Hrun, Hg;
    repeat match type of Hrun with
           | match ?l with [] => _ | _ :: _ => _ end = _ => destruct l; try discriminate Hrun
           | match ?v with VNull => _ | VInt _ => _ | VText _ => _ end = _ =>
               destruct v; try discriminate Hrun
           | (if ?b then _ else _) = _ => destruct b eqn:?; try discriminate Hrun
           end;
    injection Hrun as _ Hd; subst d';
    first
      [ exact Hwf
      | apply wf_with_tag_files; exact Hwf
      | apply wf_insert_selection; assumption
      | apply wf_delete_selections; exact Hwf
      | apply wf_rename_selection; assumption
      | apply wf_replace_option; exact Hwf
      | apply wf_insert_tag; assumption
      | apply wf_delete_tags; exact Hwf
      | apply wf_rename_tag_by_id; assumption
      | apply wf_rename_tag_by_name; assumption
      | apply wf_insert_file; exact Hwf
      | apply wf_delete_files; exact Hwf
      | apply wf_rename_files; exact Hwf ].
Qed.

Lemma preserves_ret {A : Type} (a : A) : preserves (ret a).
Proof. intros c H. exact H. Qed.

Lemma preserves_commit : preserves commit.
Proof. intros c H. exact H. Qed.

Lemma preserves_bind {A B : Type} (m : M A) (k : A -> M B) :
  preserves m -> (forall a, preserves (k a)) -> preserves (bind m k).
Proof.
  intros Hm Hk c H. unfold bind. specialize (Hm c H).
  destruct (m c) as [[a|e] c1]; simpl in Hm.
  - apply Hk. exact Hm.
  - exact Hm.
Qed.

Lemma preserves_execute (sql : string) (ps : list value) :
  (forall st, prepare sql = Some st -> guarded st ps) ->
  preserves (execute sql ps).
Proof.
  intros Hg c H. unfold execute.
  destruct (prepare sql) as [st|] eqn:Hp; [ | exact H ].
  destruct (run st ps (work c)) as [rs d|e] eqn:Hr; [ | exact H ].
  simpl. apply (run_wf st ps rs (work c) d H (Hg st eq_refl) Hr).
Qed.

(** Discharges the guard of an [execute] whose statement text is known. *)
Ltac known_guard :=
  let st := fresh "st" in
  let H := fresh "H" in
  intros st H; vm_compute in H; injection H as H; subst st; simpl; trivial.

Ltac preserving :=
  repeat first
    [ apply preserves_ret
    | apply preserves_commit
    | apply preserves_bind; [ | intros ? ]
    | apply preserves_execute; known_guard ].

Lemma Tags_new_preserves (name : string) : preserves (Tags.new name).
Proof.
  unfold Tags.new. destruct (name =? "__ALL__")%string eqn:E; [apply preserves_ret|].
  apply String.eqb_neq in E. preserving.
Qed.

Lemma Tags_get_id_preserves (r : ref) : preserves (Tags.get_id r).
Proof.
  destruct r as [i|s]; simpl; [apply preserves_ret|].
  destruct (s =? "__ALL__")%string; preserving.
Qed.

Lemma Files_get_id_preserves (r : ref) : preserves (Files.get_id r).
Proof. destruct r as [i|s]; simpl; preserving. Qed.

Lemma Tags_rename_preserves (src : ref) (dst : string) : preserves (Tags.rename src dst).
Proof.
  unfold Tags.rename.
  destruct (ref_eq_str src "__ALL__" || (dst =? "__ALL__")%string) eqn:E; [apply preserves_ret|].
  apply orb_false_iff in E. destruct E as [_ E]. apply String.eqb_neq in E.
  destruct src as [i|s]; preserving.
Qed.

Lemma set_tags_loop_preserves (name : value) (ts : list ref) :
  preserves (Files.set_tags_loop name ts).
Proof.
  induction ts as [|tag rest IH]; simpl; [apply preserves_ret|].
  apply preserves_bind; [ | intros _; exact IH ].
  unfold Files.set_tags_step.
  apply preserves_bind; [apply Tags_get_id_preserves | intros i].
  apply preserves_bind; [ | intros j; preserving ].
  destruct (is_null i); [ | apply preserves_ret ].
  apply preserves_bind; [ | intros _; apply Tags_get_id_preserves ].
  destruct tag as [k|s]; [apply preserves_ret | apply Tags_new_preserves].
Qed.

(** Every handle call keeps the working database well formed. *)
Lemma run_call_preserves (k : call) : preserves (run_call k).
Proof.
  destruct k; unfold run_call, answering;
    (apply preserves_bind; [ | intros ?; apply preserves_ret ]).
  - unfold Selections.new. preserving.
  - unfold Selections.remove. preserving.
  - unfold Selections.all_names. preserving.
  - unfold Selections.rename.
    destruct ((src =? "__ALL__")%string || (dst =? "__ALL__")%string); preserving.
  - unfold Selections.resolve. preserving.
  - unfold Selections.exists_, Selections.resolve. preserving.
  - unfold Options.set. preserving.
  - unfold Options.get. preserving.
  - unfold Options.unset. preserving.
  - apply Tags_new_preserves.
  - unfold Tags.remove. destruct (ref_eq_str name "__ALL__"); [apply preserves_ret|].
    apply preserves_bind; [apply Tags_get_id_preserves | intros i]. preserving.
  - apply Tags_get_id_preserves.
  - destruct name as [i|s]; simpl; preserving.
  - unfold Tags.all_names. preserving.
  - unfold Tags.all_ids. preserving.
  - apply Tags_rename_preserves.
  - unfold Tags.exists_. apply preserves_bind; [apply Tags_get_id_preserves | intros i].
    apply preserves_ret.
  - unfold Files.new. preserving.
  - unfold Files.remove. apply preserves_bind; [apply Files_get_id_preserves | intros i].
    preserving.
  - apply Files_get_id_preserves.
  - destruct name as [i|s]; simpl; preserving.
  - unfold Files.all_names. preserving.
  - unfold Files.all_ids. preserving.
  - unfold Files.rename. destruct src as [i|s]; preserving.
  - unfold Files.exists_. apply preserves_bind; [apply Files_get_id_preserves | intros i].
    apply preserves_ret.
  - unfold Files.get_by_tag, Files.all_names. destruct (ref_eq_str tag "__ALL__"); [preserving|].
    apply preserves_bind; [apply Tags_get_id_preserves | intros i]. preserving.
  - unfold Files.add_tag. destruct (ref_eq_str tag "__ALL__"); [apply preserves_ret|].
    apply preserves_bind; [apply Tags_get_id_preserves | intros i].
    apply preserves_bind; [apply Files_get_id_preserves | intros j]. preserving.
  - unfold Files.remove_tag. destruct (ref_eq_str tag "__ALL__"); [apply preserves_ret|].
    apply preserves_bind; [apply Tags_get_id_preserves | intros i].
    apply preserves_bind; [apply Files_get_id_preserves | intros j]. preserving.
  - unfold Files.has_tag.
    destruct (ref_eq_str tag "__ALL__" || ref_eq_int tag (-1)); [apply preserves_ret|].
    apply preserves_bind; [apply Tags_get_id_preserves | intros i].
    apply preserves_bind; [apply Files_get_id_preserves | intros j]. preserving.
  - unfold Files.resolve. destruct name as [i|s]; preserving.
  - unfold Files.get_tags. apply preserves_bind; [apply Files_get_id_preserves | intros i].
    preserving.
  - unfold Files.set_tags. apply preserves_bind; [apply Files_get_id_preserves | intros i].
    apply preserves_bind; [preserving | intros _].
    apply preserves_bind; [apply set_tags_loop_preserves | intros _]. preserving.
Qed.

Lemma empty_db_wf : wf_db empty_db.
Proof. constructor; simpl; first [constructor | intros F; exact F]. Qed.

(** In every reachable connection the working database is well formed: ids
    and names are unique where the schema says so, ids are positive, and no
    tag is named ["__ALL__"]. *)
Lemma reachable_wf (c : conn) : reachable c -> wf_db (work c).
Proof.
  induction 1 as [|k c _ IH]; [exact empty_db_wf|].
  apply run_call_preserves. exact IH.
Qed.

(** ** [set_tags]: full replace *)

Lemma file_id_of_exists (d : database) (f : ref) :
  file_exists d f -> exists i : Z, file_id_of d f = VInt i.
Proof.
  destruct f as [i|n]; simpl; intros H; [exists i; reflexivity|].
  apply in_map_iff in H. destruct H as [x [E Hx]].
  destruct (filter (file_has_name (VText n)) (files d)) as [|y l] eqn:F.
  - exfalso. assert (Hin : In x (filter (file_has_name (VText n)) (files d))).
    { apply filter_In. split; [exact Hx|].
      unfold file_has_name. rewrite sql_eq_text, E. apply String.eqb_refl. }
    rewrite F in Hin. exact Hin.
  - exists (file_id y). reflexivity.
Qed.

Lemma file_id_of_files (d d' : database) (r : ref) :
  files d = files d' -> file_id_of d r = file_id_of d' r.
Proof. intros H. unfold file_id_of. rewrite H. reflexivity. Qed.

Lemma ensure_tag_resolves (d : database) (t : string) :
  t <> "__ALL__" ->
  exists j : Z,
    tag_id_of (ensure_tag d (RName t)) (RName t) = VInt j
    /\ In (mk_tag j t) (tags (ensure_tag d (RName t))).
Proof.
  intros Ht. apply String.eqb_neq in Ht.
  assert (Hid : tag_id_of d (RName t)
                = fetchone_first (map (fun x => VInt (tag_id x))
                                      (filter (tag_has_name (VText t)) (tags d))))
    by (unfold tag_id_of; rewrite Ht; reflexivity).
  unfold ensure_tag, auto_created. rewrite Hid.
  destruct (filter (tag_has_name (VText t)) (tags d)) as [|x l] eqn:F;
    cbn [map fetchone_first is_null].
  - exists (next_rowid (map tag_id (tags d))). split.
    + unfold tag_id_of. rewrite Ht. cbn [tags with_tags].
      rewrite filter_app, F. simpl.
      unfold tag_has_name. rewrite sql_eq_text. simpl. rewrite String.eqb_refl. reflexivity.
    + cbn [tags with_tags]. apply in_or_app. right. left. reflexivity.
  - exists (tag_id x). split.
    + unfold tag_id_of. rewrite Ht, F. reflexivity.
    + assert (Hin : In x (filter (tag_has_name (VText t)) (tags d)))
        by (rewrite F; left; reflexivity).
      apply filter_In in Hin. destruct Hin as [Hin Hn].
      unfold tag_has_name in Hn. rewrite sql_eq_text in Hn. apply String.eqb_eq in Hn.
      destruct x as [xi xn]. simpl in Hn. subst xn. exact Hin.
Qed.

Lemma ensure_tag_extends (d : database) (r : ref) :
  (exists ext, tags (ensure_tag d r) = tags d ++ ext)
  /\ files (ensure_tag d r) = files d
  /\ tag_files (ensure_tag d r) = tag_files d.
Proof.
  unfold ensure_tag. destruct (auto_created d r); [destruct r as [i|s]|].
  - split; [exists []; symmetry; apply app_nil_r | split; reflexivity].
  - split; [eexists; reflexivity | split; reflexivity].
  - split; [exists []; symmetry; apply app_nil_r | split; reflexivity].
Qed.

Lemma set_tags_fold_wf (name : value) (ts : list ref) (d : database) :
  wf_db d -> wf_db (fold_left (set_tags_step_db name) ts d).
Proof.
  intros H.
  destruct (set_tags_loop_spec name ts (mk_conn d d [])) as [t [Hrun _]].
  pose proof (set_tags_loop_preserves name ts (mk_conn d d []) H) as Hp.
  rewrite Hrun in Hp. exact Hp.
Qed.

(** The association rows the loop appends: one per listed name, each with
    the id of the tag that bears the name in the final database. *)
Lemma set_tags_fold_rows (name : value) (ts : list string) (d : database) :
  ~ In "__ALL__" ts ->
  let d1 := fold_left (set_tags_step_db name) (map RName ts) d in
  files d1 = files d
  /\ (exists ext, tags d1 = tags d ++ ext)
  /\ exists rows,
      tag_files d1 = tag_files d ++ rows
      /\ Forall2 (fun row t => exists j, row = mk_tag_file (VInt j) name
                                         /\ In (mk_tag j t) (tags d1))
                 rows ts.
Proof.
  revert d. induction ts as [|t rest IH]; intros d Hs; cbv zeta.
  - simpl. split; [reflexivity|]. split; [exists []; symmetry; apply app_nil_r|].
    exists []. split; [symmetry; apply app_nil_r | constructor].
  - assert (Ht : t <> "__ALL__") by (intros E; apply Hs; left; exact E).
    assert (Hr : ~ In "__ALL__" rest) by (intros E; apply Hs; right; exact E).
    simpl map. simpl fold_left.
    destruct (ensure_tag_resolves d t Ht) as [j [Hj Hin]].
    destruct (ensure_tag_extends d (RName t)) as [[ext Hext] [Hf Htf]].
    set (d' := set_tags_step_db name d (RName t)).
    assert (Htags' : tags d' = tags d ++ ext) by (unfold d', set_tags_step_db; exact Hext).
    assert (Hfiles' : files d' = files d) by (unfold d', set_tags_step_db; exact Hf).
    assert (Htf' : tag_files d' = tag_files d ++ [mk_tag_file (VInt j) name]).
    { unfold d', set_tags_step_db. cbn [tag_files with_tag_files]. rewrite Htf, Hj. reflexivity. }
    assert (Hin' : In (mk_tag j t) (tags d')) by (unfold d', set_tags_step_db; exact Hin).
    destruct (IH d' Hr) as [H1 [[ext' H2] [rows [H3 H4]]]].
    split; [rewrite H1; exact Hfiles'|].
    split; [exists (ext ++ ext'); rewrite H2, Htags', app_assoc; reflexivity|].
    exists (mk_tag_file (VInt j) name :: rows). split.
    + rewrite H3, Htf', <- app_assoc. reflexivity.
    + constructor; [ | exact H4 ].
      exists j. split; [reflexivity|]. rewrite H2. apply in_or_app. left. exact Hin'.
Qed.

Lemma flat_map_none {A B : Type} (f : A -> list B) (l : list A) :
  (forall x, In x l -> f x = []) -> flat_map f l = [].
Proof.
  induction l as [|a l IH]; simpl; intros H; [reflexivity|].
  rewrite (H a (or_introl eq_refl)). apply IH. intros x Hx. apply H. right. exact Hx.
Qed.

Lemma filter_tag_by_id (l : list tag_row) (x : tag_row) :
  NoDup (map tag_id l) -> In x l -> filter (tag_has_id (VInt (tag_id x))) l = [x].
Proof.
  induction l as [|a l IH]; simpl; intros Hnd Hx; [destruct Hx|].
  inversion Hnd as [|z zs Hnotin Hnd']; subst.
  unfold tag_has_id at 1. rewrite sql_eq_int.
  destruct Hx as [E|Hx].
  - subst a. rewrite Z.eqb_refl. f_equal.
    apply filter_none. intros y Hy. unfold tag_has_id. rewrite sql_eq_int.
    apply Z.eqb_neq. intros E. apply Hnotin. rewrite <- E. apply in_map. exact Hy.
  - destruct (tag_id a =? tag_id x)%Z eqn:E.
    + exfalso. apply Z.eqb_eq in E. apply Hnotin. rewrite E. apply in_map. exact Hx.
    + apply IH; assumption.
Qed.

Lemma filter_tag_by_name (l : list tag_row) (x : tag_row) :
  NoDup (map tag_name l) -> In x l -> filter (tag_has_name (VText (tag_name x))) l = [x].
Proof.
  induction l as [|a l IH]; simpl; intros Hnd Hx; [destruct Hx|].
  inversion Hnd as [|z zs Hnotin Hnd']; subst.
  unfold tag_has_name at 1. rewrite sql_eq_text.
  destruct Hx as [E|Hx].
  - subst a. rewrite String.eqb_refl. f_equal.
    apply filter_none. intros y Hy. unfold tag_has_name. rewrite sql_eq_text.
    apply String.eqb_neq. intros E. apply Hnotin. rewrite <- E. apply in_map. exact Hy.
  - destruct (tag_name a =? tag_name x)%string eqn:E.
    + exfalso. apply String.eqb_eq in E. apply Hnotin. rewrite E. apply in_map. exact Hx.
    + apply IH; assumption.
Qed.

Lemma join_tags_rows (i : Z) (d : database) (rows : list tag_file_row) (ts : list string) :
  NoDup (map tag_id (tags d)) ->
  Forall2 (fun row t => exists j, row = mk_tag_file (VInt j) (VInt i)
                                     /\ In (mk_tag j t) (tags d))
          rows ts ->
  flat_map (fun tf =>
              if sql_eq (tf_file_id tf) (VInt i)
              then map (fun t => VText (tag_name t)) (filter (tag_has_id (tf_tag_id tf)) (tags d))
              else [])
           rows
  = map VText ts.
Proof.
  intros Hnd H. induction H as [|row t rows ts [j [Erow Hin]] _ IH]; [reflexivity|].
  simpl. rewrite IH. subst row. cbn [tf_file_id tf_tag_id].
  rewrite sql_eq_int_refl.
  pose proof (filter_tag_by_id (tags d) (mk_tag j t) Hnd Hin) as Hone.
  cbn [tag_id] in Hone. rewrite Hone. reflexivity.
Qed.

Lemma rows_name_tags (name : value) (l : list tag_row) (rows : list tag_file_row)
      (ts : list string) (x : string) :
  Forall2 (fun row t => exists j, row = mk_tag_file (VInt j) name /\ In (mk_tag j t) l)
          rows ts ->
  In x ts -> exists j : Z, In (mk_tag j x) l.
Proof.
  intros Hall. induction Hall as [|row y rows' ts' [j [_ Hin]] _ IH]; intros Hx; [destruct Hx|].
  destruct Hx as [E|Hx]; [subst y; exists j; exact Hin | apply IH; exact Hx].
Qed.

(** [get_tags] after [set_tags] returns the listed names, in the order of
    the list. *)
Lemma set_tags_then_get_tags (f : ref) (ts : list string) (c : conn) :
  wf_db (work c) -> file_exists (work c) f -> ~ In "__ALL__" ts ->
  exists c1 c2 : conn,
    Files.set_tags f (map RName ts) c = (Ok true, c1)
    /\ Files.get_tags f c1 = (Ok (map VText ts), c2)
    /\ wf_db (work c1)
    /\ file_exists (work c1) f
    /\ (forall t, In t ts ->
                  List.length (filter (tag_has_name (VText t)) (tags (work c1))) = 1%nat).
Proof.
  intros Hwf Hex Hs.
  destruct (file_id_of_exists _ f Hex) as [i Hi].
  destruct (set_tags_spec f (map RName ts) c) as [t [Hrun _]]. cbv zeta in Hrun.
  rewrite Hi in Hrun.
  set (d0 := set_tags_cleared (VInt i) (work c)) in *.
  set (d1 := fold_left (set_tags_step_db (VInt i)) (map RName ts) d0) in *.
  assert (Hwf0 : wf_db d0) by (apply wf_with_tag_files; exact Hwf).
  assert (Hwf1 : wf_db d1) by (apply set_tags_fold_wf; exact Hwf0).
  destruct (set_tags_fold_rows (VInt i) ts d0 Hs) as [Hfiles [[ext Htags] [rows [Hrows Hall]]]].
  fold d1 in Hfiles, Htags, Hrows, Hall.
  assert (Hfiles1 : files d1 = files (work c)) by (rewrite Hfiles; reflexivity).
  eexists. eexists. split; [exact Hrun|].
  split; [ | split; [exact Hwf1 | split ] ].
  - unfold Files.get_tags.
    erewrite bind_ok; [ | apply Files_get_id_spec ].
    cbn [work]. rewrite (file_id_of_files d1 (work c) f Hfiles1), Hi.
    step. unfold ret, logged. cbn [work committed trace].
    f_equal. f_equal. unfold fetch_first, join_tags.
    rewrite Hrows, flat_map_app.
    rewrite flat_map_none.
    + simpl. apply join_tags_rows; [apply Hwf1 | exact Hall].
    + intros x Hx. unfold d0, set_tags_cleared in Hx. cbn [tag_files with_tag_files] in Hx.
      apply filter_drops in Hx. rewrite Hx. reflexivity.
  - cbn [work]. destruct f as [k|n]; simpl in Hex |- *; rewrite Hfiles1; exact Hex.
  - intros x Hx. cbn [work].
    destruct (rows_name_tags (VInt i) (tags d1) rows ts x Hall Hx) as [j Hj].
    pose proof (filter_tag_by_name (tags d1) (mk_tag j x) (wf_tag_names d1 Hwf1) Hj) as Hone.
    cbn [tag_name] in Hone. rewrite Hone. reflexivity.
Qed.

Lemma tag_id_of_present (d : database) (j : Z) (t : string) :
  NoDup (map tag_name (tags d)) -> t <> "__ALL__" -> In (mk_tag j t) (tags d) ->
  tag_id_of d (RName t) = VInt j.
Proof.
  intros Hnd Ht Hin. apply String.eqb_neq in Ht. unfold tag_id_of. rewrite Ht.
  pose proof (filter_tag_by_name (tags d) (mk_tag j t) Hnd Hin) as Hone.
  cbn [tag_name] in Hone. rewrite Hone. reflexivity.
Qed.

(** A [set_tags] whose listed names all exist creates no tag. *)
Lemma set_tags_existing_keeps_tags (f : ref) (ts : list string) (c : conn) :
  wf_db (work c) -> ~ In "__ALL__" ts ->
  (forall t, In t ts -> exists j, In (mk_tag j t) (tags (work c))) ->
  tags (work (snd (Files.set_tags f (map RName ts) c))) = tags (work c).
Proof.
  intros Hwf Hs Hall.
  destruct (set_tags_spec f (map RName ts) c) as [t [Hrun _]]. cbv zeta in Hrun.
  rewrite Hrun. cbn [snd work].
  set (name := file_id_of (work c) f).
  set (d0 := set_tags_cleared name (work c)).
  destruct (set_tags_fold_rows name ts d0 Hs) as [_ [[ext Htags] _]].
  pose proof (set_tags_loop_commits_count name (map RName ts) d0) as Hlen.
  rewrite set_tags_loop_commits_resolved in Hlen.
  - rewrite Htags, length_app in Hlen. simpl in Hlen.
    destruct ext as [|e ext]; [ | simpl in Hlen; lia ].
    rewrite Htags, app_nil_r. reflexivity.
  - intros r Hr. apply in_map_iff in Hr. destruct Hr as [x [E Hx]]. subst r.
    destruct (Hall x Hx) as [j Hj].
    unfold auto_created.
    rewrite (tag_id_of_tags d0 (work c) (RName x) eq_refl).
    rewrite (tag_id_of_present (work c) j x (wf_tag_names _ Hwf)); [reflexivity | | exact Hj].
    intros E. apply Hs. rewrite <- E. exact Hx.
Qed.

(** C5, as the code has it.  For a registered file [f] and a list [ts] of
    tag names other than ["__ALL__"], [set_tags(f, ts)] succeeds and
    [get_tags(f)] then reports exactly the names of [ts], whatever the file
    was tagged with before: an empty list clears the tags; every listed
    name is borne by exactly one tag afterwards (created if it was absent);
    and calling [set_tags(f, ts)] a second time creates no tag and yields
    the same set again. *)
Theorem set_tags_full_replace (f : ref) (ts : list string) (c : conn) :
  wf_db (work c) -> file_exists (work c) f -> ~ In "__ALL__" ts ->
  exists (c1 c2 : conn) (l : list value),
    Files.set_tags f (map RName ts) c = (Ok true, c1)
    /\ Files.get_tags f c1 = (Ok l, c2)
    /\ (forall v, In v l <-> In v (map VText ts))
    /\ (ts = [] -> l = [])
    /\ (forall t, In t ts ->
                  List.length (filter (tag_has_name (VText t)) (tags (work c1))) = 1%nat)
    /\ exists (c3 c4 : conn) (l' : list value),
        Files.set_tags f (map RName ts) c1 = (Ok true, c3)
        /\ Files.get_tags f c3 = (Ok l', c4)
        /\ (forall v, In v l' <-> In v (map VText ts))
        /\ tags (work c3) = tags (work c1).
Proof.
  intros Hwf Hex Hs.
  destruct (set_tags_then_get_tags f ts c Hwf Hex Hs) as [c1 [c2 [H1 [H2 [Hwf1 [Hex1 Hone]]]]]].
  destruct (set_tags_then_get_tags f ts c1 Hwf1 Hex1 Hs) as [c3 [c4 [H3 [H4 _]]]].
  exists c1, c2, (map VText ts).
  split; [exact H1|]. split; [exact H2|]. split; [intros v; reflexivity|].
  split; [intros E; rewrite E; reflexivity|]. split; [exact Hone|].
  exists c3, c4, (map VText ts).
  split; [exact H3|]. split; [exact H4|]. split; [intros v; reflexivity|].
  change c3 with (snd (Ok true, c3)). rewrite <- H3.
  apply set_tags_existing_keeps_tags; [exact Hwf1 | exact Hs|].
  intros t Ht. specialize (Hone t Ht).
  destruct (filter (tag_has_name (VText t)) (tags (work c1))) as [|x r] eqn:F;
    [discriminate Hone|].
  assert (Hin : In x (filter (tag_has_name (VText t)) (tags (work c1))))
    by (rewrite F; left; reflexivity).
  apply filter_In in Hin. destruct Hin as [Hin Hn].
  unfold tag_has_name in Hn. rewrite sql_eq_text in Hn. apply String.eqb_eq in Hn.
  exists (tag_id x). destruct x as [xi xn]. simpl in Hn. subst xn. exact Hin.
Qed.

Lemma set_tags_full_replace_witness :
  exists (c1 c2 : conn) (l : list value),
    Files.set_tags (RName "a.jpg") (map RName ["x"; "photo"]) photo_conn = (Ok true, c1)
    /\ Files.get_tags (RName "a.jpg") c1 = (Ok l, c2)
    /\ (forall v, In v l <-> In v (map VText ["x"; "photo"]))
    /\ (["x"; "photo"] = [] -> l = [])
    /\ (forall t, In t ["x"; "photo"] ->
                  List.length (filter (tag_has_name (VText t)) (tags (work c1))) = 1%nat)
    /\ exists (c3 c4 : conn) (l' : list value),
        Files.set_tags (RName "a.jpg") (map RName ["x"; "photo"]) c1 = (Ok true, c3)
        /\ Files.get_tags (RName "a.jpg") c3 = (Ok l', c4)
        /\ (forall v, In v l' <-> In v (map VText ["x"; "photo"]))
        /\ tags (work c3) = tags (work c1).
Proof.
  apply (set_tags_full_replace (RName "a.jpg") ["x"; "photo"] photo_conn).
  - exact photo_db_wf.
  - simpl. left. reflexivity.
  - simpl. intros [H|[H|H]]; [discriminate H | discriminate H | exact H].
Defined.

(** C5 as stated fails for the name of the sentinel: on [photo_conn],
    [set_tags("a.jpg", ["__ALL__"])] stores the association [(-1, 1)] and
    creates no tag, and [get_tags("a.jpg")] then reports no tag at all. *)
Lemma set_tags_sentinel_not_reported :
  let c1 := snd (Files.set_tags (RName "a.jpg") [RName "__ALL__"] photo_conn) in
  file_exists (work photo_conn) (RName "a.jpg")
  /\ fst (Files.set_tags (RName "a.jpg") [RName "__ALL__"] photo_conn) = Ok true
  /\ tag_files (work c1) = [mk_tag_file (VInt (-1)) (VInt 1)]
  /\ fst (Files.get_tags (RName "a.jpg") c1) = Ok []
  /\ ~ (forall v, In v [] <-> In v (map VText ["__ALL__"])).
Proof.
  cbv zeta. split; [simpl; left; reflexivity|].
  split; [vm_compute; reflexivity|]. split; [vm_compute; reflexivity|].
  split; [vm_compute; reflexivity|].
  intros H. destruct (proj2 (H (VText "__ALL__"))). left. reflexivity.
Qed.

(** ** Methods depend on the store only *)

Lemma same_store_refl (c : conn) : same_store c c.
Proof. split; reflexivity. Qed.

Lemma same_store_logged (t u : list event) (c1 c2 : conn) :
  same_store c1 c2 -> same_store (logged t c1) (logged u c2).
Proof. intros H. exact H. Qed.

Lemma respects_ret {A : Type} (a : A) : respects (ret a).
Proof. intros c1 c2 H. split; [reflexivity | exact H]. Qed.

Lemma respects_commit : respects commit.
Proof.
  intros c1 c2 [Hw Hc]. split; [reflexivity|]. split; simpl; exact Hw.
Qed.

Lemma respects_execute (sql : string) (ps : list value) : respects (execute sql ps).
Proof.
  intros c1 c2 [Hw Hc]. unfold execute. rewrite Hw.
  destruct (prepare sql) as [st|]; [ | split; [reflexivity | split; simpl; auto] ].
  destruct (run st ps (work c2)) as [rs d|e];
    (split; [reflexivity | split; simpl; auto ]).
Qed.

(** Two different methods that end alike, each followed by the same
    store-respecting continuation, end alike. *)
Lemma bind_similar {A B : Type} (m1 m2 : M A) (k : A -> M B) (c1 c2 : conn) :
  same_outcome (m1 c1) (m2 c2) ->
  (forall a, respects (k a)) ->
  same_outcome (bind m1 k c1) (bind m2 k c2).
Proof.
  intros [Hr Hs] Hk. unfold bind.
  destruct (m1 c1) as [r1 c1'], (m2 c2) as [r2 c2']. simpl in Hr, Hs. subst r2.
  destruct r1 as [a|e]; [apply Hk; exact Hs | split; [reflexivity | exact Hs]].
Qed.

Lemma respects_bind {A B : Type} (m : M A) (k : A -> M B) :
  respects m -> (forall a, respects (k a)) -> respects (bind m k).
Proof. intros Hm Hk c1 c2 H. apply bind_similar; [apply Hm; exact H | exact Hk]. Qed.

Lemma Tags_get_id_respects (r : ref) : respects (Tags.get_id r).
Proof.
  destruct r as [i|s]; simpl; [apply respects_ret|].
  destruct (s =? "__ALL__")%string; [apply respects_ret|].
  apply respects_bind; [apply respects_execute | intros rows; apply respects_ret].
Qed.

Lemma Files_get_id_respects (r : ref) : respects (Files.get_id r).
Proof.
  destruct r as [i|s]; simpl; [apply respects_ret|].
  apply respects_bind; [apply respects_execute | intros rows; apply respects_ret].
Qed.

Lemma Tags_new_respects (name : string) : respects (Tags.new name).
Proof.
  unfold Tags.new. destruct (name =? "__ALL__")%string; [apply respects_ret|].
  apply respects_bind; [apply respects_execute | intros _].
  apply respects_bind; [apply respects_commit | intros _; apply respects_ret].
Qed.

Ltac respecting :=
  repeat first
    [ apply respects_ret
    | apply respects_commit
    | apply respects_execute
    | apply Tags_get_id_respects
    | apply Files_get_id_respects
    | apply Tags_new_respects
    | apply respects_bind; [ | intros ? ] ].

Lemma set_tags_step_respects (name : value) (tag : ref) :
  respects (Files.set_tags_step name tag).
Proof.
  unfold Files.set_tags_step.
  apply respects_bind; [apply Tags_get_id_respects | intros i].
  apply respects_bind; [ | intros j; respecting ].
  destruct (is_null i); [ | apply respects_ret ].
  apply respects_bind; [ | intros _; apply Tags_get_id_respects ].
  destruct tag as [k|s]; respecting.
Qed.

Lemma set_tags_loop_respects (name : value) (ts : list ref) :
  respects (Files.set_tags_loop name ts).
Proof.
  induction ts as [|tag rest IH]; simpl; [apply respects_ret|].
  apply respects_bind; [apply set_tags_step_respects | intros _; exact IH].
Qed.

(** The outcome of every handle call depends on the store only. *)
Lemma run_call_respects (k : call) : respects (run_call k).
Proof.
  destruct k; unfold run_call, answering;
    (apply respects_bind; [ | intros ?; apply respects_ret ]).
  - unfold Selections.new. respecting.
  - unfold Selections.remove. respecting.
  - unfold Selections.all_names. respecting.
  - unfold Selections.rename.
    destruct ((src =? "__ALL__")%string || (dst =? "__ALL__")%string); respecting.
  - unfold Selections.resolve. respecting.
  - unfold Selections.exists_, Selections.resolve. respecting.
  - unfold Options.set. respecting.
  - unfold Options.get. respecting.
  - unfold Options.unset. respecting.
  - respecting.
  - unfold Tags.remove. destruct (ref_eq_str name "__ALL__"); respecting.
  - respecting.
  - destruct name as [i|s]; simpl; respecting.
  - unfold Tags.all_names. respecting.
  - unfold Tags.all_ids. respecting.
  - unfold Tags.rename.
    destruct (ref_eq_str src "__ALL__" || (dst =? "__ALL__")%string); [respecting|].
    destruct src as [i|s]; respecting.
  - unfold Tags.exists_. respecting.
  - unfold Files.new. respecting.
  - unfold Files.remove. respecting.
  - respecting.
  - destruct name as [i|s]; simpl; respecting.
  - unfold Files.all_names. respecting.
  - unfold Files.all_ids. respecting.
  - unfold Files.rename. destruct src as [i|s]; respecting.
  - unfold Files.exists_. respecting.
  - unfold Files.get_by_tag, Files.all_names. destruct (ref_eq_str tag "__ALL__"); respecting.
  - unfold Files.add_tag. destruct (ref_eq_str tag "__ALL__"); respecting.
  - unfold Files.remove_tag. destruct (ref_eq_str tag "__ALL__"); respecting.
  - unfold Files.has_tag.
    destruct (ref_eq_str tag "__ALL__" || ref_eq_int tag (-1)); respecting.
  - unfold Files.resolve. destruct name as [i|s]; respecting.
  - unfold Files.get_tags. respecting.
  - unfold Files.set_tags.
    apply respects_bind; [apply Files_get_id_respects | intros i].
    apply respects_bind; [apply respects_execute | intros _].
    apply respects_bind; [apply set_tags_loop_respects | intros _]. respecting.
Qed.

(** ** A tag by its name and by its id *)





Section TagByNameOrId.

Variables (n : string) (i : Z) (d : database).
Hypothesis Hwf : wf_db d.
Hypothesis Hin : In (mk_tag i n) (tags d).

Lemma tag_name_not_sentinel : n <> "__ALL__".
Proof.
  intros E. apply (wf_no_sentinel d Hwf). rewrite <- E.
  change n with (tag_name (mk_tag i n)). apply in_map. exact Hin.
Qed.










End TagByNameOrId.




(** ** A file by its name and by its id *)



Section FileByNameOrId.

Variables (n p : string) (i : Z) (d : database).
Hypothesis Hwf : wf_db d.
Hypothesis Hin : In (mk_file i n p) (files d).
Hypothesis Hone : forall x, In x (files d) -> file_name x = n -> file_id x = i.







End FileByNameOrId.




(** ** A file by its name and by its id, in [matches] *)

Lemma Selections_resolve_spec (n : string) (c : conn) :
  Selections.resolve n c
  = (Ok (selection_value (work c) n),
     logged [Exec "SELECT value FROM selections WHERE name = ?" [VText n]] c).
Proof. unfold Selections.resolve. step. reflexivity. Qed.

(** [select] looks the selection up and runs the join with its text after
    [WHERE]; it returns or raises what SQLite answers. *)
Lemma select_spec (E : engine) (n : string) (c : conn) :
  Selections.select E n c
  = (E (spliced (work c) n) [] (work c),
     logged [Exec "SELECT value FROM selections WHERE name = ?" [VText n];
             Exec (selection_query (spliced (work c) n)) []] c).
Proof.
  unfold Selections.select.
  erewrite bind_ok; [ | apply Selections_resolve_spec ].
  unfold bind, execute_selection, spliced, logged. cbn [work committed trace].
  rewrite <- app_assoc.
  destruct (E (render (selection_value (work c) n)) [] (work c)); reflexivity.
Qed.

(** [matches] does the same with the condition on the file before the
    text, and returns whether a row came back. *)
Lemma matches_spec (E : engine) (n : string) (f : ref) (c : conn) :
  Selections.matches E n f c
  = (match E (file_condition f ++ spliced (work c) n)%string [ref_value f] (work c) with
     | Ok rows => Ok (fetched rows)
     | Raise e => Raise e
     end,
     logged [Exec "SELECT value FROM selections WHERE name = ?" [VText n];
             Exec (selection_query (file_condition f ++ spliced (work c) n)) [ref_value f]] c).
Proof.
  unfold Selections.matches.
  destruct f as [i|s]; cbn [file_condition ref_value];
    unfold bind at 1; erewrite bind_ok; try apply Selections_resolve_spec;
    unfold execute_selection, spliced, logged; cbn [work committed trace];
    rewrite <- app_assoc;
    match goal with |- context [E ?t ?ps ?d] => destruct (E t ps d) end; reflexivity.
Qed.




(** ** Reference interchangeability *)




(** ** The sample stores are reachable *)

Lemma photo_conn_reachable :
  exists c : conn, reachable c /\ work c = photo_db /\ committed c = photo_db.
Proof.
  exists (snd (run_call (Selections_new "by_photo" "tags.name='photo'")
          (snd (run_call (Files_add_tag (RName "a.jpg") (RName "photo"))
          (snd (run_call (Files_new "a.jpg" "/srv/a.jpg")
          (snd (run_call (Tags_new "photo") fresh_conn)))))))).
  split; [repeat constructor | split; vm_compute; reflexivity].
Qed.

Lemma twins_conn_reachable :
  exists c : conn, reachable c /\ work c = twins_db /\ committed c = twins_db.
Proof.
  exists (snd (run_call (Files_new "a" "/y/a")
          (snd (run_call (Files_new "a" "/x/a") fresh_conn)))).
  split; [repeat constructor | split; vm_compute; reflexivity].
Qed.

(** ** Queries *)

Lemma reads_only_ret {A : Type} (a : A) : reads_only (ret a).
Proof. intros c. exists a, []. rewrite logged_nil. split; reflexivity. Qed.

Lemma reads_only_bind {A B : Type} (m : M A) (k : A -> M B) :
  reads_only m -> (forall a, reads_only (k a)) -> reads_only (bind m k).
Proof.
  intros Hm Hk c. destruct (Hm c) as [a [t [H Ht]]].
  destruct (Hk a (logged t c)) as [b [u [H' Hu]]].
  exists b, (t ++ u). split.
  - rewrite (bind_ok m k c _ a H), H', logged_logged. reflexivity.
  - rewrite commits_app, Ht, Hu. reflexivity.
Qed.

Lemma reads_only_execute (sql : string) (st : stmt) (ps : list value) :
  prepare sql = Some st ->
  (forall d, exists rs, run st ps d = Rows rs d) ->
  reads_only (execute sql ps).
Proof.
  intros Hp Hr c. destruct (Hr (work c)) as [rs Hrun].
  exists rs, [Exec sql ps]. split; [ | reflexivity ].
  rewrite (execute_rows sql st ps rs (work c) c Hp Hrun). reflexivity.
Qed.

Ltac reading :=
  repeat first
    [ apply reads_only_ret
    | apply reads_only_bind; [ | intros ? ]
    | eapply reads_only_execute; [ reflexivity | intros ?; simpl; eexists; reflexivity ] ].

Lemma Tags_get_id_reads (r : ref) : reads_only (Tags.get_id r).
Proof.
  destruct r as [i|s]; simpl; [reading|]. destruct (s =? "__ALL__")%string; reading.
Qed.

Lemma Files_get_id_reads (r : ref) : reads_only (Files.get_id r).
Proof. destruct r as [i|s]; simpl; reading. Qed.

Lemma run_call_reads (k : call) : is_query k = true -> reads_only (run_call k).
Proof.
  destruct k; simpl; intros Hq; try discriminate Hq; unfold answering;
    (apply reads_only_bind; [ | intros ?; apply reads_only_ret ]).
  - unfold Selections.all_names. reading.
  - unfold Selections.resolve. reading.
  - unfold Selections.exists_, Selections.resolve. reading.
  - unfold Options.get. reading.
  - apply Tags_get_id_reads.
  - destruct name as [i|s]; simpl; reading.
  - unfold Tags.all_names. reading.
  - unfold Tags.all_ids. reading.
  - unfold Tags.exists_. apply reads_only_bind; [apply Tags_get_id_reads | intros i; reading].
  - apply Files_get_id_reads.
  - destruct name as [i|s]; simpl; reading.
  - unfold Files.all_names. reading.
  - unfold Files.all_ids. reading.
  - unfold Files.exists_. apply reads_only_bind; [apply Files_get_id_reads | intros i; reading].
  - unfold Files.get_by_tag, Files.all_names. destruct (ref_eq_str tag "__ALL__"); [reading|].
    apply reads_only_bind; [apply Tags_get_id_reads | intros i; reading].
  - unfold Files.has_tag.
    destruct (ref_eq_str tag "__ALL__" || ref_eq_int tag (-1)); [reading|].
    apply reads_only_bind; [apply Tags_get_id_reads | intros i].
    apply reads_only_bind; [apply Files_get_id_reads | intros j; reading].
  - unfold Files.resolve. destruct name as [i|s]; reading.
  - unfold Files.get_tags. apply reads_only_bind; [apply Files_get_id_reads | intros i; reading].
Qed.

(** X1.  The lookup methods ([get_id], [get_name], [exists], [all_names],
    [all_ids], [get_by_tag], [has_tag], [resolve], [get_tags],
    [Options.get], [Selections.resolve], [exists], [all_names]) always
    return, whatever name they are given and whatever id that fits in 64
    bits, existing or not: they raise nothing, commit nothing, and leave
    the working and the committed database as they were. *)
Theorem queries_read_only (k : call) (c : conn) :
  is_query k = true ->
  call_fits k = true ->
  exists (a : answer) (t : list event),
    run_call k c = (Ok a, logged t c) /\ commits t = [].
Proof. intros Hq _. exact (run_call_reads k Hq c). Qed.

Lemma queries_read_only_witness :
  exists (a : answer) (t : list event),
    run_call (Files_get_tags (RName "no such file")) photo_conn = (Ok a, logged t photo_conn)
    /\ commits t = [].
Proof.
  apply (queries_read_only (Files_get_tags (RName "no such file")) photo_conn);
    reflexivity.
Defined.

(** ** Exceptions *)

Lemma never_raises_ret {A : Type} (a : A) : never_raises (ret a).
Proof. intros c. exists a, c. reflexivity. Qed.

Lemma never_raises_commit : never_raises commit.
Proof. intros c. eexists. eexists. reflexivity. Qed.

Lemma never_raises_bind {A B : Type} (m : M A) (k : A -> M B) :
  never_raises m -> (forall a, never_raises (k a)) -> never_raises (bind m k).
Proof.
  intros Hm Hk c. destruct (Hm c) as [a [c1 H]].
  destruct (Hk a c1) as [b [c2 H']]. exists b, c2.
  rewrite (bind_ok m k c c1 a H). exact H'.
Qed.

Lemma never_raises_execute (sql : string) (st : stmt) (ps : list value) :
  prepare sql = Some st ->
  (forall d, exists rs d', run st ps d = Rows rs d') ->
  never_raises (execute sql ps).
Proof.
  intros Hp Hr c. destruct (Hr (work c)) as [rs [d' Hrun]].
  eexists. eexists. apply (execute_rows sql st ps rs d' c Hp Hrun).
Qed.

Lemma reads_only_never_raises {A : Type} (m : M A) : reads_only m -> never_raises m.
Proof. intros H c. destruct (H c) as [a [t [E _]]]. exists a, (logged t c). exact E. Qed.

Ltac returning :=
  repeat first
    [ apply never_raises_ret
    | apply never_raises_commit
    | apply reads_only_never_raises, Tags_get_id_reads
    | apply reads_only_never_raises, Files_get_id_reads
    | apply never_raises_bind; [ | intros ? ]
    | eapply never_raises_execute;
      [ reflexivity | intros ?; simpl; eexists; eexists; reflexivity ] ].

Lemma set_tags_never_raises (f : ref) (ts : list ref) : never_raises (Files.set_tags f ts).
Proof.
  intros c. destruct (set_tags_spec f ts c) as [t [H _]]. cbv zeta in H.
  eexists. eexists. exact H.
Qed.

(** The calls that [raises] does not list return, their parameters being
    bound. *)
Lemma run_call_never_raises (k : call) : raises k = None -> never_raises (run_call k).
Proof.
  intros Hk. destruct (is_query k) eqn:Hq.
  - apply reads_only_never_raises, run_call_reads, Hq.
  - destruct k; simpl in Hk, Hq; try discriminate Hk; try discriminate Hq;
      unfold run_call, answering;
      (apply never_raises_bind; [ | intros ?; apply never_raises_ret ]).
    + unfold Selections.remove. returning.
    + unfold Options.set. returning.
    + unfold Tags.remove. destruct (ref_eq_str name "__ALL__"); returning.
    + unfold Files.new. returning.
    + unfold Files.remove. returning.
    + unfold Files.rename. destruct src as [i|s]; returning.
    + unfold Files.add_tag. destruct (ref_eq_str tag "__ALL__"); returning.
    + unfold Files.remove_tag. destruct (ref_eq_str tag "__ALL__"); returning.
    + apply set_tags_never_raises.
Qed.

(** What is known when [execute] raises. *)
Lemma execute_raise_inv (sql : string) (ps : list value) (c : conn) (e : exn) :
  fst (execute sql ps c) = Raise e ->
  snd (execute sql ps c) = logged [Exec sql ps] c
  /\ ((prepare sql = None /\ e = OperationalError)
      \/ exists st, prepare sql = Some st /\ run st ps (work c) = Fail e).
Proof.
  unfold execute. destruct (prepare sql) as [st|].
  - destruct (run st ps (work c)) as [rs d|e'] eqn:Hr; simpl; intros H; [discriminate H|].
    injection H as H. subst e'. split; [reflexivity|]. right. exists st.
    split; first [reflexivity | exact Hr].
  - simpl. intros H. injection H as H. subst e. split; [reflexivity|]. left. split; reflexivity.
Qed.

(** A method that executes one statement and then only commits and
    returns: if it raises, the statement raised, and nothing happened. *)
Lemma statement_raise_inv {B : Type} (sql : string) (ps : list value) (b : B) (c : conn)
      (e : exn) :
  fst ((execute sql ps ;; commit ;; ret b) c) = Raise e ->
  snd ((execute sql ps ;; commit ;; ret b) c) = logged [Exec sql ps] c
  /\ ((prepare sql = None /\ e = OperationalError)
      \/ exists st, prepare sql = Some st /\ run st ps (work c) = Fail e).
Proof.
  unfold bind at 1 3. destruct (execute sql ps c) as [[rs|e'] c1] eqn:H.
  - simpl. intros F. discriminate F.
  - simpl. intros F. injection F as F. subst e'.
    pose proof (execute_raise_inv sql ps c e) as Hinv. rewrite H in Hinv.
    apply Hinv. reflexivity.
Qed.

Lemma answering_raise {A : Type} (f : A -> answer) (m : M A) (c : conn) (e : exn) :
  fst (answering f m c) = Raise e -> fst (m c) = Raise e /\ snd (answering f m c) = snd (m c).
Proof.
  unfold answering, bind. destruct (m c) as [[a|e'] c1]; simpl; intros H; [discriminate H|].
  injection H as H. subst e'. split; reflexivity.
Qed.

Ltac fail_kind H :=
  simpl in H;
  repeat match type of H with
         | (if ?b then _ else _) = _ => destruct b
         end;
  first [ discriminate H | injection H as H; first [exact H | symmetry; exact H] ].

Lemma fixed_call_raise (k : call) (c : conn) (e : exn) :
  fst (run_call k c) = Raise e ->
  raises k = Some e
  /\ same_store (snd (run_call k c)) c
  /\ commits (trace (snd (run_call k c))) = commits (trace c).
Proof.
  intros H. destruct (raises k) as [e0|] eqn:Hk.
  2:{ destruct (run_call_never_raises k Hk c) as [a [c' E]]. rewrite E in H. discriminate H. }
  destruct k; simpl in Hk; try discriminate Hk; injection Hk as Hk; subst e0;
    unfold run_call in *; apply answering_raise in H; destruct H as [H Hsnd]; rewrite Hsnd.
  - (* Selections.new *)
    unfold Selections.new in *. destruct (statement_raise_inv _ _ _ _ _ H) as [Hc [[F _]|[st [Hp Hr]]]];
      [discriminate F|]. injection Hp as Hp. subst st. rewrite Hc.
    split; [f_equal; fail_kind Hr|]. split; [split; reflexivity|].
    unfold logged. simpl. rewrite commits_app. simpl. apply app_nil_r.
  - (* Selections.rename *)
    unfold Selections.rename in *.
    destruct ((src =? "__ALL__")%string || (dst =? "__ALL__")%string); [discriminate H|].
    destruct (statement_raise_inv _ _ _ _ _ H) as [Hc [[F _]|[st [Hp Hr]]]];
      [discriminate F|]. injection Hp as Hp. subst st. rewrite Hc.
    split; [f_equal; fail_kind Hr|]. split; [split; reflexivity|].
    unfold logged. simpl. rewrite commits_app. simpl. apply app_nil_r.
  - (* Options.unset *)
    unfold Options.unset, bind in *.
    rewrite (execute_syntax_error "REMOVE FROM options WHERE name = ?" [VText name] c eq_refl) in *.
    simpl in H. injection H as H. subst e. cbn [snd].
    split; [reflexivity|]. split; [split; reflexivity|].
    unfold logged. simpl. rewrite commits_app. simpl. apply app_nil_r.
  - (* Tags.new *)
    unfold Tags.new in *. destruct (name =? "__ALL__")%string; [discriminate H|].
    destruct (statement_raise_inv _ _ _ _ _ H) as [Hc [[F _]|[st [Hp Hr]]]];
      [discriminate F|]. injection Hp as Hp. subst st. rewrite Hc.
    split; [f_equal; fail_kind Hr|]. split; [split; reflexivity|].
    unfold logged. simpl. rewrite commits_app. simpl. apply app_nil_r.
  - (* Tags.rename *)
    unfold Tags.rename in *.
    destruct (ref_eq_str src "__ALL__" || (dst =? "__ALL__")%string); [discriminate H|].
    destruct src as [i|s];
      (destruct (statement_raise_inv _ _ _ _ _ H) as [Hc [[F _]|[st [Hp Hr]]]];
       [discriminate F|]; injection Hp as Hp; subst st; rewrite Hc;
       (split; [f_equal; fail_kind Hr|]); (split; [split; reflexivity|]);
       unfold logged; simpl; rewrite commits_app; simpl; apply app_nil_r).
Qed.

(** [select] and [matches] change nothing, whether they return or raise. *)
Lemma select_store (E : engine) (n : string) (c : conn) :
  same_store (snd (Selections.select E n c)) c
  /\ commits (trace (snd (Selections.select E n c))) = commits (trace c).
Proof.
  rewrite select_spec. cbn [snd]. split; [split; reflexivity|].
  unfold logged. cbn [trace]. rewrite commits_app. simpl. apply app_nil_r.
Qed.

Lemma matches_store (E : engine) (n : string) (f : ref) (c : conn) :
  same_store (snd (Selections.matches E n f c)) c
  /\ commits (trace (snd (Selections.matches E n f c))) = commits (trace c).
Proof.
  rewrite matches_spec. cbn [snd]. split; [split; reflexivity|].
  unfold logged. cbn [trace]. rewrite commits_app. simpl. apply app_nil_r.
Qed.

Lemma answering_snd {A : Type} (f : A -> answer) (m : M A) (c : conn) :
  snd (answering f m c) = snd (m c).
Proof. unfold answering, bind, ret. destruct (m c) as [[a|e] c1]; reflexivity. Qed.

(** X2.  When the integers it is given fit in 64 bits, a handle call
    raises only where SQLite refuses the statement.  Of the methods with
    fixed statements, [Tags.new], [Tags.rename], [Selections.new] and
    [Selections.rename] can raise, with [IntegrityError] (a name that must
    be unique is taken), and [Options.unset], with [OperationalError]; the
    others always return.  [select] and [matches] raise what SQLite raises
    on the statement with the text of the selection spliced in ([None]
    for a missing selection).  A call that raises has changed nothing:
    the working and the committed database are as before, and nothing was
    committed. *)
Theorem only_store_errors (E : engine) (m : method) (c : conn) (e : exn) :
  method_fits m = true ->
  fst (run_method E m c) = Raise e ->
  match m with
  | Fixed k => raises k = Some e
  | Selections_select n => E (spliced (work c) n) [] (work c) = Raise e
  | Selections_matches n f =>
      E (file_condition f ++ spliced (work c) n)%string [ref_value f] (work c) = Raise e
  end
  /\ same_store (snd (run_method E m c)) c
  /\ commits (trace (snd (run_method E m c))) = commits (trace c).
Proof.
  intros _ H. destruct m as [k|n|n f]; cbn [run_method] in *.
  - exact (fixed_call_raise k c e H).
  - rewrite answering_snd. split; [ | apply select_store ].
    apply answering_raise in H. destruct H as [H _]. rewrite select_spec in H. exact H.
  - rewrite answering_snd. split; [ | apply matches_store ].
    apply answering_raise in H. destruct H as [H _]. rewrite matches_spec in H.
    cbn [fst] in H.
    destruct (E (file_condition f ++ spliced (work c) n)%string [ref_value f] (work c)) as [rows|e'];
      [discriminate H | injection H as H; rewrite H; reflexivity].
Qed.

Lemma only_store_errors_witness :
  (raises (Tags_new "photo") = Some IntegrityError
   /\ same_store (snd (run_method sample_engine (Fixed (Tags_new "photo")) photo_conn)) photo_conn
   /\ commits (trace (snd (run_method sample_engine (Fixed (Tags_new "photo")) photo_conn)))
      = commits (trace photo_conn))
  /\ (sample_engine (spliced (work photo_conn) "no such selection") [] (work photo_conn)
      = Raise OperationalError
      /\ same_store (snd (run_method sample_engine (Selections_select "no such selection")
                                     photo_conn)) photo_conn
      /\ commits (trace (snd (run_method sample_engine (Selections_select "no such selection")
                                         photo_conn)))
         = commits (trace photo_conn)).
Proof.
  split.
  - apply (only_store_errors sample_engine (Fixed (Tags_new "photo")) photo_conn IntegrityError);
      reflexivity.
  - apply (only_store_errors sample_engine (Selections_select "no such selection") photo_conn
                             OperationalError); reflexivity.
Defined.

(** ** Nothing stays uncommitted *)

Lemma settles_reads {A : Type} (m : M A) : reads_only m -> settles m.
Proof. intros H c Hc. destruct (H c) as [a [t [E _]]]. rewrite E. exact Hc. Qed.

Lemma settles_ret {A : Type} (a : A) : settles (ret a).
Proof. intros c H. exact H. Qed.

Lemma settles_bind {A B : Type} (m : M A) (k : A -> M B) :
  settles m -> (forall a, settles (k a)) -> settles (bind m k).
Proof.
  intros Hm Hk c H. unfold bind. specialize (Hm c H).
  destruct (m c) as [[a|e] c1]; simpl in Hm; [apply Hk; exact Hm | exact Hm].
Qed.

(** A statement followed by something that always ends committed: either
    the statement raises and nothing happened, or all is committed. *)
Lemma settles_execute_then {B : Type} (sql : string) (ps : list value)
      (k : list value -> M B) :
  (forall rs c, settled (snd (k rs c))) -> settles (bind (execute sql ps) k).
Proof.
  intros Hk c H. unfold bind, execute.
  destruct (prepare sql) as [st|]; [ | exact H ].
  destruct (run st ps (work c)) as [rs d|e]; [apply Hk | exact H].
Qed.

Ltac settling :=
  repeat first
    [ apply settles_ret
    | apply settles_reads, Tags_get_id_reads
    | apply settles_reads, Files_get_id_reads
    | apply settles_execute_then; intros ? ?; reflexivity
    | apply settles_bind; [ | intros ? ] ].

Lemma run_call_settles (k : call) : settles (run_call k).
Proof.
  destruct (is_query k) eqn:Hq; [apply settles_reads, run_call_reads, Hq|].
  destruct k; simpl in Hq; try discriminate Hq; unfold run_call, answering;
    (apply settles_bind; [ | intros ?; apply settles_ret ]).
  - unfold Selections.new. settling.
  - unfold Selections.remove. settling.
  - unfold Selections.rename.
    destruct ((src =? "__ALL__")%string || (dst =? "__ALL__")%string); settling.
  - unfold Options.set. settling.
  - unfold Options.unset. settling.
  - unfold Tags.new. destruct (name =? "__ALL__")%string; settling.
  - match goal with |- settles (Tags.remove ?r) =>
      intros c H; destruct (ref_eq_str r "__ALL__") eqn:E;
      [ unfold Tags.remove; rewrite E; exact H
      | rewrite (Tags_remove_spec r c E); reflexivity ] end.
  - unfold Tags.rename.
    destruct (ref_eq_str src "__ALL__" || (dst =? "__ALL__")%string); [settling|].
    destruct src as [i|s]; settling.
  - unfold Files.new. settling.
  - match goal with |- settles (Files.remove ?r) =>
      intros c H; rewrite (Files_remove_spec r c); reflexivity end.
  - unfold Files.rename. destruct src as [i|s]; settling.
  - unfold Files.add_tag. destruct (ref_eq_str tag "__ALL__"); settling.
  - unfold Files.remove_tag. destruct (ref_eq_str tag "__ALL__"); settling.
  - match goal with |- settles (Files.set_tags ?f ?ts) =>
      intros c H; destruct (set_tags_spec f ts c) as [t [E _]] end.
    cbv zeta in E. rewrite E. reflexivity.
Qed.

(** X3.  Between handle calls nothing is pending: in every connection
    that a program reaches from a fresh store with calls whose integers
    fit in 64 bits, the committed database is the working database.
    Every mutating method commits before it returns, a method that raises
    has changed nothing, and [select] and [matches] only read. *)
Theorem served_settled (E : engine) (c : conn) : served E c -> committed c = work c.
Proof.
  induction 1 as [|m c _ _ IH]; [reflexivity|].
  destruct m as [k|n|n f]; cbn [run_method].
  - apply run_call_settles. exact IH.
  - rewrite answering_snd. destruct (select_store E n c) as [[Hw Hc] _].
    rewrite Hw, Hc. exact IH.
  - rewrite answering_snd. destruct (matches_store E n f c) as [[Hw Hc] _].
    rewrite Hw, Hc. exact IH.
Qed.

Lemma served_settled_witness :
  let c := snd (run_method sample_engine (Selections_matches "no such selection" (RId 1))
           (snd (run_method sample_engine (Fixed (Files_set_tags (RId 1) [RName "x"]))
           (snd (run_method sample_engine (Fixed (Tags_rename (RName "x") "__ALL__"))
                            fresh_conn))))) in
  committed c = work c.
Proof.
  apply (served_settled sample_engine).
  apply served_method; [reflexivity|].
  apply served_method; [reflexivity|].
  apply served_method; [reflexivity|].
  apply served_fresh.
Defined.

(** [select] and [matches] add no store to those that the other methods
    reach. *)
Lemma served_store_reachable (E : engine) (c : conn) :
  served E c -> exists c' : conn, reachable c' /\ same_store c c'.
Proof.
  induction 1 as [|m c _ _ [c' [Hr Hs]]].
  - exists fresh_conn. split; [constructor | apply same_store_refl].
  - destruct m as [k|n|n f]; cbn [run_method].
    + exists (snd (run_call k c')). split; [constructor; exact Hr|].
      apply (run_call_respects k c c' Hs).
    + exists c'. split; [exact Hr|]. rewrite answering_snd.
      destruct (select_store E n c) as [[Hw Hc] _]. destruct Hs as [Hw' Hc'].
      split; congruence.
    + exists c'. split; [exact Hr|]. rewrite answering_snd.
      destruct (matches_store E n f c) as [[Hw Hc] _]. destruct Hs as [Hw' Hc'].
      split; congruence.
Qed.

Lemma served_wf (E : engine) (c : conn) : served E c -> wf_db (work c).
Proof.
  intros H. destruct (served_store_reachable E c H) as [c' [Hr [Hw _]]].
  rewrite Hw. apply reachable_wf. exact Hr.
Qed.

(** X4.  In every connection reachable from a fresh store the working
    database is well formed: tag ids, tag names, file ids, option names
    and selection names are unique, all ids are positive, and no tag is
    named ["__ALL__"]. *)
Theorem reachable_store_well_formed (c : conn) : reachable c -> wf_db (work c).
Proof.
  induction 1 as [|k c _ IH]; [exact empty_db_wf|].
  apply run_call_preserves. exact IH.
Qed.

Lemma reachable_store_well_formed_witness :
  wf_db (work (snd (run_call (Files_set_tags (RId 1) [RName "x"; RName "__ALL__"])
                             (snd (run_call (Tags_new "x") fresh_conn))))).
Proof.
  apply (reachable_store_well_formed
           (snd (run_call (Files_set_tags (RId 1) [RName "x"; RName "__ALL__"])
                          (snd (run_call (Tags_new "x") fresh_conn))))).
  apply reachable_call. apply reachable_call. apply reachable_fresh.
Defined.

(** ** What the methods compute *)

Lemma has_tag_spec (f t : ref) (c : conn) :
  ref_eq_str t "__ALL__" || ref_eq_int t (-1) = false ->
  fst (Files.has_tag f t c)
  = Ok (0 <? List.length (association_rows (work c) (tag_id_of (work c) t)
                                           (file_id_of (work c) f)))%nat.
Proof.
  intros Hg. unfold Files.has_tag. rewrite Hg.
  erewrite bind_ok; [ | apply Tags_get_id_spec ].
  erewrite bind_ok; [ | apply Files_get_id_spec ].
  step. unfold ret, fetch_first, association_rows. simpl. rewrite length_map. reflexivity.
Qed.

Lemma get_by_tag_spec (t : ref) (c : conn) :
  ref_eq_str t "__ALL__" = false ->
  fst (Files.get_by_tag t c) = Ok (join_files (tag_id_of (work c) t) (work c)).
Proof.
  intros Hg. unfold Files.get_by_tag. rewrite Hg.
  erewrite bind_ok; [ | apply Tags_get_id_spec ].
  step. reflexivity.
Qed.

Lemma get_tags_spec (f : ref) (c : conn) :
  fst (Files.get_tags f c) = Ok (join_tags (file_id_of (work c) f) (work c)).
Proof.
  unfold Files.get_tags.
  erewrite bind_ok; [ | apply Files_get_id_spec ].
  step. reflexivity.
Qed.

Lemma remove_tag_spec (f t : ref) (c : conn) :
  ref_eq_str t "__ALL__" = false ->
  exists u : list event,
    Files.remove_tag f t c
    = (Ok true,
       let d := with_tag_files (work c)
                  (filter (fun tf => negb (sql_eq (tf_tag_id tf) (tag_id_of (work c) t)
                                           && sql_eq (tf_file_id tf) (file_id_of (work c) f)))
                          (tag_files (work c))) in
       mk_conn d d (trace c ++ u)).
Proof.
  intros Hg. unfold Files.remove_tag. rewrite Hg.
  erewrite bind_ok; [ | apply Tags_get_id_spec ].
  erewrite bind_ok; [ | apply Files_get_id_spec ].
  step. step. unfold ret, logged. simpl. repeat rewrite <- app_assoc.
  eexists. reflexivity.
Qed.

Lemma Tags_get_id_value (r : ref) (c : conn) :
  fst (Tags.get_id r c) = Ok (tag_id_of (work c) r).
Proof. rewrite Tags_get_id_spec. reflexivity. Qed.

Lemma Files_get_id_value (r : ref) (c : conn) :
  fst (Files.get_id r c) = Ok (file_id_of (work c) r).
Proof. rewrite Files_get_id_spec. reflexivity. Qed.

Lemma Tags_exists_value (r : ref) (c : conn) :
  fst (Tags.exists_ r c) = Ok (negb (is_null (tag_id_of (work c) r))).
Proof.
  unfold Tags.exists_. erewrite bind_ok; [ | apply Tags_get_id_spec ]. reflexivity.
Qed.

Lemma Files_exists_value (r : ref) (c : conn) :
  fst (Files.exists_ r c) = Ok (negb (is_null (file_id_of (work c) r))).
Proof.
  unfold Files.exists_. erewrite bind_ok; [ | apply Files_get_id_spec ]. reflexivity.
Qed.

Lemma sql_eq_null_r (a : value) : sql_eq a VNull = false.
Proof. destruct a; reflexivity. Qed.

Lemma filter_all {A : Type} (f : A -> bool) (l : list A) :
  (forall x, In x l -> f x = true) -> filter f l = l.
Proof.
  induction l as [|a l IH]; simpl; intros H; [reflexivity|].
  rewrite (H a (or_introl eq_refl)). f_equal. apply IH. intros x Hx. apply H. right. exact Hx.
Qed.

(** ** Options *)

Lemma Options_get_value (n : string) (c : conn) :
  fst (Options.get n c)
  = Ok (fetchone_first (map opt_value (filter (opt_has_name (VText n)) (options (work c))))).
Proof. unfold Options.get. step. reflexivity. Qed.

(** X5.  [Options.set] is an upsert and [get] reads it back: for a value
    [v] that can be bound ([None], a [str], an [int] that fits in 64
    bits), after [set(n, v)], [get(n)] returns [v], exactly one row is
    named [n] (an earlier value is replaced, not shadowed), every other
    option reads as before, and the change is committed. *)
Theorem options_set_then_get (n : string) (v : value) (c : conn) :
  bindable v = true ->
  exists c1 : conn,
    Options.set n v c = (Ok tt, c1)
    /\ fst (Options.get n c1) = Ok v
    /\ List.length (filter (opt_has_name (VText n)) (options (work c1))) = 1%nat
    /\ (forall m : string, m <> n -> fst (Options.get m c1) = fst (Options.get m c))
    /\ committed c1 = work c1.
Proof.
  intros _.
  assert (Hself : filter (opt_has_name (VText n))
                         (filter (fun o => negb (opt_has_name (VText n) o)) (options (work c))
                            ++ [mk_option n v])
                  = [mk_option n v]).
  { rewrite filter_app. rewrite filter_none.
    - simpl. unfold opt_has_name. rewrite sql_eq_text. simpl. rewrite String.eqb_refl. reflexivity.
    - intros x Hx. apply filter_In in Hx. destruct Hx as [_ Hx].
      apply negb_true_iff in Hx. exact Hx. }
  eexists. split; [ | split; [ | split; [ | split ] ] ].
  - unfold Options.set. step. reflexivity.
  - rewrite Options_get_value. cbn [work options with_options]. rewrite Hself. reflexivity.
  - cbn [work options with_options]. rewrite Hself. reflexivity.
  - intros m Hm. rewrite !Options_get_value. cbn [work options with_options].
    rewrite filter_app. cbn [filter].
    assert (E : opt_has_name (VText m) (mk_option n v) = false).
    { unfold opt_has_name. rewrite sql_eq_text. simpl. apply String.eqb_neq.
      intros F. apply Hm. symmetry. exact F. }
    rewrite E, app_nil_r. f_equal. f_equal. f_equal. clear Hself.
    induction (options (work c)) as [|o l IH]; simpl; [reflexivity|].
    destruct (opt_has_name (VText n) o) eqn:En; simpl.
    + assert (Eo : opt_has_name (VText m) o = false).
      { unfold opt_has_name in *. rewrite sql_eq_text in *. apply String.eqb_eq in En.
        apply String.eqb_neq. intros F. apply Hm. rewrite <- F, En. reflexivity. }
      rewrite Eo. exact IH.
    + destruct (opt_has_name (VText m) o); [f_equal|]; exact IH.
  - reflexivity.
Qed.

Lemma options_set_then_get_witness :
  exists c1 : conn,
    Options.set "base_dir" (VText "/srv") photo_conn = (Ok tt, c1)
    /\ fst (Options.get "base_dir" c1) = Ok (VText "/srv")
    /\ List.length (filter (opt_has_name (VText "base_dir")) (options (work c1))) = 1%nat
    /\ (forall m : string, m <> "base_dir" ->
                           fst (Options.get m c1) = fst (Options.get m photo_conn))
    /\ committed c1 = work c1.
Proof. exact (options_set_then_get "base_dir" (VText "/srv") photo_conn eq_refl). Defined.

(** ** Tags: creation *)

Lemma fetchone_first_app (a b : list value) :
  a <> [] -> fetchone_first (a ++ b) = fetchone_first a.
Proof. destruct a; [intros H; destruct (H eq_refl) | reflexivity]. Qed.

(** X6.  A new tag can be looked up at once.  For a name [n] other than
    ["__ALL__"] that no tag bears, [Tags.new(n)] returns [True] and gives
    the tag an id no tag had; then [get_id(n)] returns that id,
    [get_name(id)] returns [n], [exists(n)] is [True], [all_names()] is
    the former list followed by [n], and every reference that resolved
    before resolves to the same id. *)
Theorem tags_new_then_lookup (n : string) (c : conn) :
  n <> "__ALL__" ->
  ~ In n (map tag_name (tags (work c))) ->
  exists (c1 : conn) (i : Z),
    Tags.new n c = (Ok true, c1)
    /\ ~ In i (map tag_id (tags (work c)))
    /\ fst (Tags.get_id (RName n) c1) = Ok (VInt i)
    /\ fst (Tags.get_name (RId i) c1) = Ok (VText n)
    /\ fst (Tags.exists_ (RName n) c1) = Ok true
    /\ fst (Tags.all_names c1) = Ok (map (fun t => VText (tag_name t)) (tags (work c)) ++ [VText n])
    /\ (forall r : ref, tag_id_of (work c) r <> VNull ->
                        fst (Tags.get_id r c1) = fst (Tags.get_id r c))
    /\ committed c1 = work c1.
Proof.
  intros Hn Habs.
  assert (Hno : forall x, In x (tags (work c)) -> tag_has_name (VText n) x = false)
    by (intros x Hx; apply (absent_name tag_name n _ Habs x Hx)).
  pose proof Hn as Hn'. apply String.eqb_neq in Hn'.
  set (i := next_rowid (map tag_id (tags (work c)))).
  set (d := with_tags (work c) (tags (work c) ++ [mk_tag i n])).
  assert (Hnew : Tags.new n c
                 = (Ok true, mk_conn d d (trace c ++ [Exec "INSERT INTO tags(name) VALUES (?)" [VText n];
                                                      Commit d]))).
  { unfold Tags.new. rewrite Hn'.
    erewrite bind_ok.
    2:{ eapply execute_rows; [reflexivity|]. simpl. rewrite (existsb_none _ _ Hno). reflexivity. }
    step. unfold ret. simpl. rewrite <- app_assoc. reflexivity. }
  assert (Hid : tag_id_of d (RName n) = VInt i).
  { unfold tag_id_of. rewrite Hn'. unfold d. cbn [tags with_tags].
    rewrite filter_app, (filter_none _ _ Hno). simpl.
    unfold tag_has_name. rewrite sql_eq_text. simpl. rewrite String.eqb_refl. reflexivity. }
  exists (mk_conn d d (trace c ++ [Exec "INSERT INTO tags(name) VALUES (?)" [VText n]; Commit d])), i.
  split; [exact Hnew|]. split; [apply next_rowid_fresh|].
  split; [rewrite Tags_get_id_value; cbn [work]; rewrite Hid; reflexivity|].
  split.
  { unfold Tags.get_name. step. unfold ret. cbn [fst]. f_equal.
    cbn [work]. unfold d. cbn [tags with_tags]. rewrite filter_app.
    rewrite filter_none.
    - simpl. unfold tag_has_id. rewrite sql_eq_int. simpl. rewrite Z.eqb_refl. reflexivity.
    - intros x Hx. unfold tag_has_id. rewrite sql_eq_int. apply Z.eqb_neq.
      intros E. apply (next_rowid_fresh (map tag_id (tags (work c)))).
      fold i. rewrite <- E. apply in_map. exact Hx. }
  split; [rewrite Tags_exists_value; cbn [work]; rewrite Hid; reflexivity|].
  split.
  { unfold Tags.all_names. step. unfold ret, fetch_first. cbn [fst]. f_equal.
    cbn [work]. unfold d. cbn [tags with_tags]. rewrite map_app. reflexivity. }
  split; [ | reflexivity ].
  intros r Hr. rewrite !Tags_get_id_value. cbn [work]. f_equal.
  destruct r as [j|m]; [reflexivity|]. unfold tag_id_of in *.
  destruct (m =? "__ALL__")%string; [reflexivity|].
  unfold d. cbn [tags with_tags]. rewrite filter_app, map_app.
  apply fetchone_first_app. intros E. rewrite E in Hr. apply Hr. reflexivity.
Qed.

Lemma tags_new_then_lookup_witness :
  exists (c1 : conn) (i : Z),
    Tags.new "holiday" photo_conn = (Ok true, c1)
    /\ ~ In i (map tag_id (tags (work photo_conn)))
    /\ fst (Tags.get_id (RName "holiday") c1) = Ok (VInt i)
    /\ fst (Tags.get_name (RId i) c1) = Ok (VText "holiday")
    /\ fst (Tags.exists_ (RName "holiday") c1) = Ok true
    /\ fst (Tags.all_names c1)
       = Ok (map (fun t => VText (tag_name t)) (tags (work photo_conn)) ++ [VText "holiday"])
    /\ (forall r : ref, tag_id_of (work photo_conn) r <> VNull ->
                        fst (Tags.get_id r c1) = fst (Tags.get_id r photo_conn))
    /\ committed c1 = work c1.
Proof.
  apply (tags_new_then_lookup "holiday" photo_conn).
  - discriminate.
  - simpl. intros [H|H]; [discriminate H | exact H].
Defined.

(** ** Tags: removal *)

Lemma tag_rows_by_name_removed (l : list tag_row) (i : Z) (n : string) :
  NoDup (map tag_name l) -> In (mk_tag i n) l ->
  filter (tag_has_name (VText n)) (filter (fun t => negb (tag_has_id (VInt i) t)) l) = [].
Proof.
  intros Hnd Hin. apply filter_none. intros x Hx.
  apply filter_In in Hx. destruct Hx as [Hx Hid]. apply negb_true_iff in Hid.
  unfold tag_has_name. rewrite sql_eq_text.
  destruct (tag_name x =? n)%string eqn:E; [ | reflexivity ].
  apply String.eqb_eq in E.
  assert (Ex : x = mk_tag i n) by (apply (NoDup_map_inj_in tag_name l); assumption).
  subst x. unfold tag_has_id in Hid. rewrite sql_eq_int_refl in Hid. discriminate Hid.
Qed.

Lemma association_rows_null_tag (d : database) (f : value) : association_rows d VNull f = [].
Proof.
  unfold association_rows. apply filter_none. intros x _.
  rewrite sql_eq_null_r. reflexivity.
Qed.

Lemma join_files_null (d : database) : join_files VNull d = [].
Proof.
  unfold join_files. apply flat_map_none. intros x _. rewrite sql_eq_null_r. reflexivity.
Qed.

(** X7.  A removed tag is forgotten under its name.  In a well-formed
    store, after [Tags.remove(n)] of an existing tag [n], [get_id(n)]
    returns [None], [exists(n)] is [False], [has_tag(f, n)] is [False] for
    every file given by a name or by an id that fits in 64 bits, and
    [get_by_tag(n)] is empty; the files, the other tags and the
    associations of the other tags are untouched. *)
Theorem tag_removed_is_forgotten (n : string) (i : Z) (c : conn) :
  wf_db (work c) ->
  In (mk_tag i n) (tags (work c)) ->
  exists c1 : conn,
    Tags.remove (RName n) c = (Ok true, c1)
    /\ fst (Tags.get_id (RName n) c1) = Ok VNull
    /\ fst (Tags.exists_ (RName n) c1) = Ok false
    /\ (forall f : ref, ref_fits f = true -> fst (Files.has_tag f (RName n) c1) = Ok false)
    /\ fst (Files.get_by_tag (RName n) c1) = Ok []
    /\ files (work c1) = files (work c)
    /\ (forall t : tag_row, In t (tags (work c)) -> tag_name t <> n -> In t (tags (work c1)))
    /\ (forall tf : tag_file_row,
           In tf (tag_files (work c)) -> tf_tag_id tf <> VInt i -> In tf (tag_files (work c1))).
Proof.
  intros Hwf Hin.
  pose proof (tag_name_not_sentinel n i (work c) Hwf Hin) as Hn.
  pose proof Hn as Hn'. apply String.eqb_neq in Hn'.
  assert (Hid : tag_id_of (work c) (RName n) = VInt i)
    by (apply tag_id_of_present; [apply Hwf | exact Hn | exact Hin]).
  pose proof (Tags_remove_spec (RName n) c Hn') as Hrm. cbv zeta in Hrm. rewrite Hid in Hrm.
  eexists. split; [exact Hrm|].
  match goal with |- context [Tags.get_id (RName n) ?x] => set (c1 := x) end.
  assert (Hgone : tag_id_of (work c1) (RName n) = VNull).
  { unfold tag_id_of. rewrite Hn'. unfold c1. cbn [work tags with_tags].
    rewrite (tag_rows_by_name_removed _ i n (wf_tag_names _ Hwf) Hin). reflexivity. }
  split; [rewrite Tags_get_id_value, Hgone; reflexivity|].
  split; [rewrite Tags_exists_value, Hgone; reflexivity|].
  split.
  { intros f _. rewrite has_tag_spec; [ | simpl; rewrite Hn'; reflexivity ].
    rewrite Hgone, association_rows_null_tag. reflexivity. }
  split; [rewrite (get_by_tag_spec (RName n) c1 Hn'), Hgone, join_files_null; reflexivity|].
  split; [reflexivity|]. split.
  - intros t Ht Hne. unfold c1. cbn [work tags with_tags]. apply filter_In. split; [exact Ht|].
    apply negb_true_iff. unfold tag_has_id. rewrite sql_eq_int. apply Z.eqb_neq. intros E.
    apply Hne.
    assert (Et : t = mk_tag i n)
      by (apply (NoDup_map_inj_in tag_id (tags (work c))); [apply Hwf | exact Ht | exact Hin | exact E]).
    rewrite Et. reflexivity.
  - intros tf Htf Hne. unfold c1. cbn [work tag_files with_tags with_tag_files].
    apply filter_In. split; [exact Htf|]. apply negb_true_iff.
    destruct (tf_tag_id tf) as [|j|s] eqn:E; try reflexivity.
    rewrite sql_eq_int. apply Z.eqb_neq. intros F. apply Hne. rewrite F. reflexivity.
Qed.

Lemma tag_removed_is_forgotten_witness :
  exists c1 : conn,
    Tags.remove (RName "photo") photo_conn = (Ok true, c1)
    /\ fst (Tags.get_id (RName "photo") c1) = Ok VNull
    /\ fst (Tags.exists_ (RName "photo") c1) = Ok false
    /\ (forall f : ref, ref_fits f = true ->
                        fst (Files.has_tag f (RName "photo") c1) = Ok false)
    /\ fst (Files.get_by_tag (RName "photo") c1) = Ok []
    /\ files (work c1) = files (work photo_conn)
    /\ (forall t : tag_row,
           In t (tags (work photo_conn)) -> tag_name t <> "photo" -> In t (tags (work c1)))
    /\ (forall tf : tag_file_row,
           In tf (tag_files (work photo_conn)) -> tf_tag_id tf <> VInt 1 ->
           In tf (tag_files (work c1))).
Proof.
  apply (tag_removed_is_forgotten "photo" 1 photo_conn).
  - exact photo_db_wf.
  - simpl. left. reflexivity.
Defined.

(** ** Tags: renaming *)

Lemma renamed_rows_by_new_name (l : list tag_row) (i : Z) (src dst : string) :
  NoDup (map tag_name l) -> In (mk_tag i src) l -> ~ In dst (map tag_name l) ->
  filter (tag_has_name (VText dst)) (map (rename_tag (tag_has_name (VText src)) dst) l)
  = [mk_tag i dst].
Proof.
  induction l as [|a l IH]; intros Hnd Hin Hdst; [destruct Hin|].
  cbn [map] in Hnd, Hdst. inversion Hnd as [|z zs Hnotin Hnd']; subst.
  assert (Hdl : ~ In dst (map tag_name l)) by (intros F; apply Hdst; right; exact F).
  assert (Hda : tag_name a <> dst) by (intros F; apply Hdst; left; exact F).
  cbn [map filter].
  destruct Hin as [E|Hin].
  - subst a.
    assert (E1 : rename_tag (tag_has_name (VText src)) dst (mk_tag i src) = mk_tag i dst).
    { unfold rename_tag, tag_has_name. rewrite sql_eq_text. cbn [tag_name tag_id].
      rewrite String.eqb_refl. reflexivity. }
    assert (E2 : tag_has_name (VText dst) (mk_tag i dst) = true).
    { unfold tag_has_name. rewrite sql_eq_text. apply String.eqb_refl. }
    rewrite E1, E2. f_equal. apply filter_none. intros x Hx. apply in_map_iff in Hx.
    destruct Hx as [y [Ey Hy]]. subst x. unfold rename_tag.
    assert (Hys : tag_has_name (VText src) y = false).
    { unfold tag_has_name. rewrite sql_eq_text. apply String.eqb_neq. intros F.
      apply Hnotin. cbn [tag_name]. rewrite <- F. apply in_map. exact Hy. }
    rewrite Hys. unfold tag_has_name. rewrite sql_eq_text. apply String.eqb_neq.
    intros F. apply Hdl. rewrite <- F. apply in_map. exact Hy.
  - assert (Has : tag_has_name (VText src) a = false).
    { unfold tag_has_name. rewrite sql_eq_text. apply String.eqb_neq. intros F.
      apply Hnotin. rewrite F. change src with (tag_name (mk_tag i src)). apply in_map. exact Hin. }
    assert (E1 : rename_tag (tag_has_name (VText src)) dst a = a)
      by (unfold rename_tag; rewrite Has; reflexivity).
    assert (Had : tag_has_name (VText dst) a = false)
      by (unfold tag_has_name; rewrite sql_eq_text; apply String.eqb_neq; exact Hda).
    rewrite E1, Had. apply IH; assumption.
Qed.

Lemma renamed_rows_by_old_name (l : list tag_row) (src dst : string) :
  src <> dst ->
  filter (tag_has_name (VText src)) (map (rename_tag (tag_has_name (VText src)) dst) l) = [].
Proof.
  intros Hne. apply filter_none. intros x Hx. apply in_map_iff in Hx.
  destruct Hx as [y [Ey Hy]]. subst x. unfold rename_tag.
  destruct (tag_has_name (VText src) y) eqn:E; [ | exact E ].
  unfold tag_has_name. rewrite sql_eq_text. cbn [tag_name]. apply String.eqb_neq.
  intros F. apply Hne. symmetry. exact F.
Qed.

(** X8.  Renaming a tag keeps its id and its files.  In a well-formed
    store, for an existing tag [src] with id [i] and a name [dst] other
    than ["__ALL__"] that no tag bears, [Tags.rename(src, dst)] returns
    [True]; then [get_id(dst)] returns [i], [get_id(src)] returns [None],
    the associations are untouched, and [get_by_tag(dst)] returns what
    [get_by_tag(src)] returned. *)
Theorem tag_rename_keeps_id (src dst : string) (i : Z) (c : conn) :
  wf_db (work c) ->
  In (mk_tag i src) (tags (work c)) ->
  dst <> "__ALL__" ->
  ~ In dst (map tag_name (tags (work c))) ->
  exists c1 : conn,
    Tags.rename (RName src) dst c = (Ok true, c1)
    /\ fst (Tags.get_id (RName dst) c1) = Ok (VInt i)
    /\ fst (Tags.get_id (RName src) c1) = Ok VNull
    /\ tag_files (work c1) = tag_files (work c)
    /\ files (work c1) = files (work c)
    /\ fst (Files.get_by_tag (RName dst) c1) = fst (Files.get_by_tag (RName src) c)
    /\ committed c1 = work c1.
Proof.
  intros Hwf Hin Hdst Habs.
  pose proof (tag_name_not_sentinel src i (work c) Hwf Hin) as Hsrc.
  pose proof Hsrc as Hsrc'. apply String.eqb_neq in Hsrc'.
  pose proof Hdst as Hdst'. apply String.eqb_neq in Hdst'.
  assert (Hne : src <> dst).
  { intros E. apply Habs. rewrite <- E. change src with (tag_name (mk_tag i src)).
    apply in_map. exact Hin. }
  assert (Hnoconf : tag_update_by_name_conflict dst (VText src) (tags (work c)) = false).
  { unfold tag_update_by_name_conflict. apply andb_false_iff. right.
    apply existsb_none. intros x Hx. unfold tag_has_name at 1. rewrite sql_eq_text.
    rewrite (absent_name tag_name dst _ Habs x Hx). reflexivity. }
  set (d := with_tags (work c) (map (rename_tag (tag_has_name (VText src)) dst) (tags (work c)))).
  assert (Hrun : Tags.rename (RName src) dst c
                 = (Ok true,
                    mk_conn d d (trace c ++ [Exec "UPDATE tags SET name = ? WHERE name = ?"
                                                  [VText dst; VText src]; Commit d]))).
  { unfold Tags.rename. cbn [ref_eq_str]. rewrite Hsrc', Hdst'. cbn [orb].
    erewrite bind_ok.
    2:{ eapply execute_rows; [reflexivity|]. simpl. rewrite Hnoconf. reflexivity. }
    step. unfold ret. simpl. rewrite <- app_assoc. reflexivity. }
  eexists. split; [exact Hrun|].
  assert (Hid : tag_id_of d (RName dst) = VInt i).
  { unfold tag_id_of. rewrite Hdst'. unfold d. cbn [tags with_tags].
    rewrite (renamed_rows_by_new_name _ i src dst (wf_tag_names _ Hwf) Hin Habs). reflexivity. }
  split; [rewrite Tags_get_id_value; cbn [work]; rewrite Hid; reflexivity|].
  split.
  { rewrite Tags_get_id_value. cbn [work]. unfold tag_id_of. rewrite Hsrc'.
    unfold d. cbn [tags with_tags]. rewrite (renamed_rows_by_old_name _ src dst Hne). reflexivity. }
  split; [reflexivity|]. split; [reflexivity|]. split; [ | reflexivity ].
  rewrite (get_by_tag_spec (RName dst)); [ | simpl; exact Hdst' ].
  rewrite (get_by_tag_spec (RName src)); [ | simpl; exact Hsrc' ].
  cbn [work]. rewrite Hid.
  rewrite (tag_id_of_present (work c) i src (wf_tag_names _ Hwf) Hsrc Hin).
  reflexivity.
Qed.

Lemma tag_rename_keeps_id_witness :
  exists c1 : conn,
    Tags.rename (RName "photo") "picture" photo_conn = (Ok true, c1)
    /\ fst (Tags.get_id (RName "picture") c1) = Ok (VInt 1)
    /\ fst (Tags.get_id (RName "photo") c1) = Ok VNull
    /\ tag_files (work c1) = tag_files (work photo_conn)
    /\ files (work c1) = files (work photo_conn)
    /\ fst (Files.get_by_tag (RName "picture") c1) = fst (Files.get_by_tag (RName "photo") photo_conn)
    /\ committed c1 = work c1.
Proof.
  apply (tag_rename_keeps_id "photo" "picture" 1 photo_conn).
  - exact photo_db_wf.
  - simpl. left. reflexivity.
  - discriminate.
  - simpl. intros [H|H]; [discriminate H | exact H].
Defined.

(** X9.  A tag cannot take the name of another tag.  In a well-formed
    store, [Tags.rename] of an existing tag, given by name or by id, to
    the name of another existing tag raises [IntegrityError]; nothing is
    renamed and nothing is committed. *)
Theorem tag_rename_onto_taken_name (src dst : string) (i j : Z) (c : conn) :
  wf_db (work c) ->
  In (mk_tag i src) (tags (work c)) ->
  In (mk_tag j dst) (tags (work c)) ->
  i <> j ->
  Tags.rename (RName src) dst c
  = (Raise IntegrityError,
     logged [Exec "UPDATE tags SET name = ? WHERE name = ?" [VText dst; VText src]] c)
  /\ Tags.rename (RId i) dst c
     = (Raise IntegrityError,
        logged [Exec "UPDATE tags SET name = ? WHERE id = ?" [VText dst; VInt i]] c).
Proof.
  intros Hwf Hsrc Hdst Hij.
  pose proof (tag_name_not_sentinel src i (work c) Hwf Hsrc) as Hs.
  pose proof (tag_name_not_sentinel dst j (work c) Hwf Hdst) as Hd.
  apply String.eqb_neq in Hs, Hd.
  assert (Hne : src <> dst).
  { intros E. apply Hij. subst dst.
    assert (E : mk_tag i src = mk_tag j src)
      by (apply (NoDup_map_inj_in tag_name (tags (work c))); [apply Hwf | exact Hsrc | exact Hdst | reflexivity]).
    injection E as E. exact E. }
  assert (Cid : tag_update_by_id_conflict dst (VInt i) (tags (work c)) = true).
  { unfold tag_update_by_id_conflict. apply andb_true_iff. split.
    - apply (existsb_some _ _ _ Hsrc). unfold tag_has_id. apply sql_eq_int_refl.
    - apply (existsb_some _ _ _ Hdst). unfold tag_has_name, tag_has_id.
      rewrite sql_eq_text, sql_eq_int. cbn [tag_name tag_id]. rewrite String.eqb_refl.
      simpl. apply negb_true_iff. apply Z.eqb_neq. intros E. apply Hij. symmetry. exact E. }
  assert (Cname : tag_update_by_name_conflict dst (VText src) (tags (work c)) = true).
  { unfold tag_update_by_name_conflict. apply andb_true_iff. split.
    - apply (existsb_some _ _ _ Hsrc). unfold tag_has_name. rewrite sql_eq_text. apply String.eqb_refl.
    - apply (existsb_some _ _ _ Hdst). unfold tag_has_name.
      rewrite !sql_eq_text. cbn [tag_name]. rewrite String.eqb_refl.
      simpl. apply negb_true_iff. apply String.eqb_neq. intros E. apply Hne. symmetry. exact E. }
  split.
  - unfold Tags.rename. cbn [ref_eq_str]. rewrite Hs, Hd. cbn [orb].
    erewrite bind_raise; [reflexivity|].
    eapply execute_fail; [reflexivity|]. simpl. rewrite Cname. reflexivity.
  - unfold Tags.rename. cbn [ref_eq_str]. rewrite Hd. cbn [orb].
    erewrite bind_raise; [reflexivity|].
    eapply execute_fail; [reflexivity|]. simpl. rewrite Cid. reflexivity.
Qed.

Lemma tag_rename_onto_taken_name_witness :
  let c := snd (Tags.new "holiday" photo_conn) in
  Tags.rename (RName "holiday") "photo" c
  = (Raise IntegrityError,
     logged [Exec "UPDATE tags SET name = ? WHERE name = ?" [VText "photo"; VText "holiday"]] c)
  /\ Tags.rename (RId 2) "photo" c
     = (Raise IntegrityError,
        logged [Exec "UPDATE tags SET name = ? WHERE id = ?" [VText "photo"; VInt 2]] c).
Proof.
  apply (tag_rename_onto_taken_name "holiday" "photo" 2 1 (snd (Tags.new "holiday" photo_conn))).
  - apply Tags_new_preserves. exact photo_db_wf.
  - vm_compute. right. left. reflexivity.
  - vm_compute. left. reflexivity.
  - discriminate.
Defined.

(** ** Renaming what does not exist *)

Lemma with_tags_same (d : database) : with_tags d (tags d) = d.
Proof. destruct d. reflexivity. Qed.

Lemma with_files_same (d : database) : with_files d (files d) = d.
Proof. destruct d. reflexivity. Qed.

Lemma with_selections_same (d : database) : with_selections d (selections d) = d.
Proof. destruct d. reflexivity. Qed.

Lemma with_tag_files_same (d : database) : with_tag_files d (tag_files d) = d.
Proof. destruct d. reflexivity. Qed.

Lemma map_unselected {A : Type} (f : A -> A) (l : list A) :
  (forall x, In x l -> f x = x) -> map f l = l.
Proof.
  induction l as [|a l IH]; simpl; intros H; [reflexivity|].
  rewrite (H a (or_introl eq_refl)), IH; [reflexivity|].
  intros x Hx. apply H. right. exact Hx.
Qed.

(** X10.  Renaming something that does not exist is reported as a
    success.  For a name [src] (not ["__ALL__"]) that no tag, no file and
    no selection bears, [Tags.rename(src, dst)], [Files.rename(src, dst)]
    and [Selections.rename(src, dst)] return [True] for every [dst]
    other than ["__ALL__"], also for a [dst] that is already taken, and
    leave every table as it was. *)
Theorem rename_missing_source (src dst : string) (c : conn) :
  src <> "__ALL__" -> dst <> "__ALL__" ->
  ~ In src (map tag_name (tags (work c))) ->
  ~ In src (map file_name (files (work c))) ->
  ~ In src (map sel_name (selections (work c))) ->
  (exists c1, Tags.rename (RName src) dst c = (Ok true, c1) /\ work c1 = work c)
  /\ (exists c1, Files.rename (RName src) dst c = (Ok true, c1) /\ work c1 = work c)
  /\ (exists c1, Selections.rename src dst c = (Ok true, c1) /\ work c1 = work c).
Proof.
  intros Hs Hd Ht Hf Hsel. apply String.eqb_neq in Hs, Hd.
  assert (Tno : forall x, In x (tags (work c)) -> tag_has_name (VText src) x = false)
    by (intros x Hx; apply (absent_name tag_name src _ Ht x Hx)).
  assert (Fno : forall x, In x (files (work c)) -> file_has_name (VText src) x = false)
    by (intros x Hx; apply (absent_name file_name src _ Hf x Hx)).
  assert (Sno : forall x, In x (selections (work c)) -> sel_has_name (VText src) x = false)
    by (intros x Hx; apply (absent_name sel_name src _ Hsel x Hx)).
  split; [ | split ].
  - eexists. split.
    + unfold Tags.rename. cbn [ref_eq_str]. rewrite Hs, Hd. cbn [orb].
      erewrite bind_ok.
      2:{ eapply execute_rows; [reflexivity|]. simpl.
          unfold tag_update_by_name_conflict. rewrite (existsb_none _ _ Tno). reflexivity. }
      step. reflexivity.
    + cbn [work]. rewrite map_unselected; [apply with_tags_same|].
      intros x Hx. unfold rename_tag. rewrite (Tno x Hx). reflexivity.
  - eexists. split.
    + unfold Files.rename. step. step. reflexivity.
    + cbn [work]. rewrite map_unselected; [apply with_files_same|].
      intros x Hx. unfold rename_file. rewrite (Fno x Hx). reflexivity.
  - eexists. split.
    + unfold Selections.rename. rewrite Hs, Hd. cbn [orb].
      erewrite bind_ok.
      2:{ eapply execute_rows; [reflexivity|]. simpl.
          unfold sel_update_conflict. rewrite (existsb_none _ _ Sno). reflexivity. }
      step. reflexivity.
    + cbn [work]. rewrite map_unselected; [apply with_selections_same|].
      intros x Hx. unfold rename_selection. rewrite (Sno x Hx). reflexivity.
Qed.

Lemma rename_missing_source_witness :
  (exists c1, Tags.rename (RName "nothing") "photo" photo_conn = (Ok true, c1)
              /\ work c1 = work photo_conn)
  /\ (exists c1, Files.rename (RName "nothing") "photo" photo_conn = (Ok true, c1)
                 /\ work c1 = work photo_conn)
  /\ (exists c1, Selections.rename "nothing" "photo" photo_conn = (Ok true, c1)
                 /\ work c1 = work photo_conn).
Proof.
  apply (rename_missing_source "nothing" "photo" photo_conn).
  - discriminate.
  - discriminate.
  - simpl. intros [H|H]; [discriminate H | exact H].
  - simpl. intros [H|H]; [discriminate H | exact H].
  - simpl. intros [H|H]; [discriminate H | exact H].
Defined.

(** ** Files: registration *)

Lemma Files_resolve_value (r : ref) (c : conn) :
  fst (Files.resolve r c)
  = Ok (fetchone_first
          (map (fun f => VText (file_path f))
               (filter (match r with
                        | RId i => file_has_id (VInt i)
                        | RName s => file_has_name (VText s)
                        end) (files (work c))))).
Proof. unfold Files.resolve. destruct r as [i|s]; step; reflexivity. Qed.

Lemma Files_get_name_id (i : Z) (c : conn) :
  fst (Files.get_name (RId i) c)
  = Ok (fetchone_first (map (fun f => VText (file_name f))
                            (filter (file_has_id (VInt i)) (files (work c))))).
Proof. unfold Files.get_name. step. reflexivity. Qed.

(** X11.  [Files.new] never refuses a file.  For every name and path, also
    a name that files already bear, [new(name, path)] returns [True] and
    appends one file with an id no file had; by that id, [resolve]
    returns the path and [get_name] the name; the files registered before
    are untouched. *)
Theorem files_new_registers (n p : string) (c : conn) :
  exists (c1 : conn) (i : Z),
    Files.new n p c = (Ok true, c1)
    /\ ~ In i (map file_id (files (work c)))
    /\ files (work c1) = files (work c) ++ [mk_file i n p]
    /\ fst (Files.resolve (RId i) c1) = Ok (VText p)
    /\ fst (Files.get_name (RId i) c1) = Ok (VText n)
    /\ committed c1 = work c1.
Proof.
  set (i := next_rowid (map file_id (files (work c)))).
  assert (Hfresh : forall x, In x (files (work c)) -> file_has_id (VInt i) x = false).
  { intros x Hx. unfold file_has_id. rewrite sql_eq_int. apply Z.eqb_neq. intros E.
    apply (next_rowid_fresh (map file_id (files (work c)))). fold i. rewrite <- E.
    apply in_map. exact Hx. }
  assert (Hself : file_has_id (VInt i) (mk_file i n p) = true)
    by (unfold file_has_id; apply sql_eq_int_refl).
  eexists. exists i. split; [unfold Files.new; step; step; reflexivity|].
  split; [apply next_rowid_fresh|]. split; [reflexivity|].
  split; [ | split; [ | reflexivity ] ].
  - rewrite Files_resolve_value. cbn [work files with_files]. fold i.
    rewrite filter_app, (filter_none _ _ Hfresh). cbn [filter app]. rewrite Hself. reflexivity.
  - rewrite Files_get_name_id. cbn [work files with_files]. fold i.
    rewrite filter_app, (filter_none _ _ Hfresh). cbn [filter app]. rewrite Hself. reflexivity.
Qed.

(** X12.  Among files of one name, the name denotes the oldest.  When a
    file named [n] exists already, a file registered again as [n] can only
    be reached by its id: [get_id(n)], [resolve(n)] and [exists(n)] return
    after [new(n, p)] what they returned before. *)
Theorem files_new_is_shadowed (n p : string) (c : conn) :
  In n (map file_name (files (work c))) ->
  exists c1 : conn,
    Files.new n p c = (Ok true, c1)
    /\ fst (Files.get_id (RName n) c1) = fst (Files.get_id (RName n) c)
    /\ fst (Files.resolve (RName n) c1) = fst (Files.resolve (RName n) c)
    /\ fst (Files.exists_ (RName n) c1) = Ok true.
Proof.
  intros Hin. apply in_map_iff in Hin. destruct Hin as [x [Ex Hx]].
  assert (Hne : filter (file_has_name (VText n)) (files (work c)) <> []).
  { intros E. assert (Hxf : In x (filter (file_has_name (VText n)) (files (work c)))).
    { apply filter_In. split; [exact Hx|]. unfold file_has_name. rewrite sql_eq_text, Ex.
      apply String.eqb_refl. }
    rewrite E in Hxf. exact Hxf. }
  eexists. split; [unfold Files.new; step; step; reflexivity|].
  split; [ | split ].
  - rewrite !Files_get_id_value. cbn [work file_id_of files with_files].
    rewrite filter_app, map_app. f_equal. apply fetchone_first_app.
    intros E. apply map_eq_nil in E. exact (Hne E).
  - rewrite !Files_resolve_value. cbn [work files with_files].
    rewrite filter_app, map_app. f_equal. apply fetchone_first_app.
    intros E. apply map_eq_nil in E. exact (Hne E).
  - rewrite Files_exists_value. cbn [work file_id_of files with_files].
    rewrite filter_app, map_app. rewrite fetchone_first_app.
    + destruct (filter (file_has_name (VText n)) (files (work c))); [destruct (Hne eq_refl)|].
      reflexivity.
    + intros E. apply map_eq_nil in E. exact (Hne E).
Qed.

Lemma files_new_is_shadowed_witness :
  exists c1 : conn,
    Files.new "a.jpg" "/elsewhere/a.jpg" photo_conn = (Ok true, c1)
    /\ fst (Files.get_id (RName "a.jpg") c1) = fst (Files.get_id (RName "a.jpg") photo_conn)
    /\ fst (Files.resolve (RName "a.jpg") c1) = fst (Files.resolve (RName "a.jpg") photo_conn)
    /\ fst (Files.exists_ (RName "a.jpg") c1) = Ok true.
Proof.
  apply (files_new_is_shadowed "a.jpg" "/elsewhere/a.jpg" photo_conn).
  simpl. left. reflexivity.
Defined.

(** ** Tagging *)

Lemma add_tag_work (f t : ref) (c : conn) :
  ref_eq_str t "__ALL__" = false ->
  work (snd (Files.add_tag f t c))
  = with_tag_files (work c)
      (tag_files (work c) ++ [mk_tag_file (tag_id_of (work c) t) (file_id_of (work c) f)]).
Proof. intros H. rewrite (add_tag_spec f t c H). reflexivity. Qed.

(** X13.  A tag added to a file is found again.  When the tag reference
    [t] (not ["__ALL__"]) resolves to the id [j] and the file reference [f]
    to the id [i], both ids fitting in 64 bits, [add_tag(f, t)] returns
    [True] and appends the row [(j, i)]; then [has_tag(f, t)] is [True],
    [get_by_tag(t)] lists the name of every file with id [i], and
    [get_tags(f)] lists the name of every tag with id [j]. *)
Theorem add_tag_then_found (f t : ref) (i j : Z) (c : conn) :
  ref_eq_str t "__ALL__" = false ->
  tag_id_of (work c) t = VInt j ->
  file_id_of (work c) f = VInt i ->
  int64 j = true ->
  int64 i = true ->
  exists c1 : conn,
    Files.add_tag f t c = (Ok true, c1)
    /\ tag_files (work c1) = tag_files (work c) ++ [mk_tag_file (VInt j) (VInt i)]
    /\ fst (Files.has_tag f t c1) = Ok true
    /\ (forall n p, In (mk_file i n p) (files (work c)) ->
                    exists l, fst (Files.get_by_tag t c1) = Ok l /\ In (VText n) l)
    /\ (forall m, In (mk_tag j m) (tags (work c)) ->
                  exists l, fst (Files.get_tags f c1) = Ok l /\ In (VText m) l).
Proof.
  intros Hg Ht Hf _ _.
  pose proof (add_tag_spec f t c Hg) as Hrun. cbv zeta in Hrun. rewrite Ht, Hf in Hrun.
  eexists. split; [exact Hrun|].
  match goal with |- context [Files.has_tag f t ?x] => set (c1 := x) end.
  assert (Ht1 : tag_id_of (work c1) t = VInt j)
    by (rewrite <- Ht; apply tag_id_of_tags; reflexivity).
  assert (Hf1 : file_id_of (work c1) f = VInt i)
    by (rewrite <- Hf; apply file_id_of_files; reflexivity).
  split; [reflexivity|]. split; [ | split ].
  - destruct (ref_eq_str t "__ALL__" || ref_eq_int t (-1)) eqn:G;
      [unfold Files.has_tag; rewrite G; reflexivity|].
    rewrite (has_tag_spec f t c1 G), Ht1, Hf1. f_equal.
    unfold association_rows, c1. cbn [work tag_files with_tag_files].
    rewrite filter_app, length_app. cbn [filter tf_tag_id tf_file_id].
    rewrite !sql_eq_int_refl. cbn [andb List.length].
    apply Nat.ltb_lt. lia.
  - intros n p Hin. eexists. split; [apply (get_by_tag_spec t c1 Hg)|].
    rewrite Ht1. unfold join_files, c1. cbn [work tag_files files with_tag_files].
    apply in_flat_map. exists (mk_tag_file (VInt j) (VInt i)). split.
    + apply in_or_app. right. left. reflexivity.
    + cbn [tf_tag_id tf_file_id]. rewrite sql_eq_int_refl.
      apply in_map_iff. exists (mk_file i n p). split; [reflexivity|].
      apply filter_In. split; [exact Hin | apply sql_eq_int_refl].
  - intros m Hin. eexists. split; [apply (get_tags_spec f c1)|].
    rewrite Hf1. unfold join_tags, c1. cbn [work tag_files tags with_tag_files].
    apply in_flat_map. exists (mk_tag_file (VInt j) (VInt i)). split.
    + apply in_or_app. right. left. reflexivity.
    + cbn [tf_tag_id tf_file_id]. rewrite sql_eq_int_refl.
      apply in_map_iff. exists (mk_tag j m). split; [reflexivity|].
      apply filter_In. split; [exact Hin | apply sql_eq_int_refl].
Qed.

Lemma add_tag_then_found_witness :
  exists c1 : conn,
    Files.add_tag (RName "a.jpg") (RId 1) photo_conn = (Ok true, c1)
    /\ tag_files (work c1) = tag_files (work photo_conn) ++ [mk_tag_file (VInt 1) (VInt 1)]
    /\ fst (Files.has_tag (RName "a.jpg") (RId 1) c1) = Ok true
    /\ (forall n p, In (mk_file 1 n p) (files (work photo_conn)) ->
                    exists l, fst (Files.get_by_tag (RId 1) c1) = Ok l /\ In (VText n) l)
    /\ (forall m, In (mk_tag 1 m) (tags (work photo_conn)) ->
                  exists l, fst (Files.get_tags (RName "a.jpg") c1) = Ok l /\ In (VText m) l).
Proof.
  apply (add_tag_then_found (RName "a.jpg") (RId 1) 1 1 photo_conn); reflexivity.
Defined.

(** X14.  [remove_tag] removes every copy of an association and nothing
    else.  When [t] (not ["__ALL__"], not [-1]) resolves to the id [j] and
    [f] to the id [i], both ids fitting in 64 bits, [remove_tag(f, t)]
    returns [True]; afterwards [has_tag(f, t)] is [False], however often
    the tag had been added, and every association row of another tag or
    another file is still there; tags and files are untouched. *)
Theorem remove_tag_then_gone (f t : ref) (i j : Z) (c : conn) :
  ref_eq_str t "__ALL__" || ref_eq_int t (-1) = false ->
  tag_id_of (work c) t = VInt j ->
  file_id_of (work c) f = VInt i ->
  int64 j = true ->
  int64 i = true ->
  exists c1 : conn,
    Files.remove_tag f t c = (Ok true, c1)
    /\ fst (Files.has_tag f t c1) = Ok false
    /\ (forall tf, In tf (tag_files (work c)) ->
                   tf_tag_id tf <> VInt j \/ tf_file_id tf <> VInt i ->
                   In tf (tag_files (work c1)))
    /\ tags (work c1) = tags (work c)
    /\ files (work c1) = files (work c)
    /\ committed c1 = work c1.
Proof.
  intros G Ht Hf _ _.
  assert (Hg : ref_eq_str t "__ALL__" = false) by (apply orb_false_iff in G; apply G).
  destruct (remove_tag_spec f t c Hg) as [u Hrun]. cbv zeta in Hrun. rewrite Ht, Hf in Hrun.
  eexists. split; [exact Hrun|].
  match goal with |- context [Files.has_tag f t ?x] => set (c1 := x) end.
  assert (Ht1 : tag_id_of (work c1) t = VInt j)
    by (rewrite <- Ht; apply tag_id_of_tags; reflexivity).
  assert (Hf1 : file_id_of (work c1) f = VInt i)
    by (rewrite <- Hf; apply file_id_of_files; reflexivity).
  split; [ | split; [ | split; [reflexivity | split; reflexivity] ] ].
  - rewrite (has_tag_spec f t c1 G), Ht1, Hf1. f_equal.
    unfold association_rows, c1. cbn [work tag_files with_tag_files].
    rewrite filter_none; [reflexivity|].
    intros x Hx. apply filter_In in Hx. destruct Hx as [_ Hx].
    apply negb_true_iff in Hx. exact Hx.
  - intros tf Htf Hother. unfold c1. cbn [work tag_files with_tag_files].
    apply filter_In. split; [exact Htf|]. apply negb_true_iff. apply andb_false_iff.
    destruct Hother as [H|H]; [left|right].
    + destruct (tf_tag_id tf) as [|x|s]; try reflexivity.
      rewrite sql_eq_int. apply Z.eqb_neq. intros E. apply H. rewrite E. reflexivity.
    + destruct (tf_file_id tf) as [|x|s]; try reflexivity.
      rewrite sql_eq_int. apply Z.eqb_neq. intros E. apply H. rewrite E. reflexivity.
Qed.

Lemma remove_tag_then_gone_witness :
  let c := snd (Files.add_tag (RId 1) (RName "photo") photo_conn) in
  exists c1 : conn,
    Files.remove_tag (RName "a.jpg") (RName "photo") c = (Ok true, c1)
    /\ fst (Files.has_tag (RName "a.jpg") (RName "photo") c1) = Ok false
    /\ (forall tf, In tf (tag_files (work c)) ->
                   tf_tag_id tf <> VInt 1 \/ tf_file_id tf <> VInt 1 ->
                   In tf (tag_files (work c1)))
    /\ tags (work c1) = tags (work c)
    /\ files (work c1) = files (work c)
    /\ committed c1 = work c1.
Proof.
  apply (remove_tag_then_gone (RName "a.jpg") (RName "photo") 1 1
                              (snd (Files.add_tag (RId 1) (RName "photo") photo_conn)));
    reflexivity.
Defined.

(** X15.  A name that no tag bears matches nothing and removes nothing.
    For a name [t] (not ["__ALL__"]) that no tag bears, in every store -
    also one that holds association rows with a NULL tag id - and for
    every file [f] given by a name or by an id that fits in 64 bits:
    [has_tag(f, t)] is [False], [get_by_tag(t)] is empty, and
    [remove_tag(f, t)] and [Tags.remove(t)] return [True] and leave every
    table as it was. *)
Theorem unknown_tag_name_matches_nothing (t : string) (c : conn) :
  t <> "__ALL__" ->
  ~ In t (map tag_name (tags (work c))) ->
  (forall f : ref, ref_fits f = true -> fst (Files.has_tag f (RName t) c) = Ok false)
  /\ fst (Files.get_by_tag (RName t) c) = Ok []
  /\ (forall f : ref, ref_fits f = true ->
                      exists c1, Files.remove_tag f (RName t) c = (Ok true, c1)
                                 /\ work c1 = work c)
  /\ (exists c1, Tags.remove (RName t) c = (Ok true, c1) /\ work c1 = work c).
Proof.
  intros Hs Habs. pose proof (tag_id_of_absent (work c) t Hs Habs) as Hnull.
  apply String.eqb_neq in Hs.
  split; [ | split; [ | split ] ].
  - intros f _. rewrite has_tag_spec; [ | simpl; rewrite Hs; reflexivity ].
    rewrite Hnull, association_rows_null_tag. reflexivity.
  - rewrite (get_by_tag_spec (RName t) c Hs), Hnull, join_files_null. reflexivity.
  - intros f _. destruct (remove_tag_spec f (RName t) c Hs) as [u Hrun]. cbv zeta in Hrun.
    eexists. split; [exact Hrun|]. cbn [work]. rewrite Hnull.
    rewrite filter_all; [apply with_tag_files_same|].
    intros x _. rewrite sql_eq_null_r. reflexivity.
  - pose proof (Tags_remove_spec (RName t) c Hs) as Hrun. cbv zeta in Hrun.
    eexists. split; [exact Hrun|]. cbn [work]. rewrite Hnull.
    rewrite (filter_all _ (tag_files (work c)));
      [ | intros x _; rewrite sql_eq_null_r; reflexivity ].
    rewrite with_tag_files_same.
    rewrite filter_all; [apply with_tags_same|].
    intros x _. unfold tag_has_id. reflexivity.
Qed.

Lemma unknown_tag_name_matches_nothing_witness :
  let c := snd (Files.add_tag (RName "b.jpg") (RName "holiday") photo_conn) in
  In (mk_tag_file VNull VNull) (tag_files (work c))
  /\ (forall f : ref, ref_fits f = true ->
                      fst (Files.has_tag f (RName "holiday") c) = Ok false)
  /\ fst (Files.get_by_tag (RName "holiday") c) = Ok []
  /\ (forall f : ref, ref_fits f = true ->
                      exists c1, Files.remove_tag f (RName "holiday") c = (Ok true, c1)
                                 /\ work c1 = work c)
  /\ (exists c1, Tags.remove (RName "holiday") c = (Ok true, c1) /\ work c1 = work c).
Proof.
  split; [vm_compute; right; left; reflexivity|].
  apply (unknown_tag_name_matches_nothing
           "holiday" (snd (Files.add_tag (RName "b.jpg") (RName "holiday") photo_conn))).
  - discriminate.
  - vm_compute. intros [H|H]; [discriminate H | exact H].
Defined.

(** ** Numeric references are not checked *)

Lemma Tags_new_fresh (n : string) (c : conn) :
  n <> "__ALL__" ->
  ~ In n (map tag_name (tags (work c))) ->
  Tags.new n c
  = (Ok true,
     let d := with_tags (work c)
                (tags (work c) ++ [mk_tag (next_rowid (map tag_id (tags (work c)))) n]) in
     mk_conn d d (trace c ++ [Exec "INSERT INTO tags(name) VALUES (?)" [VText n]; Commit d])).
Proof.
  intros Hn Habs. apply String.eqb_neq in Hn. unfold Tags.new. rewrite Hn.
  erewrite bind_ok.
  2:{ eapply execute_rows; [reflexivity|]. simpl.
      rewrite existsb_none; [reflexivity|].
      intros x Hx. apply (absent_name tag_name n _ Habs x Hx). }
  step. unfold ret. simpl. rewrite <- app_assoc. reflexivity.
Qed.

(** X16.  An id given as a number is stored unchecked, and a tag created
    later takes it over.  Let [j] be the id the next new tag will get (no
    tag has it), and let the file reference [f] resolve to the id [i],
    both ids fitting in 64 bits.  [add_tag(f, j)] returns [True] and
    stores the row, and after [Tags.new(m)] for a new name [m] the file
    has the tag [m]: [has_tag(f, m)] is [True]. *)
Theorem dangling_tag_id_is_adopted (f : ref) (m : string) (i : Z) (c : conn) :
  m <> "__ALL__" ->
  ~ In m (map tag_name (tags (work c))) ->
  file_id_of (work c) f = VInt i ->
  int64 i = true ->
  int64 (next_rowid (map tag_id (tags (work c)))) = true ->
  let j := next_rowid (map tag_id (tags (work c))) in
  ~ In j (map tag_id (tags (work c)))
  /\ exists c1 c2 : conn,
      Files.add_tag f (RId j) c = (Ok true, c1)
      /\ Tags.new m c1 = (Ok true, c2)
      /\ fst (Tags.get_id (RName m) c2) = Ok (VInt j)
      /\ fst (Files.has_tag f (RName m) c2) = Ok true.
Proof.
  intros Hm Habs Hf _ _ j. split; [apply next_rowid_fresh|].
  pose proof (add_tag_spec f (RId j) c eq_refl) as H1. cbv zeta in H1.
  rewrite Hf in H1. cbn [tag_id_of tf_tag_id tf_file_id] in H1.
  match type of H1 with _ = (_, ?x) => set (c1 := x) in * end.
  assert (Habs1 : ~ In m (map tag_name (tags (work c1)))) by exact Habs.
  pose proof (Tags_new_fresh m c1 Hm Habs1) as H2. cbv zeta in H2.
  match type of H2 with _ = (_, ?x) => set (c2 := x) in * end.
  exists c1, c2. split; [exact H1|]. split; [exact H2|].
  pose proof Hm as Hm'. apply String.eqb_neq in Hm'.
  assert (Hid : tag_id_of (work c2) (RName m) = VInt j).
  { unfold tag_id_of. rewrite Hm'. unfold c2, c1. cbn [work tags with_tags with_tag_files].
    rewrite filter_app, filter_none.
    - simpl. unfold tag_has_name. rewrite sql_eq_text. simpl. rewrite String.eqb_refl. reflexivity.
    - intros x Hx. apply (absent_name tag_name m _ Habs x Hx). }
  split; [rewrite Tags_get_id_value, Hid; reflexivity|].
  rewrite has_tag_spec; [ | simpl; rewrite Hm'; reflexivity ].
  rewrite Hid.
  assert (Hf2 : file_id_of (work c2) f = VInt i)
    by (rewrite <- Hf; apply file_id_of_files; reflexivity).
  rewrite Hf2. f_equal. unfold association_rows, c2, c1.
  cbn [work tag_files with_tags with_tag_files].
  rewrite filter_app, length_app. cbn [filter tf_tag_id tf_file_id].
  rewrite !sql_eq_int_refl. cbn [andb List.length]. apply Nat.ltb_lt. lia.
Qed.

Lemma dangling_tag_id_is_adopted_witness :
  ~ In 2 (map tag_id (tags (work photo_conn)))
  /\ exists c1 c2 : conn,
      Files.add_tag (RName "a.jpg") (RId 2) photo_conn = (Ok true, c1)
      /\ Tags.new "holiday" c1 = (Ok true, c2)
      /\ fst (Tags.get_id (RName "holiday") c2) = Ok (VInt 2)
      /\ fst (Files.has_tag (RName "a.jpg") (RName "holiday") c2) = Ok true.
Proof.
  apply (dangling_tag_id_is_adopted (RName "a.jpg") "holiday" 1 photo_conn).
  - discriminate.
  - simpl. intros [H|H]; [discriminate H | exact H].
  - reflexivity.
  - reflexivity.
  - reflexivity.
Defined.

Lemma join_tags_no_rows (d : database) (p : value) :
  (forall tf, In tf (tag_files d) -> sql_eq (tf_file_id tf) p = false) ->
  join_tags p d = [].
Proof.
  intros H. unfold join_tags. apply flat_map_none. intros x Hx. rewrite (H x Hx). reflexivity.
Qed.

(** X17.  Removing a file by its id.  [Files.remove(i)] returns [True]
    for every integer [i] that fits in 64 bits, whether a file has that id
    or not; afterwards [get_name(i)] and [resolve(i)] return [None] and
    [get_tags(i)] is empty, every other file and every association of
    another file is still there and the tags are untouched - yet
    [exists(i)] still returns [True], as it does for every integer. *)
Theorem file_removed_by_id (i : Z) (c : conn) :
  int64 i = true ->
  exists c1 : conn,
    Files.remove (RId i) c = (Ok true, c1)
    /\ fst (Files.get_name (RId i) c1) = Ok VNull
    /\ fst (Files.resolve (RId i) c1) = Ok VNull
    /\ fst (Files.get_tags (RId i) c1) = Ok []
    /\ fst (Files.exists_ (RId i) c1) = Ok true
    /\ (forall x, In x (files (work c)) -> file_id x <> i -> In x (files (work c1)))
    /\ (forall tf, In tf (tag_files (work c)) -> tf_file_id tf <> VInt i ->
                   In tf (tag_files (work c1)))
    /\ tags (work c1) = tags (work c).
Proof.
  intros _.
  pose proof (Files_remove_spec (RId i) c) as Hrun. cbv zeta in Hrun.
  cbn [file_id_of] in Hrun.
  match type of Hrun with _ = (_, ?x) => set (c1 := x) in * end.
  exists c1. split; [exact Hrun|].
  assert (Hgone : filter (file_has_id (VInt i)) (files (work c1)) = []).
  { unfold c1. cbn [work files with_files]. apply filter_none. intros x Hx.
    apply filter_In in Hx. destruct Hx as [_ Hx]. apply negb_true_iff in Hx. exact Hx. }
  split; [rewrite Files_get_name_id, Hgone; reflexivity|].
  split; [rewrite Files_resolve_value, Hgone; reflexivity|].
  split.
  { rewrite get_tags_spec. cbn [file_id_of]. rewrite join_tags_no_rows; [reflexivity|].
    intros tf Htf. unfold c1 in Htf. cbn [work tag_files with_files with_tag_files] in Htf.
    apply filter_In in Htf. destruct Htf as [_ Htf]. apply negb_true_iff in Htf. exact Htf. }
  split; [rewrite Files_exists_value; reflexivity|].
  split; [ | split; [ | reflexivity ] ].
  - intros x Hx Hne. unfold c1. cbn [work files with_files]. apply filter_In.
    split; [exact Hx|]. apply negb_true_iff. unfold file_has_id. rewrite sql_eq_int.
    apply Z.eqb_neq. exact Hne.
  - intros tf Htf Hne. unfold c1. cbn [work tag_files with_files with_tag_files].
    apply filter_In. split; [exact Htf|]. apply negb_true_iff.
    destruct (tf_file_id tf) as [|x|s]; try reflexivity.
    rewrite sql_eq_int. apply Z.eqb_neq. intros E. apply Hne. rewrite E. reflexivity.
Qed.

Lemma file_removed_by_id_witness :
  exists c1 : conn,
    Files.remove (RId 1) photo_conn = (Ok true, c1)
    /\ fst (Files.get_name (RId 1) c1) = Ok VNull
    /\ fst (Files.resolve (RId 1) c1) = Ok VNull
    /\ fst (Files.get_tags (RId 1) c1) = Ok []
    /\ fst (Files.exists_ (RId 1) c1) = Ok true
    /\ (forall x, In x (files (work photo_conn)) -> file_id x <> 1 -> In x (files (work c1)))
    /\ (forall tf, In tf (tag_files (work photo_conn)) -> tf_file_id tf <> VInt 1 ->
                   In tf (tag_files (work c1)))
    /\ tags (work c1) = tags (work photo_conn).
Proof. exact (file_removed_by_id 1 photo_conn eq_refl). Defined.

(** ** [set_tags]: what it leaves alone *)

Lemma sql_eq_same_right (a b c : value) : sql_eq a b = true -> sql_eq a c = true -> b = c.
Proof.
  destruct a, b, c; simpl; intros H1 H2; try discriminate.
  - apply Z.eqb_eq in H1, H2. subst. reflexivity.
  - apply String.eqb_eq in H1, H2. subst. reflexivity.
Qed.

Lemma set_tags_fold_frame (name : value) (ts : list ref) (d : database) :
  let d1 := fold_left (set_tags_step_db name) ts d in
  files d1 = files d
  /\ (exists ext, tags d1 = tags d ++ ext)
  /\ exists rows,
      tag_files d1 = tag_files d ++ rows
      /\ Forall (fun r => tf_file_id r = name) rows
      /\ List.length rows = List.length ts.
Proof.
  revert d. induction ts as [|t rest IH]; intros d; cbv zeta.
  - simpl. split; [reflexivity|]. split; [exists []; symmetry; apply app_nil_r|].
    exists []. split; [symmetry; apply app_nil_r|]. split; [constructor | reflexivity].
  - simpl fold_left.
    destruct (ensure_tag_extends d t) as [[ext Hext] [Hf Htf]].
    set (d' := set_tags_step_db name d t).
    assert (Htags' : tags d' = tags d ++ ext) by (unfold d', set_tags_step_db; exact Hext).
    assert (Hfiles' : files d' = files d) by (unfold d', set_tags_step_db; exact Hf).
    assert (Htf' : tag_files d'
                   = tag_files d ++ [mk_tag_file (tag_id_of (ensure_tag d t) t) name]).
    { unfold d', set_tags_step_db. cbn [tag_files with_tag_files]. rewrite Htf. reflexivity. }
    destruct (IH d') as [H1 [[ext' H2] [rows [H3 [H4 H5]]]]].
    split; [rewrite H1; exact Hfiles'|].
    split; [exists (ext ++ ext'); rewrite H2, Htags', app_assoc; reflexivity|].
    exists (mk_tag_file (tag_id_of (ensure_tag d t) t) name :: rows).
    split; [rewrite H3, Htf', <- app_assoc; reflexivity|].
    split; [constructor; [reflexivity | exact H4] | simpl; rewrite H5; reflexivity].
Qed.

(** X18.  [set_tags] touches the associations of its file only.  When [f]
    resolves to the id [i], [set_tags(f, ts)] returns [True] for every
    list of tag names and tag ids, [i] and the listed ids fitting in 64
    bits; afterwards the file has exactly as many association rows as the
    list is long, the association rows of every other file id (and the
    rows with a NULL file id) are the same rows in the same order, the
    files are untouched, and the tags that existed are still there, tags
    being only added. *)
Theorem set_tags_touches_one_file (f : ref) (ts : list ref) (i : Z) (c : conn) :
  file_id_of (work c) f = VInt i ->
  int64 i = true ->
  forallb ref_fits ts = true ->
  exists c1 : conn,
    Files.set_tags f ts c = (Ok true, c1)
    /\ List.length (filter (fun tf => sql_eq (tf_file_id tf) (VInt i)) (tag_files (work c1)))
       = List.length ts
    /\ (forall tf, In tf (tag_files (work c)) -> tf_file_id tf <> VInt i ->
                   In tf (tag_files (work c1)))
    /\ (forall p, p <> VInt i ->
                  filter (fun tf => sql_eq (tf_file_id tf) p) (tag_files (work c1))
                  = filter (fun tf => sql_eq (tf_file_id tf) p) (tag_files (work c)))
    /\ files (work c1) = files (work c)
    /\ (exists ext, tags (work c1) = tags (work c) ++ ext).
Proof.
  intros Hf _ _.
  destruct (set_tags_spec f ts c) as [t [Hrun _]]. cbv zeta in Hrun. rewrite Hf in Hrun.
  match type of Hrun with _ = (_, ?x) => set (c1 := x) in * end.
  exists c1. split; [exact Hrun|].
  destruct (set_tags_fold_frame (VInt i) ts (set_tags_cleared (VInt i) (work c)))
    as [Hfiles [Htags [rows [Hrows [Hall Hlen]]]]].
  assert (Hcleared : forall x, In x (tag_files (set_tags_cleared (VInt i) (work c))) ->
                               sql_eq (tf_file_id x) (VInt i) = false).
  { intros x Hx. unfold set_tags_cleared in Hx. cbn [tag_files with_tag_files] in Hx.
    apply filter_In in Hx. destruct Hx as [_ Hx]. apply negb_true_iff in Hx. exact Hx. }
  assert (Hnew : forall x, In x rows -> sql_eq (tf_file_id x) (VInt i) = true).
  { intros x Hx. rewrite Forall_forall in Hall. rewrite (Hall x Hx). apply sql_eq_int_refl. }
  split; [ | split; [ | split; [ | split; [exact Hfiles | exact Htags] ] ] ].
  - unfold c1. cbn [work]. rewrite Hrows, filter_app, length_app.
    rewrite (filter_none _ _ Hcleared), (filter_all _ _ Hnew). simpl. exact Hlen.
  - intros tf Htf Hne. unfold c1. cbn [work]. rewrite Hrows. apply in_or_app. left.
    unfold set_tags_cleared. cbn [tag_files with_tag_files]. apply filter_In.
    split; [exact Htf|]. apply negb_true_iff.
    destruct (tf_file_id tf) as [|x|s]; try reflexivity.
    rewrite sql_eq_int. apply Z.eqb_neq. intros E. apply Hne. rewrite E. reflexivity.
  - intros p Hp. unfold c1. cbn [work]. rewrite Hrows, filter_app.
    rewrite (filter_none _ rows).
    + rewrite app_nil_r. unfold set_tags_cleared. cbn [tag_files with_tag_files].
      induction (tag_files (work c)) as [|a l IH]; [reflexivity|].
      cbn [filter]. destruct (sql_eq (tf_file_id a) (VInt i)) eqn:Ei; cbn [negb].
      * destruct (sql_eq (tf_file_id a) p) eqn:Ep; [ | exact IH ].
        exfalso. apply Hp. apply (sql_eq_same_right _ _ _ Ep Ei).
      * cbn [filter]. rewrite IH. reflexivity.
    + intros x Hx. destruct (sql_eq (tf_file_id x) p) eqn:Ep; [ | reflexivity ].
      exfalso. apply Hp. apply (sql_eq_same_right _ _ _ Ep (Hnew x Hx)).
Qed.

Lemma set_tags_touches_one_file_witness :
  exists c1 : conn,
    Files.set_tags (RName "a.jpg") [RName "x"; RId 7; RName "x"] photo_conn = (Ok true, c1)
    /\ List.length (filter (fun tf => sql_eq (tf_file_id tf) (VInt 1)) (tag_files (work c1)))
       = List.length [RName "x"; RId 7; RName "x"]
    /\ (forall tf, In tf (tag_files (work photo_conn)) -> tf_file_id tf <> VInt 1 ->
                   In tf (tag_files (work c1)))
    /\ (forall p, p <> VInt 1 ->
                  filter (fun tf => sql_eq (tf_file_id tf) p) (tag_files (work c1))
                  = filter (fun tf => sql_eq (tf_file_id tf) p) (tag_files (work photo_conn)))
    /\ files (work c1) = files (work photo_conn)
    /\ (exists ext, tags (work c1) = tags (work photo_conn) ++ ext).
Proof.
  apply (set_tags_touches_one_file (RName "a.jpg") [RName "x"; RId 7; RName "x"] 1 photo_conn);
    reflexivity.
Defined.

(** X19.  [set_tags] on a name that no file bears replaces nothing.  For
    every list of tag names and tag ids that fit in 64 bits the call
    returns [True]; it deletes no row and appends one association row with
    a NULL file id for each listed tag, so that every repetition adds the
    rows again; [get_tags] of that name stays empty. *)
Theorem set_tags_unknown_file_piles_up (n : string) (ts : list ref) (c : conn) :
  ~ In n (map file_name (files (work c))) ->
  forallb ref_fits ts = true ->
  exists (c1 : conn) (rows : list tag_file_row),
    Files.set_tags (RName n) ts c = (Ok true, c1)
    /\ tag_files (work c1) = tag_files (work c) ++ rows
    /\ Forall (fun r => tf_file_id r = VNull) rows
    /\ List.length rows = List.length ts
    /\ fst (Files.get_tags (RName n) c1) = Ok []
    /\ ~ In n (map file_name (files (work c1))).
Proof.
  intros Habs _. pose proof (file_id_of_absent (work c) n Habs) as Hnull.
  destruct (set_tags_spec (RName n) ts c) as [t [Hrun _]]. cbv zeta in Hrun.
  rewrite Hnull in Hrun.
  match type of Hrun with _ = (_, ?x) => set (c1 := x) in * end.
  assert (Hsame : set_tags_cleared VNull (work c) = work c).
  { unfold set_tags_cleared. rewrite filter_all; [apply with_tag_files_same|].
    intros x _. rewrite sql_eq_null_r. reflexivity. }
  destruct (set_tags_fold_frame VNull ts (set_tags_cleared VNull (work c)))
    as [Hfiles [_ [rows [Hrows [Hall Hlen]]]]].
  rewrite Hsame in Hfiles, Hrows.
  assert (Hw : work c1 = fold_left (set_tags_step_db VNull) ts (work c))
    by (unfold c1; cbn [work]; rewrite Hsame; reflexivity).
  rewrite <- Hw in Hfiles, Hrows.
  exists c1, rows. split; [exact Hrun|]. split; [exact Hrows|].
  split; [exact Hall|]. split; [exact Hlen|]. split.
  - rewrite get_tags_spec. rewrite join_tags_no_rows; [reflexivity|].
    intros tf _. rewrite (file_id_of_files (work c1) (work c) (RName n) Hfiles), Hnull.
    apply sql_eq_null_r.
  - rewrite Hfiles. exact Habs.
Qed.

Lemma set_tags_unknown_file_piles_up_witness :
  exists (c1 : conn) (rows : list tag_file_row),
    Files.set_tags (RName "b.jpg") [RName "photo"] photo_conn = (Ok true, c1)
    /\ tag_files (work c1) = tag_files (work photo_conn) ++ rows
    /\ Forall (fun r => tf_file_id r = VNull) rows
    /\ List.length rows = List.length [RName "photo"]
    /\ fst (Files.get_tags (RName "b.jpg") c1) = Ok []
    /\ ~ In "b.jpg" (map file_name (files (work c1))).
Proof.
  apply (set_tags_unknown_file_piles_up "b.jpg" [RName "photo"] photo_conn).
  - simpl. intros [H|H]; [discriminate H | exact H].
  - reflexivity.
Defined.

(** ** [set_tags]: the commit when every tag resolves *)

(** One iteration of the loop for a tag that resolves: nothing is
    committed. *)
Lemma set_tags_step_resolved (name : value) (tag : ref) (c : conn) :
  auto_created (work c) tag = false ->
  Files.set_tags_step name tag c
  = (Ok tt,
     mk_conn (with_tag_files (work c)
                (tag_files (work c) ++ [mk_tag_file (tag_id_of (work c) tag) name]))
             (committed c)
             (trace c ++ resolved_step (work c) name tag)).
Proof.
  intros H. unfold Files.set_tags_step, resolved_step. unfold auto_created in H.
  erewrite bind_ok; [ | apply Tags_get_id_spec ].
  rewrite H.
  erewrite bind_ok; [ | reflexivity ].
  step. unfold ret, logged. cbn [work committed trace].
  rewrite <- app_assoc. reflexivity.
Qed.

Lemma resolved_step_tags (d d' : database) (name : value) (t : ref) :
  tags d = tags d' -> resolved_step d name t = resolved_step d' name t.
Proof. intros H. unfold resolved_step. rewrite (tag_id_of_tags d d' t H). reflexivity. Qed.

Lemma with_tag_files_twice (d : database) (a b : list tag_file_row) :
  with_tag_files (with_tag_files d a) b = with_tag_files d b.
Proof. reflexivity. Qed.

Lemma set_tags_loop_resolved (name : value) (ts : list ref) (c : conn) :
  (forall t, In t ts -> auto_created (work c) t = false) ->
  Files.set_tags_loop name ts c
  = (Ok tt,
     mk_conn (with_tag_files (work c)
                (tag_files (work c)
                   ++ map (fun t => mk_tag_file (tag_id_of (work c) t) name) ts))
             (committed c)
             (trace c ++ flat_map (resolved_step (work c) name) ts)).
Proof.
  revert c. induction ts as [|tag rest IH]; intros c H.
  - simpl. unfold ret. rewrite !app_nil_r, with_tag_files_same. destruct c; reflexivity.
  - cbn [Files.set_tags_loop].
    erewrite bind_ok; [ | apply set_tags_step_resolved, H; left; reflexivity ].
    rewrite IH.
    + cbn [work committed trace tag_files with_tag_files map flat_map].
      match goal with |- context [tag_id_of ?d _] =>
        match d with
        | with_tag_files _ _ => set (d1 := d)
        end
      end.
      assert (Hm : map (fun t => mk_tag_file (tag_id_of d1 t) name) rest
                   = map (fun t => mk_tag_file (tag_id_of (work c) t) name) rest)
        by (apply map_ext; intros t; rewrite (tag_id_of_tags d1 (work c) t eq_refl); reflexivity).
      assert (Hf : flat_map (resolved_step d1 name) rest
                   = flat_map (resolved_step (work c) name) rest)
        by (apply flat_map_ext; intros t; apply resolved_step_tags; reflexivity).
      rewrite Hm, Hf. unfold d1. rewrite with_tag_files_twice, <- !app_assoc. reflexivity.
    + intros t Ht. cbn [work]. rewrite <- (H t (or_intror Ht)).
      apply auto_created_tags. reflexivity.
Qed.

(** X27.  [set_tags] with tags that all resolve commits once, at the very
    end.  When none of the listed tags has to be created, and the id of
    the file and the listed ids fit in 64 bits, [set_tags(f, ts)] runs the
    lookup of the file, one DELETE, then for each listed tag its lookup
    and one INSERT, and then one commit, its last act, and returns [True].
    What is committed is the database in which the associations of the
    other files are followed by one row for each listed tag, in the order
    of the list; nothing is committed before. *)
Theorem set_tags_resolved_commits_last (f : ref) (ts : list ref) (c : conn) :
  let name := file_id_of (work c) f in
  let d' := with_tag_files (work c)
              (filter (fun tf => negb (sql_eq (tf_file_id tf) name)) (tag_files (work c))
                 ++ map (fun t => mk_tag_file (tag_id_of (work c) t) name) ts) in
  bindable name = true ->
  forallb ref_fits ts = true ->
  (forall t, In t ts -> auto_created (work c) t = false) ->
  Files.set_tags f ts c
  = (Ok true,
     mk_conn d' d'
       (trace c ++ file_lookup f
          ++ [Exec "DELETE FROM tag_files WHERE file_id = ?" [name]]
          ++ flat_map (resolved_step (work c) name) ts
          ++ [Commit d'])).
Proof.
  cbv zeta. intros _ _ H. unfold Files.set_tags.
  erewrite bind_ok; [ | apply Files_get_id_spec ].
  step.
  erewrite bind_ok.
  2:{ apply set_tags_loop_resolved. intros t Ht. cbn [work logged].
      rewrite <- (H t Ht). apply auto_created_tags. reflexivity. }
  step. unfold ret, logged. cbn [work committed trace tag_files with_tag_files].
  match goal with |- context [tag_id_of ?d _] =>
    match d with
    | with_tag_files _ _ => set (d1 := d)
    end
  end.
  assert (Hm : map (fun t => mk_tag_file (tag_id_of d1 t) (file_id_of (work c) f)) ts
               = map (fun t => mk_tag_file (tag_id_of (work c) t) (file_id_of (work c) f)) ts)
    by (apply map_ext; intros t; rewrite (tag_id_of_tags d1 (work c) t eq_refl); reflexivity).
  assert (Hf : flat_map (resolved_step d1 (file_id_of (work c) f)) ts
               = flat_map (resolved_step (work c) (file_id_of (work c) f)) ts)
    by (apply flat_map_ext; intros t; apply resolved_step_tags; reflexivity).
  rewrite Hm, Hf. unfold d1. rewrite with_tag_files_twice, <- !app_assoc. reflexivity.
Qed.

Lemma set_tags_resolved_commits_last_witness :
  Files.set_tags (RName "a.jpg") [RName "photo"; RId 7] photo_conn
  = (Ok true,
     let d' := with_tag_files photo_db [mk_tag_file (VInt 1) (VInt 1); mk_tag_file (VInt 7) (VInt 1)] in
     mk_conn d' d'
       [Exec "SELECT id FROM files WHERE name = ?" [VText "a.jpg"];
        Exec "DELETE FROM tag_files WHERE file_id = ?" [VInt 1];
        Exec "SELECT id FROM tags WHERE name = ?" [VText "photo"];
        Exec "INSERT INTO tag_files(tag_id, file_id) VALUES(?, ?)" [VInt 1; VInt 1];
        Exec "INSERT INTO tag_files(tag_id, file_id) VALUES(?, ?)" [VInt 7; VInt 1];
        Commit d']).
Proof.
  apply (set_tags_resolved_commits_last (RName "a.jpg") [RName "photo"; RId 7] photo_conn).
  - reflexivity.
  - reflexivity.
  - intros t [H|[H|H]]; [ subst t; reflexivity | subst t; reflexivity | destruct H ].
Defined.

(** ** Files: renaming *)

Lemma rename_file_paths (sel : file_row -> bool) (dst : string) (l : list file_row) :
  map file_path (map (rename_file sel dst) l) = map file_path l.
Proof.
  rewrite map_map. apply map_ext. intros t. unfold rename_file.
  destruct (sel t); reflexivity.
Qed.

Lemma filter_renamed_by_id (p : value) (sel : file_row -> bool) (dst : string)
      (l : list file_row) :
  filter (file_has_id p) (map (rename_file sel dst) l)
  = map (rename_file sel dst) (filter (file_has_id p) l).
Proof.
  induction l as [|a l IH]; [reflexivity|]. cbn [map filter].
  assert (E : file_has_id p (rename_file sel dst a) = file_has_id p a)
    by (unfold rename_file; destruct (sel a); reflexivity).
  rewrite E. destruct (file_has_id p a); [cbn [map]; f_equal|]; exact IH.
Qed.

Lemma Files_rename_work (src : ref) (dst : string) (c : conn) :
  exists u : list event,
    Files.rename src dst c
    = (Ok true,
       let sel := match src with
                  | RId i => file_has_id (VInt i)
                  | RName s => file_has_name (VText s)
                  end in
       let d := with_files (work c) (map (rename_file sel dst) (files (work c))) in
       mk_conn d d (trace c ++ u)).
Proof.
  unfold Files.rename. destruct src as [i|s];
    (step; step; unfold ret; simpl; rewrite <- app_assoc; eexists; reflexivity).
Qed.

(** X20.  [Files.rename] changes names only.  It returns [True] for every
    source given by a name or by an id that fits in 64 bits, and for every
    new name, also a name that files already bear; the ids and the paths
    of the files, the associations and the tags are as before.  By id,
    every file with another id is untouched and the path read by that id
    is the same; by a name [s] other than the new one, no file is named
    [s] afterwards: [exists(s)] is [False]. *)
Theorem file_rename_changes_names_only (src : ref) (dst : string) (c : conn) :
  ref_fits src = true ->
  exists c1 : conn,
    Files.rename src dst c = (Ok true, c1)
    /\ map file_id (files (work c1)) = map file_id (files (work c))
    /\ map file_path (files (work c1)) = map file_path (files (work c))
    /\ tag_files (work c1) = tag_files (work c)
    /\ tags (work c1) = tags (work c)
    /\ (forall i, src = RId i ->
                  (forall x, In x (files (work c)) -> file_id x <> i -> In x (files (work c1)))
                  /\ fst (Files.resolve (RId i) c1) = fst (Files.resolve (RId i) c))
    /\ (forall s, src = RName s -> s <> dst -> fst (Files.exists_ (RName s) c1) = Ok false).
Proof.
  intros _.
  destruct (Files_rename_work src dst c) as [u Hrun]. cbv zeta in Hrun.
  match type of Hrun with _ = (_, ?x) => set (c1 := x) in * end.
  exists c1. split; [exact Hrun|].
  split; [unfold c1; cbn [work files with_files]; apply rename_file_ids|].
  split; [unfold c1; cbn [work files with_files]; apply rename_file_paths|].
  split; [reflexivity|]. split; [reflexivity|]. split.
  - intros i E. subst src. split.
    + intros x Hx Hne. unfold c1. cbn [work files with_files].
      apply in_map_iff. exists x. split; [ | exact Hx ].
      unfold rename_file, file_has_id. rewrite sql_eq_int.
      destruct (file_id x =? i)%Z eqn:Ei; [ | reflexivity ].
      apply Z.eqb_eq in Ei. destruct (Hne Ei).
    + rewrite !Files_resolve_value. unfold c1. cbn [work files with_files].
      rewrite filter_renamed_by_id.
      rewrite <- (map_map file_path VText), rename_file_paths, map_map. reflexivity.
  - intros s E Hne. subst src. rewrite Files_exists_value.
    unfold c1. cbn [work file_id_of files with_files].
    rewrite filter_none; [reflexivity|].
    intros x Hx. apply in_map_iff in Hx. destruct Hx as [y [Ey Hy]]. subst x.
    unfold rename_file. destruct (file_has_name (VText s) y) eqn:E; [ | exact E ].
    unfold file_has_name. rewrite sql_eq_text. cbn [file_name]. apply String.eqb_neq.
    intros F. apply Hne. symmetry. exact F.
Qed.

Lemma file_rename_changes_names_only_witness :
  exists c1 : conn,
    Files.rename (RName "a") "b" twins_conn = (Ok true, c1)
    /\ map file_id (files (work c1)) = map file_id (files (work twins_conn))
    /\ map file_path (files (work c1)) = map file_path (files (work twins_conn))
    /\ tag_files (work c1) = tag_files (work twins_conn)
    /\ tags (work c1) = tags (work twins_conn)
    /\ (forall i, RName "a" = RId i ->
                  (forall x, In x (files (work twins_conn)) -> file_id x <> i ->
                             In x (files (work c1)))
                  /\ fst (Files.resolve (RId i) c1) = fst (Files.resolve (RId i) twins_conn))
    /\ (forall s, RName "a" = RName s -> s <> "b" ->
                  fst (Files.exists_ (RName s) c1) = Ok false).
Proof. exact (file_rename_changes_names_only (RName "a") "b" twins_conn eq_refl). Defined.

(** ** Selections *)

Lemma Selections_resolve_value (n : string) (c : conn) :
  fst (Selections.resolve n c)
  = Ok (fetchone_first (map (fun s => VText (sel_value s))
                            (filter (sel_has_name (VText n)) (selections (work c))))).
Proof. unfold Selections.resolve. step. reflexivity. Qed.

Lemma Selections_exists_value (n : string) (c : conn) :
  fst (Selections.exists_ n c)
  = Ok (negb (is_null (fetchone_first
                         (map (fun s => VText (sel_value s))
                              (filter (sel_has_name (VText n)) (selections (work c))))))).
Proof.
  unfold Selections.exists_. erewrite bind_ok.
  2:{ unfold Selections.resolve. step. reflexivity. }
  reflexivity.
Qed.

Lemma filter_other_selection (n m : string) (l : list selection_row) :
  m <> n ->
  filter (sel_has_name (VText m)) (filter (fun s => negb (sel_has_name (VText n) s)) l)
  = filter (sel_has_name (VText m)) l.
Proof.
  intros Hm. induction l as [|o l IH]; simpl; [reflexivity|].
  destruct (sel_has_name (VText n) o) eqn:En; simpl.
  - assert (Eo : sel_has_name (VText m) o = false).
    { unfold sel_has_name in *. rewrite sql_eq_text in *. apply String.eqb_eq in En.
      apply String.eqb_neq. intros F. apply Hm. rewrite <- F, En. reflexivity. }
    rewrite Eo. exact IH.
  - destruct (sel_has_name (VText m) o); [f_equal|]; exact IH.
Qed.

(** X21.  A removed selection is gone, and removing never fails.
    [Selections.remove(n)] returns [True] for every name, existing or
    not; afterwards [resolve(n)] returns [None] and [exists(n)] is
    [False], and every other selection resolves as before. *)
Theorem selection_removed_is_gone (n : string) (c : conn) :
  exists c1 : conn,
    Selections.remove n c = (Ok true, c1)
    /\ fst (Selections.resolve n c1) = Ok VNull
    /\ fst (Selections.exists_ n c1) = Ok false
    /\ (forall m, m <> n -> fst (Selections.resolve m c1) = fst (Selections.resolve m c))
    /\ committed c1 = work c1.
Proof.
  assert (Hgone : filter (sel_has_name (VText n))
                         (filter (fun s => negb (sel_has_name (VText n) s)) (selections (work c)))
                  = []).
  { apply filter_none. intros x Hx. apply filter_In in Hx. destruct Hx as [_ Hx].
    apply negb_true_iff in Hx. exact Hx. }
  eexists. split; [unfold Selections.remove; step; step; reflexivity|].
  split; [rewrite Selections_resolve_value; cbn [work selections with_selections];
          rewrite Hgone; reflexivity|].
  split; [rewrite Selections_exists_value; cbn [work selections with_selections];
          rewrite Hgone; reflexivity|].
  split; [ | reflexivity ].
  intros m Hm. rewrite !Selections_resolve_value. cbn [work selections with_selections].
  rewrite (filter_other_selection n m _ Hm). reflexivity.
Qed.

Lemma selection_removed_is_gone_witness :
  exists c1 : conn,
    Selections.remove "by_photo" photo_conn = (Ok true, c1)
    /\ fst (Selections.resolve "by_photo" c1) = Ok VNull
    /\ fst (Selections.exists_ "by_photo" c1) = Ok false
    /\ (forall m, m <> "by_photo" ->
                  fst (Selections.resolve m c1) = fst (Selections.resolve m photo_conn))
    /\ committed c1 = work c1.
Proof. exact (selection_removed_is_gone "by_photo" photo_conn). Defined.

Lemma renamed_selection_by_new_name (l : list selection_row) (src dst v : string) :
  NoDup (map sel_name l) -> In (mk_selection src v) l -> ~ In dst (map sel_name l) ->
  filter (sel_has_name (VText dst)) (map (rename_selection (sel_has_name (VText src)) dst) l)
  = [mk_selection dst v].
Proof.
  induction l as [|a l IH]; intros Hnd Hin Hdst; [destruct Hin|].
  cbn [map] in Hnd, Hdst. inversion Hnd as [|z zs Hnotin Hnd']; subst.
  assert (Hdl : ~ In dst (map sel_name l)) by (intros F; apply Hdst; right; exact F).
  assert (Hda : sel_name a <> dst) by (intros F; apply Hdst; left; exact F).
  cbn [map filter].
  destruct Hin as [E|Hin].
  - subst a.
    assert (E1 : rename_selection (sel_has_name (VText src)) dst (mk_selection src v)
                 = mk_selection dst v).
    { unfold rename_selection, sel_has_name. rewrite sql_eq_text. cbn [sel_name sel_value].
      rewrite String.eqb_refl. reflexivity. }
    assert (E2 : sel_has_name (VText dst) (mk_selection dst v) = true).
    { unfold sel_has_name. rewrite sql_eq_text. apply String.eqb_refl. }
    rewrite E1, E2. f_equal. apply filter_none. intros x Hx. apply in_map_iff in Hx.
    destruct Hx as [y [Ey Hy]]. subst x. unfold rename_selection.
    assert (Hys : sel_has_name (VText src) y = false).
    { unfold sel_has_name. rewrite sql_eq_text. apply String.eqb_neq. intros F.
      apply Hnotin. cbn [sel_name]. rewrite <- F. apply in_map. exact Hy. }
    rewrite Hys. unfold sel_has_name. rewrite sql_eq_text. apply String.eqb_neq.
    intros F. apply Hdl. rewrite <- F. apply in_map. exact Hy.
  - assert (Has : sel_has_name (VText src) a = false).
    { unfold sel_has_name. rewrite sql_eq_text. apply String.eqb_neq. intros F.
      apply Hnotin. rewrite F. change src with (sel_name (mk_selection src v)).
      apply in_map. exact Hin. }
    assert (E1 : rename_selection (sel_has_name (VText src)) dst a = a)
      by (unfold rename_selection; rewrite Has; reflexivity).
    assert (Had : sel_has_name (VText dst) a = false)
      by (unfold sel_has_name; rewrite sql_eq_text; apply String.eqb_neq; exact Hda).
    rewrite E1, Had. apply IH; assumption.
Qed.

(** X22.  Renaming a selection moves its predicate.  In a well-formed
    store, for a selection [src] with the value [v] and a name [dst] that
    no selection bears, neither being ["__ALL__"], [rename(src, dst)]
    returns [True]; then [resolve(dst)] returns [v] and [resolve(src)]
    returns [None]. *)
Theorem selection_rename_moves_value (src dst v : string) (c : conn) :
  wf_db (work c) ->
  In (mk_selection src v) (selections (work c)) ->
  ~ In dst (map sel_name (selections (work c))) ->
  src <> "__ALL__" -> dst <> "__ALL__" ->
  exists c1 : conn,
    Selections.rename src dst c = (Ok true, c1)
    /\ fst (Selections.resolve dst c1) = Ok (VText v)
    /\ fst (Selections.resolve src c1) = Ok VNull
    /\ committed c1 = work c1.
Proof.
  intros Hwf Hin Habs Hs Hd. apply String.eqb_neq in Hs, Hd.
  assert (Hne : src <> dst).
  { intros E. apply Habs. rewrite <- E. change src with (sel_name (mk_selection src v)).
    apply in_map. exact Hin. }
  assert (Hnoconf : sel_update_conflict dst (VText src) (selections (work c)) = false).
  { unfold sel_update_conflict. apply andb_false_iff. right.
    apply existsb_none. intros x Hx. unfold sel_has_name at 1. rewrite sql_eq_text.
    rewrite (absent_name sel_name dst _ Habs x Hx). reflexivity. }
  eexists. split.
  { unfold Selections.rename. rewrite Hs, Hd. cbn [orb].
    erewrite bind_ok.
    2:{ eapply execute_rows; [reflexivity|]. simpl. rewrite Hnoconf. reflexivity. }
    step. reflexivity. }
  split; [ | split; [ | reflexivity ] ].
  - rewrite Selections_resolve_value. cbn [work selections with_selections].
    rewrite (renamed_selection_by_new_name _ src dst v (wf_selection_names _ Hwf) Hin Habs).
    reflexivity.
  - rewrite Selections_resolve_value. cbn [work selections with_selections].
    rewrite filter_none; [reflexivity|].
    intros x Hx. apply in_map_iff in Hx. destruct Hx as [y [Ey Hy]]. subst x.
    unfold rename_selection. destruct (sel_has_name (VText src) y) eqn:E; [ | exact E ].
    unfold sel_has_name. rewrite sql_eq_text. cbn [sel_name]. apply String.eqb_neq.
    intros F. apply Hne. symmetry. exact F.
Qed.

Lemma selection_rename_moves_value_witness :
  exists c1 : conn,
    Selections.rename "by_photo" "photos" photo_conn = (Ok true, c1)
    /\ fst (Selections.resolve "photos" c1) = Ok (VText "tags.name='photo'")
    /\ fst (Selections.resolve "by_photo" c1) = Ok VNull
    /\ committed c1 = work c1.
Proof.
  apply (selection_rename_moves_value "by_photo" "photos" "tags.name='photo'" photo_conn).
  - exact photo_db_wf.
  - simpl. left. reflexivity.
  - simpl. intros [H|H]; [discriminate H | exact H].
  - discriminate.
  - discriminate.
Defined.

(** X23.  A selection may be named ["__ALL__"], but then it cannot be
    renamed.  [Selections.new] has no guard: when no selection is named
    ["__ALL__"], [new("__ALL__", v)] returns [True] and [resolve] returns
    [v]; [rename] returns [False] and changes nothing when either name is
    ["__ALL__"]; [remove("__ALL__")] removes the selection. *)
Theorem selection_named_like_sentinel (v : string) (c : conn) :
  ~ In "__ALL__" (map sel_name (selections (work c))) ->
  exists c1 : conn,
    Selections.new "__ALL__" v c = (Ok true, c1)
    /\ fst (Selections.resolve "__ALL__" c1) = Ok (VText v)
    /\ (forall dst, Selections.rename "__ALL__" dst c1 = (Ok false, c1))
    /\ (forall src, Selections.rename src "__ALL__" c1 = (Ok false, c1))
    /\ exists c2 : conn,
        Selections.remove "__ALL__" c1 = (Ok true, c2)
        /\ fst (Selections.resolve "__ALL__" c2) = Ok VNull.
Proof.
  intros Habs.
  assert (Hno : forall s, In s (selections (work c)) -> sel_has_name (VText "__ALL__") s = false)
    by (intros s Hs; apply (absent_name sel_name "__ALL__" _ Habs s Hs)).
  eexists. split.
  { unfold Selections.new. erewrite bind_ok.
    2:{ eapply execute_rows; [reflexivity|]. simpl. rewrite (existsb_none _ _ Hno). reflexivity. }
    step. reflexivity. }
  split.
  { rewrite Selections_resolve_value. cbn [work selections with_selections].
    rewrite filter_app, (filter_none _ _ Hno). reflexivity. }
  split; [intros dst; reflexivity|]. split.
  { intros src. unfold Selections.rename.
    replace ((src =? "__ALL__")%string || ("__ALL__" =? "__ALL__")%string) with true
      by (symmetry; apply orb_true_r).
    reflexivity. }
  eexists. split; [unfold Selections.remove; step; step; reflexivity|].
  rewrite Selections_resolve_value. cbn [work selections with_selections].
  rewrite filter_none; [reflexivity|].
  intros x Hx. apply filter_In in Hx. destruct Hx as [_ Hx]. apply negb_true_iff in Hx. exact Hx.
Qed.

Lemma selection_named_like_sentinel_witness :
  exists c1 : conn,
    Selections.new "__ALL__" "1" photo_conn = (Ok true, c1)
    /\ fst (Selections.resolve "__ALL__" c1) = Ok (VText "1")
    /\ (forall dst, Selections.rename "__ALL__" dst c1 = (Ok false, c1))
    /\ (forall src, Selections.rename src "__ALL__" c1 = (Ok false, c1))
    /\ exists c2 : conn,
        Selections.remove "__ALL__" c1 = (Ok true, c2)
        /\ fst (Selections.resolve "__ALL__" c2) = Ok VNull.
Proof.
  apply (selection_named_like_sentinel "1" photo_conn).
  simpl. intros [H|H]; [discriminate H | exact H].
Defined.

(** ** Selections: listing and matching *)

Lemma insert_name_perm (n : string) (l : list string) : Permutation (n :: l) (insert_name n l).
Proof.
  induction l as [|m r IH]; simpl; [apply Permutation_refl|].
  destruct (String.leb n m); [apply Permutation_refl|].
  eapply perm_trans; [apply perm_swap|]. apply perm_skip. exact IH.
Qed.

Lemma index_order_perm (l : list string) : Permutation l (index_order l).
Proof.
  induction l as [|n r IH]; simpl; [apply perm_nil|].
  eapply perm_trans; [apply perm_skip, IH|]. apply insert_name_perm.
Qed.

Lemma insert_name_hd (n x : string) (l : list string) :
  name_le x n -> HdRel name_le x l -> HdRel name_le x (insert_name n l).
Proof.
  intros Hxn H. destruct l as [|m r]; simpl; [constructor; exact Hxn|].
  destruct (String.leb n m); constructor; [exact Hxn|].
  inversion H; assumption.
Qed.

Lemma insert_name_sorted (n : string) (l : list string) :
  Sorted name_le l -> Sorted name_le (insert_name n l).
Proof.
  induction l as [|m r IH]; simpl; intros H; [repeat constructor|].
  destruct (String.leb n m) eqn:E.
  - constructor; [exact H|]. constructor. exact E.
  - inversion H as [|? ? Hs Hh]; subst. constructor; [apply IH; exact Hs|].
    apply insert_name_hd; [ | exact Hh ].
    destruct (String.leb_total n m) as [F|F]; [rewrite F in E; discriminate E | exact F].
Qed.

Lemma index_order_sorted (l : list string) : Sorted name_le (index_order l).
Proof.
  induction l as [|n r IH]; simpl; [constructor|]. apply insert_name_sorted. exact IH.
Qed.

(** X28.  [Selections.all_names] lists the names sorted, not as they were
    created: it returns every selection name once, in ascending order of
    their code units, whatever the order in which the selections were
    created or renamed (the statement is answered from the index of
    [UNIQUE(name)]). *)
Theorem selection_names_in_index_order (c : conn) :
  exists names : list string,
    Selections.all_names c
    = (Ok (map VText names), logged [Exec "SELECT name FROM selections;" []] c)
    /\ Permutation (map sel_name (selections (work c))) names
    /\ Sorted name_le names.
Proof.
  exists (index_order (map sel_name (selections (work c)))).
  split; [ | split; [apply index_order_perm | apply index_order_sorted] ].
  unfold Selections.all_names. step. reflexivity.
Qed.

(** X29.  [select] and [matches] splice the stored text as it is, and the
    word [None] for a selection that does not exist: there is no early
    return.  Both look the selection up and then execute the join of
    [tag_files], [files] and [tags] with that text after [WHERE] - in
    [matches] after the condition on the file, [files.id = ?] for an [int]
    (one that fits in 64 bits) and [files.name = ?] for a [str], with the
    file bound to it.  [select] returns the names SQLite finds, [matches]
    whether a row came back; both raise what SQLite raises, commit nothing
    and change nothing. *)
Theorem selection_text_is_spliced (E : engine) (n : string) (f : ref) (c : conn) :
  ref_fits f = true ->
  let text := match selection_value (work c) n with
              | VText v => v
              | _ => "None"
              end in
  Selections.select E n c
  = (E text [] (work c),
     logged [Exec "SELECT value FROM selections WHERE name = ?" [VText n];
             Exec (selection_query text) []] c)
  /\ Selections.matches E n f c
     = (match E (file_condition f ++ text)%string [ref_value f] (work c) with
        | Ok rows => Ok (fetched rows)
        | Raise e => Raise e
        end,
        logged [Exec "SELECT value FROM selections WHERE name = ?" [VText n];
                Exec (selection_query (file_condition f ++ text)) [ref_value f]] c).
Proof.
  intros _ text.
  assert (Et : text = spliced (work c) n).
  { unfold text, spliced, selection_value.
    destruct (filter (sel_has_name (VText n)) (selections (work c))); reflexivity. }
  rewrite Et. split; [apply select_spec | apply matches_spec].
Qed.

Lemma selection_text_is_spliced_witness :
  Selections.select sample_engine "no such selection" photo_conn
  = (Raise OperationalError,
     logged [Exec "SELECT value FROM selections WHERE name = ?" [VText "no such selection"];
             Exec "SELECT files.name FROM tag_files INNER JOIN files ON files.id = tag_files.file_id INNER JOIN tags ON tags.id = tag_files.tag_id WHERE None" []]
            photo_conn)
  /\ Selections.matches sample_engine "by_photo" (RId 1) photo_conn
     = (Ok true,
        logged [Exec "SELECT value FROM selections WHERE name = ?" [VText "by_photo"];
                Exec "SELECT files.name FROM tag_files INNER JOIN files ON files.id = tag_files.file_id INNER JOIN tags ON tags.id = tag_files.tag_id WHERE files.id = ? AND tags.name='photo'" [VInt 1]]
               photo_conn).
Proof.
  split.
  - apply (proj1 (selection_text_is_spliced sample_engine "no such selection" (RId 1)
                                            photo_conn eq_refl)).
  - apply (proj2 (selection_text_is_spliced sample_engine "by_photo" (RId 1)
                                            photo_conn eq_refl)).
Defined.

(** ** The option arguments of [mount] *)

Module MountFacts.
Import Mount.

Lemma first_option_index_bound (argv : list string) (i : nat) :
  first_option_index argv = Some i -> (i < List.length argv)%nat.
Proof.
  revert i. induction argv as [|v r IH]; simpl; intros i H; [discriminate H|].
  destruct (is_option_arg v); [injection H as H; subst i; lia|].
  destruct (first_option_index r) as [j|]; [ | discriminate H ].
  injection H as H. subst i. specialize (IH j eq_refl). lia.
Qed.

Lemma first_option_index_none (argv : list string) :
  first_option_index argv = None -> Forall (fun v => is_option_arg v = false) argv.
Proof.
  induction argv as [|v r IH]; simpl; intros H; [constructor|].
  destruct (is_option_arg v) eqn:E; [discriminate H|].
  destruct (first_option_index r); [discriminate H|].
  constructor; [exact E | apply IH; reflexivity].
Qed.

Lemma remove_at_length (i : nat) (l : list string) :
  (i < List.length l)%nat -> List.length (remove_at i l) = Nat.pred (List.length l).
Proof.
  revert i. induction l as [|a r IH]; intros i H; [simpl in H; lia|].
  destruct i as [|j]; [reflexivity|]. simpl in H. simpl.
  rewrite IH by lia. destruct r; [simpl in H; lia | reflexivity].
Qed.

Lemma remove_at_length_le (i : nat) (l : list string) :
  (List.length (remove_at i l) <= List.length l)%nat.
Proof.
  revert i. induction l as [|a r IH]; intros i; [destruct i; simpl; lia|].
  destruct i as [|j]; simpl; [lia|]. specialize (IH j). lia.
Qed.

Lemma remove_at_incl (i : nat) (l : list string) (v : string) :
  In v (remove_at i l) -> In v l.
Proof.
  revert i. induction l as [|a r IH]; intros i H; [destruct i; exact H|].
  destruct i as [|j]; simpl in H; [right; exact H|].
  destruct H as [H|H]; [left; exact H | right; apply (IH j); exact H].
Qed.

(** The loop ends, and leaves no option argument behind. *)
Lemma parse_options_ends (fuel : nat) (argv : list string) (kw : kwargs) :
  (List.length argv < fuel)%nat ->
  parse_options fuel argv kw = PyIndexError
  \/ exists argv' kw',
      parse_options fuel argv kw = Parsed argv' kw'
      /\ Forall (fun v => is_option_arg v = false) argv'
      /\ (forall v, In v argv' -> In v argv).
Proof.
  revert argv kw. induction fuel as [|fuel IH]; intros argv kw Hlen; [lia|].
  simpl. destruct (first_option_index argv) as [i|] eqn:Hi.
  - pose proof (first_option_index_bound argv i Hi) as Hb.
    destruct (nth i argv "" =? "-o")%string.
    + destruct (nth_error argv (i + 1)) as [options|]; [ | left; reflexivity ].
      assert (Hl : (List.length (remove_at i (remove_at i argv)) < fuel)%nat).
      { pose proof (remove_at_length_le i (remove_at i argv)).
        rewrite (remove_at_length i argv Hb) in H. lia. }
      destruct (IH _ (apply_options options kw) Hl) as [E|[a' [k' [E [Hall Hin]]]]];
        [left; exact E|].
      right. exists a', k'. split; [exact E|]. split; [exact Hall|].
      intros v Hv. apply (remove_at_incl i), (remove_at_incl i), Hin, Hv.
    + assert (Hl : (List.length (remove_at i argv) < fuel)%nat)
        by (rewrite (remove_at_length i argv Hb); lia).
      destruct (IH _ (apply_options (drop 2 (nth i argv "")) kw) Hl)
        as [E|[a' [k' [E [Hall Hin]]]]]; [left; exact E|].
      right. exists a', k'. split; [exact E|]. split; [exact Hall|].
      intros v Hv. apply (remove_at_incl i), Hin, Hv.
  - right. exists argv, kw. split; [reflexivity|].
    split; [apply first_option_index_none; exact Hi | intros v Hv; exact Hv].
Qed.

Lemma first_option_index_app (pre post : list string) (x : string) :
  first_option_index pre = None -> is_option_arg x = true ->
  first_option_index (pre ++ x :: post) = Some (List.length pre).
Proof.
  induction pre as [|v r IH]; simpl; intros Hp Hx; [rewrite Hx; reflexivity|].
  destruct (is_option_arg v); [discriminate Hp|].
  destruct (first_option_index r) eqn:E; [discriminate Hp|].
  rewrite (IH eq_refl Hx). reflexivity.
Qed.

Lemma remove_at_app (pre post : list string) (x : string) :
  remove_at (List.length pre) (pre ++ x :: post) = pre ++ post.
Proof. induction pre as [|v r IH]; simpl; [reflexivity | rewrite IH; reflexivity]. Qed.

Lemma nth_app_here (pre post : list string) (x : string) :
  nth (List.length pre) (pre ++ x :: post) "" = x.
Proof. induction pre as [|v r IH]; simpl; [reflexivity | exact IH]. Qed.

Lemma nth_error_app_next (pre post : list string) (x : string) :
  nth_error (pre ++ x :: post) (List.length pre + 1) = nth_error post 0.
Proof. induction pre as [|v r IH]; simpl; [reflexivity | exact IH]. Qed.

Lemma dash_o_is_option_arg (opts : string) : is_option_arg ("-o" ++ opts) = true.
Proof. unfold is_option_arg. simpl. destruct opts; reflexivity. Qed.

Lemma dash_o_glued (opts : string) : opts <> "" -> (("-o" ++ opts) =? "-o")%string = false.
Proof.
  intros H. apply String.eqb_neq. intros E. apply H.
  destruct opts; [reflexivity | discriminate E].
Qed.

End MountFacts.

(** X24.  The option loop of [mount()] ends after at most as many rounds as
    there are arguments (each round deletes at least one): it either raises
    [IndexError] or leaves arguments of which none begins with [-o], all
    taken from the original arguments. *)
Theorem mount_options_are_consumed (argv : list string) (kw : Mount.kwargs) (fuel : nat) :
  (List.length argv < fuel)%nat ->
  Mount.parse_options fuel argv kw <> Mount.OutOfFuel
  /\ (Mount.parse_options fuel argv kw = Mount.PyIndexError
      \/ exists argv' kw',
          Mount.parse_options fuel argv kw = Mount.Parsed argv' kw'
          /\ Forall (fun v => Mount.is_option_arg v = false) argv'
          /\ (forall v, In v argv' -> In v argv)).
Proof.
  intros H. pose proof (MountFacts.parse_options_ends fuel argv kw H) as D.
  split; [ | exact D ].
  destruct D as [E|[a' [k' [E _]]]]; rewrite E; discriminate.
Qed.

Lemma mount_options_are_consumed_witness :
  Mount.parse_options 5 ["tagfs"; "-o"; "ro"; "db"] [] <> Mount.OutOfFuel
  /\ (Mount.parse_options 5 ["tagfs"; "-o"; "ro"; "db"] [] = Mount.PyIndexError
      \/ exists argv' kw',
          Mount.parse_options 5 ["tagfs"; "-o"; "ro"; "db"] [] = Mount.Parsed argv' kw'
          /\ Forall (fun v => Mount.is_option_arg v = false) argv'
          /\ (forall v, In v argv' -> In v ["tagfs"; "-o"; "ro"; "db"])).
Proof.
  apply (mount_options_are_consumed ["tagfs"; "-o"; "ro"; "db"] [] 5). simpl. lia.
Defined.

(** X25.  The two spellings of an option argument.  After arguments that
    do not begin with [-o], the pair [-o], [opts] and the single argument
    [-o] glued to a non-empty [opts] are read alike: the loop goes on with
    the other arguments and with [opts] applied to [kw].  A bare [-o] as
    the last argument raises [IndexError]. *)
Theorem mount_option_spellings (pre post : list string) (opts : string) (kw : Mount.kwargs)
        (fuel : nat) :
  Mount.first_option_index pre = None ->
  opts <> "" ->
  Mount.parse_options (S fuel) (pre ++ "-o" :: opts :: post) kw
  = Mount.parse_options fuel (pre ++ post) (Mount.apply_options opts kw)
  /\ Mount.parse_options (S fuel) (pre ++ ("-o" ++ opts)%string :: post) kw
     = Mount.parse_options fuel (pre ++ post) (Mount.apply_options opts kw)
  /\ Mount.parse_options (S fuel) (pre ++ ["-o"]) kw = Mount.PyIndexError.
Proof.
  intros Hpre Hopts. split; [ | split ].
  - cbn [Mount.parse_options].
    rewrite (MountFacts.first_option_index_app pre (opts :: post) "-o" Hpre eq_refl).
    rewrite MountFacts.nth_app_here. cbn [String.eqb Ascii.eqb Bool.eqb].
    rewrite MountFacts.nth_error_app_next. cbn [nth_error].
    rewrite MountFacts.remove_at_app.
    rewrite (MountFacts.remove_at_app pre post opts). reflexivity.
  - cbn [Mount.parse_options].
    rewrite (MountFacts.first_option_index_app pre post ("-o" ++ opts)%string Hpre
                                               (MountFacts.dash_o_is_option_arg opts)).
    rewrite MountFacts.nth_app_here, (MountFacts.dash_o_glued opts Hopts).
    rewrite MountFacts.remove_at_app. reflexivity.
  - cbn [Mount.parse_options].
    rewrite (MountFacts.first_option_index_app pre [] "-o" Hpre eq_refl).
    rewrite MountFacts.nth_app_here. cbn [String.eqb Ascii.eqb Bool.eqb].
    rewrite MountFacts.nth_error_app_next. reflexivity.
Qed.

Lemma mount_option_spellings_witness :
  Mount.parse_options 3 (["tagfs"; "db"] ++ "-o" :: "ro,base_dir=/x" :: ["mnt"]) []
  = Mount.parse_options 2 (["tagfs"; "db"] ++ ["mnt"]) (Mount.apply_options "ro,base_dir=/x" [])
  /\ Mount.parse_options 3 (["tagfs"; "db"] ++ ("-o" ++ "ro,base_dir=/x")%string :: ["mnt"]) []
     = Mount.parse_options 2 (["tagfs"; "db"] ++ ["mnt"]) (Mount.apply_options "ro,base_dir=/x" [])
  /\ Mount.parse_options 3 (["tagfs"; "db"] ++ ["-o"]) [] = Mount.PyIndexError.
Proof.
  apply (mount_option_spellings ["tagfs"; "db"] ["mnt"] "ro,base_dir=/x" [] 2).
  - reflexivity.
  - discriminate.
Defined.
Module OptionStringFacts.
Import Mount.

Lemma split_on_nonempty (sep : ascii) (s : string) : split_on sep s <> [].
Proof.
  destruct s as [|c r]; simpl; [discriminate|].
  destruct (Ascii.eqb c sep); [discriminate|].
  destruct (split_on sep r); discriminate.
Qed.

Lemma split_on_app (sep : ascii) (a b : string) :
  split_on sep (a ++ String sep b) = split_on sep a ++ split_on sep b.
Proof.
  induction a as [|c a IH]; simpl.
  - rewrite Ascii.eqb_refl. reflexivity.
  - destruct (Ascii.eqb c sep); [rewrite IH; reflexivity|].
    rewrite IH. pose proof (split_on_nonempty sep a) as Hne.
    destruct (split_on sep a) as [|h t]; [destruct (Hne eq_refl) | reflexivity].
Qed.

Lemma split_on_absent (sep : ascii) (s : string) :
  find_char sep s = None -> split_on sep s = [s].
Proof.
  induction s as [|c r IH]; simpl; intros H; [reflexivity|].
  destruct (Ascii.eqb c sep); [discriminate H|].
  destruct (find_char sep r); [discriminate H|].
  rewrite (IH eq_refl). reflexivity.
Qed.

Lemma find_char_app_absent (c : ascii) (a b : string) :
  find_char c a = None -> find_char c b = None -> find_char c (a ++ b) = None.
Proof.
  induction a as [|x a IH]; simpl; intros Ha Hb; [exact Hb|].
  destruct (Ascii.eqb x c); [discriminate Ha|].
  destruct (find_char c a); [discriminate Ha|].
  rewrite (IH eq_refl Hb). reflexivity.
Qed.

Lemma find_char_app_here (c : ascii) (a b : string) :
  find_char c a = None -> find_char c (a ++ String c b) = Some (String.length a).
Proof.
  induction a as [|x a IH]; simpl; intros Ha; [rewrite Ascii.eqb_refl; reflexivity|].
  destruct (Ascii.eqb x c); [discriminate Ha|].
  destruct (find_char c a); [discriminate Ha|].
  rewrite (IH eq_refl). reflexivity.
Qed.

Lemma take_app (a b : string) : take (String.length a) (a ++ b) = a.
Proof. induction a as [|x a IH]; simpl; [destruct b; reflexivity | rewrite IH; reflexivity]. Qed.

Lemma drop_app (a b : string) (c : ascii) :
  drop (String.length a + 1) (a ++ String c b) = b.
Proof. induction a as [|x a IH]; simpl; [destruct b; reflexivity | exact IH]. Qed.

Lemma lstrip_length (s : string) : (String.length (lstrip s) <= String.length s)%nat.
Proof.
  induction s as [|c r IH]; simpl; [lia|]. destruct (is_space c); simpl; lia.
Qed.

Lemma lstrip_fixed_app (k x : string) (c : ascii) :
  lstrip k = k -> is_space c = false -> lstrip (k ++ String c x) = (k ++ String c x)%string.
Proof.
  destruct k as [|a r]; simpl; intros Hk Hc; [rewrite Hc; reflexivity|].
  destruct (is_space a); [ | reflexivity ].
  exfalso. pose proof (lstrip_length r) as H. rewrite Hk in H. simpl in H. lia.
Qed.

Lemma rstrip_app (x v : string) :
  rstrip v <> "" -> rstrip (x ++ v) = (x ++ rstrip v)%string.
Proof.
  intros Hv. induction x as [|c x IH]; simpl; [reflexivity|].
  rewrite IH. destruct (x ++ rstrip v)%string eqn:E; [ | reflexivity ].
  exfalso. destruct x; simpl in E; [exact (Hv E) | discriminate E].
Qed.

Lemma rstrip_after_char (c : ascii) (v : string) :
  is_space c = false -> rstrip v = v -> rstrip (String c v) = String c v.
Proof.
  intros Hc Hv. simpl. rewrite Hv. destruct v; [rewrite Hc; reflexivity | reflexivity].
Qed.

Lemma equals_not_space : is_space equals = false.
Proof. reflexivity. Qed.

Lemma equals_not_comma : Ascii.eqb equals comma = false.
Proof. reflexivity. Qed.

Lemma strip_assignment (k v : string) :
  clean_key k -> clean_value v ->
  strip (k ++ String equals v) = (k ++ String equals v)%string.
Proof.
  intros [_ [_ Hk]] [_ Hv]. unfold strip.
  rewrite (lstrip_fixed_app k v equals Hk equals_not_space).
  rewrite rstrip_app; rewrite (rstrip_after_char equals v equals_not_space Hv);
    [reflexivity | discriminate].
Qed.

Lemma strip_clean (k : string) : clean_key k -> clean_value k -> strip k = k.
Proof. intros [_ [_ Hk]] [_ Hv]. unfold strip. rewrite Hk. exact Hv. Qed.

Lemma apply_assignment (k v : string) (kw : kwargs) :
  clean_key k -> clean_value v ->
  apply_options (k ++ String equals v) kw = kw_set k (OText v) kw.
Proof.
  intros Hk Hv. pose proof Hk as [Hkc [Hke _]]. pose proof Hv as [Hvc _].
  unfold apply_options. rewrite split_on_absent.
  - cbn [fold_left]. unfold apply_item. rewrite (strip_assignment k v Hk Hv).
    rewrite (find_char_app_here equals k v Hke), take_app, drop_app. reflexivity.
  - apply find_char_app_absent; [exact Hkc|]. cbn [find_char].
    rewrite equals_not_comma, Hvc. reflexivity.
Qed.

Lemma apply_flag (k : string) (kw : kwargs) :
  clean_key k -> clean_value k -> apply_options k kw = kw_set k OTrue kw.
Proof.
  intros Hk Hv. pose proof Hk as [Hkc [Hke _]].
  unfold apply_options. rewrite (split_on_absent comma k Hkc).
  cbn [fold_left]. unfold apply_item. rewrite (strip_clean k Hk Hv), Hke. reflexivity.
Qed.

Lemma apply_options_app (a b : string) (kw : kwargs) :
  apply_options (a ++ String comma b) kw = apply_options b (apply_options a kw).
Proof. unfold apply_options. rewrite split_on_app. apply fold_left_app. Qed.

Lemma kw_get_set (k : string) (v : optval) (kw : kwargs) : kw_get k (kw_set k v kw) = Some v.
Proof.
  induction kw as [|[k' v'] r IH]; simpl; [rewrite String.eqb_refl; reflexivity|].
  destruct (k' =? k)%string eqn:E; simpl; rewrite E; [reflexivity | exact IH].
Qed.

Lemma kw_get_set_other (k k' : string) (v : optval) (kw : kwargs) :
  k' <> k -> kw_get k' (kw_set k v kw) = kw_get k' kw.
Proof.
  intros Hne. induction kw as [|[a w] r IH]; simpl.
  - destruct (k =? k')%string eqn:E; [ | reflexivity ].
    apply String.eqb_eq in E. destruct (Hne (eq_sym E)).
  - destruct (a =? k)%string eqn:E; simpl.
    + destruct (a =? k')%string eqn:E'; [ | reflexivity ].
      apply String.eqb_eq in E, E'. subst. destruct (Hne eq_refl).
    + destruct (a =? k')%string; [reflexivity | exact IH].
Qed.

End OptionStringFacts.

(** X26.  How [mount()] reads an option string.  The items between commas
    are applied from left to right; an item [k=v] sets [kw[k]] to the text
    after the first equals sign, an item without equals sign sets it to
    [True]; so the last item of a key wins, whatever came before, and the
    other keys keep their values. *)
Theorem mount_option_string (k v f : string) :
  clean_key k -> clean_value v -> clean_key f -> clean_value f ->
  (forall a b kw,
      Mount.apply_options (a ++ "," ++ b) kw = Mount.apply_options b (Mount.apply_options a kw))
  /\ (forall opts kw,
         Mount.kw_get k (Mount.apply_options (opts ++ "," ++ k ++ "=" ++ v) kw)
         = Some (Mount.OText v))
  /\ (forall opts kw,
         Mount.kw_get f (Mount.apply_options (opts ++ "," ++ f) kw) = Some Mount.OTrue)
  /\ (forall opts kw k',
         k' <> k ->
         Mount.kw_get k' (Mount.apply_options (opts ++ "," ++ k ++ "=" ++ v) kw)
         = Mount.kw_get k' (Mount.apply_options opts kw)).
Proof.
  intros Hk Hv Hf Hfv. split; [ | split; [ | split ] ].
  - intros a b kw. apply (OptionStringFacts.apply_options_app a b kw).
  - intros opts kw.
    change (opts ++ "," ++ k ++ "=" ++ v)%string
      with (opts ++ String Mount.comma (k ++ String Mount.equals v))%string.
    rewrite OptionStringFacts.apply_options_app, (OptionStringFacts.apply_assignment k v _ Hk Hv).
    apply OptionStringFacts.kw_get_set.
  - intros opts kw.
    change (opts ++ "," ++ f)%string with (opts ++ String Mount.comma f)%string.
    rewrite OptionStringFacts.apply_options_app, (OptionStringFacts.apply_flag f _ Hf Hfv).
    apply OptionStringFacts.kw_get_set.
  - intros opts kw k' Hne.
    change (opts ++ "," ++ k ++ "=" ++ v)%string
      with (opts ++ String Mount.comma (k ++ String Mount.equals v))%string.
    rewrite OptionStringFacts.apply_options_app, (OptionStringFacts.apply_assignment k v _ Hk Hv).
    apply OptionStringFacts.kw_get_set_other. exact Hne.
Qed.

Lemma mount_option_string_witness :
  (forall a b kw,
      Mount.apply_options (a ++ "," ++ b) kw = Mount.apply_options b (Mount.apply_options a kw))
  /\ (forall opts kw,
         Mount.kw_get "base_dir" (Mount.apply_options (opts ++ "," ++ "base_dir" ++ "=" ++ "/x=y") kw)
         = Some (Mount.OText "/x=y"))
  /\ (forall opts kw,
         Mount.kw_get "ro" (Mount.apply_options (opts ++ "," ++ "ro") kw) = Some Mount.OTrue)
  /\ (forall opts kw k',
         k' <> "base_dir" ->
         Mount.kw_get k' (Mount.apply_options (opts ++ "," ++ "base_dir" ++ "=" ++ "/x=y") kw)
         = Mount.kw_get k' (Mount.apply_options opts kw)).
Proof.
  apply (mount_option_string "base_dir" "/x=y" "ro").
  - repeat split; reflexivity.
  - split; reflexivity.
  - repeat split; reflexivity.
  - split; reflexivity.
Defined.
